(** * The DCF valuation pipeline of dcf_dashboard/src, embedded and verified

    The development follows the source modules leaf first:
    [Assumptions] (assumptions.py), [Forecast] (forecast.py), [DCF] (dcf.py),
    [Frame] (the pandas tables), [Metrics] (metrics.py), [Utils] (utils.py)
    and [Loader] (data_loader.py).  The definitions come first, the
    properties after them.

    Numbers.  A Python [float] is modelled by an exact rational of [Q]:
    rounding error and overflow are left out, sign, order, zero tests and
    the algebra of the formulas are kept.  Decimal literals of the source
    ([0.03], [0.005], ...) are the same literals here.  Three things of
    float arithmetic that decide control flow or what a table shows are
    modelled explicitly:
    - the division of two Python scalars raises [ZeroDivisionError] on a
      zero divisor ([py_div]);
    - the division of numpy arrays and pandas series never raises; a
      quotient by zero is a non-finite float there ([NonFin], [np_div]);
    - a missing cell of a pandas series (NaN) is [None].
    The only irrational operation of the program, the fractional power of
    [compute_cagr], takes its value in the real numbers. *)

From Stdlib Require Import Reals Qreals Lra.
From Stdlib Require Import QArith Qminmax Qabs Qround Qpower.
From Stdlib Require Import ZArith List String Bool Lia Lqa.
From Stdlib Require Import SetoidList SetoidPermutation Sorted.
Import ListNotations.

#[local] Open Scope Q_scope.

(** ** Python values shared by the modules *)

(** The exceptions the modelled functions can raise. *)
Inductive exn : Type :=
| ValueError (msg : string)
| KeyError (key : string)
| IndexError
| ZeroDivisionError.

Inductive result (A : Type) : Type :=
| Ok (a : A)
| Raise (e : exn).

Arguments Ok {A} a.
Arguments Raise {A} e.

Definition bind {A B : Type} (c : result A) (k : A -> result B) : result B :=
  match c with
  | Ok a => k a
  | Raise e => Raise e
  end.

Notation "x <- c ;; k" := (bind c (fun x => k))
  (at level 61, c at next level, right associativity).

Definition Qltb (a b : Q) : bool := negb (Qle_bool b a).

(** [max(a, b)] and [min(a, b)] of Python: the first argument is kept unless
    the second is strictly greater (smaller). *)
Definition py_max (a b : Q) : Q := if Qltb a b then b else a.
Definition py_min (a b : Q) : Q := if Qltb b a then b else a.

(** [x / y] on two Python floats. *)
Definition py_div (x y : Q) : result Q :=
  if Qeq_bool y 0 then Raise ZeroDivisionError else Ok (x / y).

(** [range(lo, hi)] on integers. *)
Definition py_range (lo hi : Z) : list Z :=
  map (fun k => (lo + Z.of_nat k)%Z) (seq 0 (Z.to_nat (hi - lo))).

(** ** assumptions.py *)

Module Assumptions.

Record Assumptions : Type := mkAssumptions {
  years : Z;
  revenue_growth : Q;
  ebit_margin : Q;
  tax_rate : Q;
  da_pct_revenue : Q;
  capex_pct_revenue : Q;
  d_nwc_pct_revenue : Q;
  terminal_growth : Q;
  use_ebitda_margin : bool;
  ebitda_margin : option Q
}.

Definition bull_of (base : Assumptions) : Assumptions :=
  {| years := years base;
     revenue_growth := revenue_growth base + 0.03;
     ebit_margin := py_min (ebit_margin base + 0.03) 0.4;
     tax_rate := tax_rate base;
     da_pct_revenue := py_max (da_pct_revenue base - 0.005) 0.0;
     capex_pct_revenue := py_max (capex_pct_revenue base - 0.005) 0.0;
     d_nwc_pct_revenue := py_max (d_nwc_pct_revenue base - 0.003) 0.0;
     terminal_growth := terminal_growth base + 0.005;
     use_ebitda_margin := use_ebitda_margin base;
     ebitda_margin :=
       match ebitda_margin base with
       | Some m => Some (m + 0.02)
       | None => None
       end |}.

Definition bear_of (base : Assumptions) : Assumptions :=
  {| years := years base;
     revenue_growth := py_max (revenue_growth base - 0.03) (-0.1);
     ebit_margin := py_max (ebit_margin base - 0.03) 0.0;
     tax_rate := tax_rate base;
     da_pct_revenue := da_pct_revenue base + 0.005;
     capex_pct_revenue := capex_pct_revenue base + 0.005;
     d_nwc_pct_revenue := d_nwc_pct_revenue base + 0.003;
     terminal_growth := py_max (terminal_growth base - 0.005) 0.0;
     use_ebitda_margin := use_ebitda_margin base;
     ebitda_margin :=
       match ebitda_margin base with
       | Some m => Some (m - 0.02)
       | None => None
       end |}.

(** The returned dict, in insertion order. *)
Definition scenario_presets (base : Assumptions)
  : list (string * Assumptions) :=
  [("Base"%string, base); ("Bull"%string, bull_of base);
   ("Bear"%string, bear_of base)].

Fixpoint lookup (k : string) (d : list (string * Assumptions))
  : option Assumptions :=
  match d with
  | [] => None
  | (k', v) :: d' => if String.eqb k k' then Some v else lookup k d'
  end.

(** Equality of optional floats up to the equality of rationals. *)
Definition opt_eq (a b : option Q) : Prop :=
  match a, b with
  | Some x, Some y => x == y
  | None, None => True
  | _, _ => False
  end.

(** The shifts of the Bull and Bear variants with [dnwc] as the shift of the
    working-capital ratio, the other shifts as the code has them. *)
Definition presets_shifted_by (dnwc : Q) (base bull bear : Assumptions)
  : Prop :=
  (revenue_growth bull == revenue_growth base + 0.03 /\
   ebit_margin bull == Qmin (ebit_margin base + 0.03) 0.4 /\
   da_pct_revenue bull == Qmax (da_pct_revenue base - 0.005) 0 /\
   capex_pct_revenue bull == Qmax (capex_pct_revenue base - 0.005) 0 /\
   d_nwc_pct_revenue bull == Qmax (d_nwc_pct_revenue base - dnwc) 0 /\
   terminal_growth bull == terminal_growth base + 0.005 /\
   opt_eq (ebitda_margin bull)
          (option_map (fun m => m + 0.02) (ebitda_margin base)) /\
   tax_rate bull = tax_rate base /\ years bull = years base) /\
  (revenue_growth bear == Qmax (revenue_growth base - 0.03) (-0.1) /\
   ebit_margin bear == Qmax (ebit_margin base - 0.03) 0 /\
   da_pct_revenue bear == da_pct_revenue base + 0.005 /\
   capex_pct_revenue bear == capex_pct_revenue base + 0.005 /\
   d_nwc_pct_revenue bear == d_nwc_pct_revenue base + dnwc /\
   terminal_growth bear == Qmax (terminal_growth base - 0.005) 0 /\
   opt_eq (ebitda_margin bear)
          (option_map (fun m => m - 0.02) (ebitda_margin base)) /\
   tax_rate bear = tax_rate base /\ years bear = years base).

(** What [presets] holds under its three keys, with [dnwc] as above. *)
Definition presets_derived_by (dnwc : Q) (base : Assumptions) : Prop :=
  exists bull bear,
    lookup "Base" (scenario_presets base) = Some base /\
    lookup "Bull" (scenario_presets base) = Some bull /\
    lookup "Bear" (scenario_presets base) = Some bear /\
    presets_shifted_by dnwc base bull bear.

(** A base case whose working-capital ratio is 1% of revenue. *)
Definition sample_base : Assumptions :=
  {| years := 5; revenue_growth := 0.05; ebit_margin := 0.2;
     tax_rate := 0.25; da_pct_revenue := 0.03; capex_pct_revenue := 0.04;
     d_nwc_pct_revenue := 0.01; terminal_growth := 0.02;
     use_ebitda_margin := false; ebitda_margin := None |}.

End Assumptions.

(** ** forecast.py *)

Module Forecast.
Import Assumptions.

(** One row of [ForecastOutputs.df]; the index label [year] is kept in the
    row, the rows are held in index order. *)
Record ForecastRow : Type := mkRow {
  year : Z;
  revenue : Q;
  ebit : Q;
  nopat : Q;
  da : Q;
  capex : Q;
  d_nwc : Q;
  fcff : Q
}.

(** The body of the loop for the year [y], [revenue] being the value already
    grown for that year. *)
Definition forecast_row (a : Assumptions) (y : Z) (revenue : Q)
  : ForecastRow :=
  let '(ebit, da) :=
    match use_ebitda_margin a, ebitda_margin a with
    | true, Some m =>
        let ebitda := m * revenue in
        let da := da_pct_revenue a * revenue in
        (py_max (ebitda - da) 0.0, da)
    | _, _ => (ebit_margin a * revenue, da_pct_revenue a * revenue)
    end in
  let nopat := ebit * (1 - tax_rate a) in
  let capex := capex_pct_revenue a * revenue in
  let d_nwc := d_nwc_pct_revenue a * revenue in
  let fcff := nopat + da - capex - d_nwc in
  mkRow y revenue ebit nopat da capex d_nwc fcff.

(** [for y in years: ...], with the loop variables [revenue] and [rows]. *)
Fixpoint forecast_loop (a : Assumptions) (ys : list Z) (revenue : Q)
  (rows : list ForecastRow) : list ForecastRow :=
  match ys with
  | [] => rows
  | y :: ys' =>
      let revenue := revenue * (1 + revenue_growth a) in
      forecast_loop a ys' revenue (rows ++ [forecast_row a y revenue])
  end.

(** [pd.DataFrame(rows).set_index("year")] has no column [year] to index by
    when [rows] is empty. *)
Definition build_forecast (last_actual_year : Z) (last_actual_revenue : Q)
  (a : Assumptions) : result (list ForecastRow) :=
  let ys := map (fun i => (last_actual_year + i)%Z)
                (py_range 1 (years a + 1)) in
  match forecast_loop a ys last_actual_revenue [] with
  | [] => Raise (KeyError "year")
  | rows => Ok rows
  end.

(** C9 as stated: no forecast row has a negative EBIT. *)
Definition ebit_never_negative (last_actual_year : Z)
  (last_actual_revenue : Q) (a : Assumptions) : Prop :=
  forall rows r,
    build_forecast last_actual_year last_actual_revenue a = Ok rows ->
    In r rows -> 0 <= ebit r.

(** A loss-making base case forecast on the EBIT-margin path. *)
Definition loss_making : Assumptions :=
  {| years := 5; revenue_growth := 0; ebit_margin := -0.1;
     tax_rate := 0.25; da_pct_revenue := 0.03; capex_pct_revenue := 0.04;
     d_nwc_pct_revenue := 0.01; terminal_growth := 0.02;
     use_ebitda_margin := false; ebitda_margin := None |}.

(** A base case on the EBITDA path. *)
Definition ebitda_case : Assumptions :=
  {| years := 5; revenue_growth := 0.1; ebit_margin := 0.2;
     tax_rate := 0.25; da_pct_revenue := 0.05; capex_pct_revenue := 0.04;
     d_nwc_pct_revenue := 0.01; terminal_growth := 0.02;
     use_ebitda_margin := true; ebitda_margin := Some 0.03 |}.

End Forecast.

(** ** Floats that numpy and pandas produce, and the log *)

(** A float computed by numpy arithmetic: a finite number, or one of the
    non-finite values (an infinity or NaN) that a zero divisor gives. *)
Inductive npfloat : Type :=
| Fin (q : Q)
| NonFin.

Definition np_div (x y : Q) : npfloat :=
  if Qeq_bool y 0 then NonFin else Fin (x / y).

Definition np_lift2 (f : Q -> Q -> Q) (a b : npfloat) : npfloat :=
  match a, b with
  | Fin x, Fin y => Fin (f x y)
  | _, _ => NonFin
  end.

Definition np_add : npfloat -> npfloat -> npfloat := np_lift2 Qplus.
Definition np_sub : npfloat -> npfloat -> npfloat := np_lift2 Qminus.

Definition np_sum (l : list npfloat) : npfloat := fold_left np_add l (Fin 0).

Definition is_finite (x : npfloat) : bool :=
  match x with Fin _ => true | NonFin => false end.

(** What the module-level logger receives. *)
Inductive log_record : Type :=
| ExitMultipleAlternative (tv_exit_disc : Q)
| AssumeDeltaNwcZero
| MissingFields (statement : string) (missing : list string).

(** ** dcf.py *)

Module DCF.
Import Forecast.

Record ValuationInputs : Type := mkValuationInputs {
  rf : Q;
  erp : Q;
  beta : Q;
  cost_of_debt : Q;
  tax_rate : Q;
  equity_value : option Q;
  net_debt : option Q
}.

Definition compute_wacc (inp : ValuationInputs) (equity_weight debt_weight : Q)
  : Q :=
  let ce := rf inp + beta inp * erp inp in
  let cd_after_tax := cost_of_debt inp * (1 - tax_rate inp) in
  equity_weight * ce + debt_weight * cd_after_tax.

Fixpoint zip_with {A B C : Type} (f : A -> B -> C) (l : list A) (m : list B)
  : list C :=
  match l, m with
  | a :: l', b :: m' => f a b :: zip_with f l' m'
  | _, _ => []
  end.

(** [years = np.arange(1, len + 1)], [disc = (1 + wacc) ** years] and the
    sum of the array quotient [fcff / disc]. *)
Definition discount_cashflows (forecast_df : list ForecastRow) (wacc : Q)
  : npfloat :=
  let years := py_range 1 (Z.of_nat (List.length forecast_df) + 1) in
  let disc := map (fun t => (1 + wacc) ^ t) years in
  np_sum (zip_with np_div (map fcff forecast_df) disc).

Definition wacc_not_above_growth : string :=
  "WACC must be greater than terminal growth rate.".

(** [forecast_df["fcff"].iloc[-1]] *)
Definition fcff_iloc_last (forecast_df : list ForecastRow) : result Q :=
  match rev forecast_df with
  | [] => Raise IndexError
  | r :: _ => Ok (fcff r)
  end.

Definition terminal_gordon (forecast_df : list ForecastRow) (wacc g : Q)
  : result Q :=
  if Qle_bool wacc g then Raise (ValueError wacc_not_above_growth)
  else
    fcff_last <- fcff_iloc_last forecast_df ;;
    tv <- py_div (fcff_last * (1 + g)) (wacc - g) ;;
    let years := Z.of_nat (List.length forecast_df) in
    py_div tv ((1 + wacc) ^ years).

(** [np.linspace(a, b, num)]: [num - 1] steps of equal size from [a], the
    last point set to [b]. *)
Definition linspace (a b : Q) (num : nat) : list Q :=
  match num with
  | O => []
  | S O => [a]
  | S n =>
      let step := (b - a) / inject_Z (Z.of_nat n) in
      map (fun i => a + inject_Z (Z.of_nat i) * step) (seq 0 n) ++ [b]
  end.

(** Rounding to the nearest integer, ties to the even one. *)
Definition rint (x : Q) : Z :=
  let f := Qfloor x in
  match Qcompare (x - inject_Z f) (1 # 2) with
  | Lt => f
  | Gt => (f + 1)%Z
  | Eq => if Z.even f then f else (f + 1)%Z
  end.

(** [np.round(x, decimals)]: scale, round to an integer, scale back. *)
Definition np_round (x : Q) (decimals : Z) : Q :=
  inject_Z (rint (x * 10 ^ decimals)) / 10 ^ decimals.

Record SensRow : Type := mkSensRow {
  s_wacc : Q;
  s_g : Q;
  s_enterprise_value : npfloat
}.

(** The body of the [try]: any exception gives the NaN cell.  In the grid
    [w] and [g] are numpy scalars, for which a zero divisor gives a
    non-finite float where two Python floats raise; the cell is [NonFin]
    both ways. *)
Definition sens_cell (forecast_df : list ForecastRow) (w g : Q) : npfloat :=
  let pv := discount_cashflows forecast_df w in
  match terminal_gordon forecast_df w g with
  | Ok tv => np_add pv (Fin tv)
  | Raise _ => NonFin
  end.

Definition wacc_range (wacc : Q) : list Q :=
  map (fun x => np_round x 4)
      (linspace (py_max (wacc - 0.02) 0.03) (wacc + 0.02) 5).

Definition g_range (terminal_growth : Q) : list Q :=
  map (fun x => np_round x 4)
      (linspace (py_max (terminal_growth - 0.01) 0.0)
                (terminal_growth + 0.01) 5).

(** [for w in ws: for g in gs: sens_rows.append(...)], the cell of a pair
    being [cell w g]. *)
Definition grid_rows (cell : Q -> Q -> npfloat) (ws gs : list Q)
  : list SensRow :=
  flat_map (fun w => map (fun g => mkSensRow w g (cell w g)) gs) ws.

Definition sens_rows (forecast_df : list ForecastRow)
  (wacc terminal_growth : Q) : list SensRow :=
  grid_rows (sens_cell forecast_df) (wacc_range wacc)
    (g_range terminal_growth).

(** *** [DataFrame.pivot] *)

Fixpoint insert_sorted (x : Q) (l : list Q) : list Q :=
  match l with
  | [] => [x]
  | y :: l' =>
      if Qeq_bool x y then l
      else if Qle_bool x y then x :: l
      else y :: insert_sorted x l'
  end.

(** The sorted labels of an axis, each once. *)
Definition axis_labels (l : list Q) : list Q :=
  fold_right insert_sorted [] l.

Definition same_key (r1 r2 : SensRow) : bool :=
  Qeq_bool (s_wacc r1) (s_wacc r2) && Qeq_bool (s_g r1) (s_g r2).

(** The same labels, as a relation. *)
Definition key_eq (r1 r2 : SensRow) : Prop :=
  s_wacc r1 == s_wacc r2 /\ s_g r1 == s_g r2.

Fixpoint has_duplicate_key (rows : list SensRow) : bool :=
  match rows with
  | [] => false
  | r :: rows' => existsb (same_key r) rows' || has_duplicate_key rows'
  end.

Definition cell_at (rows : list SensRow) (w g : Q) : npfloat :=
  match find (fun r => Qeq_bool (s_wacc r) w && Qeq_bool (s_g r) g) rows with
  | Some r => s_enterprise_value r
  | None => NonFin
  end.

Record PivotTable : Type := mkPivot {
  pivot_index : list Q;
  pivot_columns : list Q;
  pivot_values : list (list npfloat)
}.

Definition duplicate_entries : string :=
  "Index contains duplicate entries, cannot reshape".

(** [pd.DataFrame(rows).pivot(index="wacc", columns="g",
    values="enterprise_value")]: two rows with the same labels cannot be
    reshaped. *)
Definition pivot (rows : list SensRow) : result PivotTable :=
  if has_duplicate_key rows then Raise (ValueError duplicate_entries)
  else
    let idx := axis_labels (map s_wacc rows) in
    let cols := axis_labels (map s_g rows) in
    Ok (mkPivot idx cols
          (map (fun w => map (fun g => cell_at rows w g) cols) idx)).

Record DCFResult : Type := mkDCFResult {
  r_wacc : Q;
  r_pv_fcff : npfloat;
  r_terminal_value : Q;
  r_enterprise_value : npfloat;
  r_equity_value : option npfloat;
  r_intrinsic_per_share : option npfloat;
  r_shares_outstanding : option Q;
  r_sensitivity : PivotTable
}.

(** The advisory exit-multiple branch: it only logs, but it reads the last
    element of [exit_metric] and divides two Python floats. *)
Definition exit_multiple_check (forecast_df : list ForecastRow) (wacc : Q)
  (exit_multiple : option Q) (exit_metric : option (list Q))
  : result (list log_record) :=
  match exit_multiple, exit_metric with
  | Some m, Some metric =>
      match rev metric with
      | [] => Raise IndexError
      | final_metric :: _ =>
          let tv_exit := final_metric * m in
          tv_exit_disc <-
            py_div tv_exit ((1 + wacc) ^ Z.of_nat (List.length forecast_df)) ;;
          Ok [ExitMultipleAlternative tv_exit_disc]
      end
  | _, _ => Ok []
  end.

Definition run_dcf (forecast_df : list ForecastRow) (val_inp : ValuationInputs)
  (equity_weight debt_weight terminal_growth : Q)
  (shares_outstanding exit_multiple : option Q)
  (exit_metric : option (list Q)) : result (DCFResult * list log_record) :=
  let wacc := compute_wacc val_inp equity_weight debt_weight in
  let pv_fcff := discount_cashflows forecast_df wacc in
  tv_gg <- terminal_gordon forecast_df wacc terminal_growth ;;
  let ev := np_add pv_fcff (Fin tv_gg) in
  log <- exit_multiple_check forecast_df wacc exit_multiple exit_metric ;;
  let eq_value :=
    match net_debt val_inp with
    | Some nd => Some (np_sub ev (Fin nd))
    | None => None
    end in
  let intrinsic_ps :=
    match eq_value, shares_outstanding with
    | Some eqv, Some s =>
        if Qltb 0 s then Some (np_lift2 Qdiv eqv (Fin s)) else None
    | _, _ => None
    end in
  sensitivity <- pivot (sens_rows forecast_df wacc terminal_growth) ;;
  Ok (mkDCFResult wacc pv_fcff tv_gg ev eq_value intrinsic_ps
        shares_outstanding sensitivity, log).

(** C1 as stated, for a forecast of the rows [front] followed by
    [last_row]: above the growth rate the discounted Gordon value is
    returned, at or below it the valuation error is raised. *)
Definition terminal_gordon_as_stated (front : list ForecastRow)
  (last_row : ForecastRow) (wacc g : Q) : Prop :=
  let forecast_df := (front ++ [last_row])%list in
  (g < wacc ->
   exists v,
     terminal_gordon forecast_df wacc g = Ok v /\
     v == fcff last_row * (1 + g) / (wacc - g) /
          (1 + wacc) ^ Z.of_nat (List.length forecast_df)) /\
  (wacc <= g ->
   terminal_gordon forecast_df wacc g =
   Raise (ValueError wacc_not_above_growth)).

(** A forecast of one year with a free cash flow of 100. *)
Definition one_year_forecast : list ForecastRow :=
  [mkRow 2024 1000 200 150 30 40 10 100].

(** The market inputs the dashboard starts with, net debt unknown. *)
Definition dashboard_inputs : ValuationInputs :=
  mkValuationInputs 0.04 0.05 1.10 0.05 0.25 None None.

(** Five forecast years from a revenue of 100 under [sample_base]. *)
Definition sample_forecast : list ForecastRow :=
  forecast_loop Assumptions.sample_base
    (map (fun i => (2023 + i)%Z) (py_range 1 6)) 100 [].

(** The result of valuing [sample_forecast] at the dashboard's inputs with
    a terminal growth of 2% and a thousand shares. *)
Definition sample_result : DCFResult :=
  Eval vm_compute in
    match run_dcf sample_forecast dashboard_inputs 0.7 0.3 0.02 (Some 1000)
            None None with
    | Ok (r, _) => r
    | Raise _ => mkDCFResult 0 NonFin 0 NonFin None None None (mkPivot [] [] [])
    end.

End DCF.

(** ** Statement tables *)

Module Frame.

(** A cell of a statement: a number, or missing (NaN). *)
Definition cell : Type := option Q.

Definition Series : Type := list cell.

(** A [pd.DataFrame] indexed by fiscal year: the index labels and the columns
    in their order, each column holding one cell per index label.  Index
    labels and column labels are taken to be unique, as the statements of
    the provider are. *)
Record DataFrame : Type := mkFrame {
  index : list Z;
  columns : list (string * Series)
}.

Definition column_names (df : DataFrame) : list string :=
  map fst (columns df).

(** [c in df.columns] *)
Definition has_column (c : string) (df : DataFrame) : bool :=
  existsb (String.eqb c) (column_names df).

(** [df.get(c)], and [df[c]] where the column is known to be there. *)
Fixpoint assoc (c : string) (cols : list (string * Series)) : option Series :=
  match cols with
  | [] => None
  | (c', s) :: cols' => if String.eqb c c' then Some s else assoc c cols'
  end.

Definition get (c : string) (df : DataFrame) : option Series :=
  assoc c (columns df).

(** [df.empty]: no rows or no columns. *)
Definition empty (df : DataFrame) : bool :=
  match index df, columns df with
  | [], _ => true
  | _, [] => true
  | _, _ => false
  end.

(** [df[c] = s]: an existing column is replaced in place, a new one is
    appended. *)
Fixpoint set_assoc (c : string) (s : Series) (cols : list (string * Series))
  : list (string * Series) :=
  match cols with
  | [] => [(c, s)]
  | (c', s') :: cols' =>
      if String.eqb c c' then (c, s) :: cols'
      else (c', s') :: set_assoc c s cols'
  end.

Definition set_column (c : string) (s : Series) (df : DataFrame) : DataFrame :=
  mkFrame (index df) (set_assoc c s (columns df)).

Fixpoint position (y : Z) (idx : list Z) : option nat :=
  match idx with
  | [] => None
  | y' :: idx' =>
      if Z.eqb y y' then Some O else option_map S (position y idx')
  end.

Fixpoint positions (ys idx : list Z) : result (list nat) :=
  match ys with
  | [] => Ok []
  | y :: ys' =>
      match position y idx with
      | None => Raise (KeyError "fiscal_year")
      | Some p => ps <- positions ys' idx ;; Ok (p :: ps)
      end
  end.

Definition take_rows (ps : list nat) (s : Series) : Series :=
  map (fun p => nth p s None) ps.

(** [df.loc[ys]]: the rows labelled [ys], in the order of [ys]; a label
    that is not in the index is a [KeyError]. *)
Definition loc (df : DataFrame) (ys : list Z) : result DataFrame :=
  ps <- positions ys (index df) ;;
  Ok (mkFrame ys (map (fun cs => (fst cs, take_rows ps (snd cs))) (columns df))).

Fixpoint insert_year (y : Z) (l : list Z) : list Z :=
  match l with
  | [] => [y]
  | z :: l' => if Z.leb y z then y :: l else z :: insert_year y l'
  end.

(** [sorted(idx)] *)
Definition sorted (idx : list Z) : list Z := fold_right insert_year [] idx.

(** Elementwise arithmetic of two series on the same index: missing when an
    operand is. *)
Definition cell_lift2 (f : Q -> Q -> Q) (a b : cell) : cell :=
  match a, b with
  | Some x, Some y => Some (f x y)
  | _, _ => None
  end.

Fixpoint series_lift2 (f : Q -> Q -> Q) (s t : Series) : Series :=
  match s, t with
  | a :: s', b :: t' => cell_lift2 f a b :: series_lift2 f s' t'
  | _, _ => []
  end.

Definition series_add : Series -> Series -> Series := series_lift2 Qplus.
Definition series_sub : Series -> Series -> Series := series_lift2 Qminus.

(** [s.abs()] *)
Definition series_abs (s : Series) : Series := map (option_map Qabs) s.

(** [s.diff()]: the first cell is missing, each other one is the cell minus
    the one before it. *)
Definition series_diff (s : Series) : Series :=
  match s with
  | [] => []
  | _ :: s' => None :: series_lift2 Qminus s' s
  end.

(** A frame without rows: every column is the empty series. *)
Definition no_rows (df : DataFrame) : Prop :=
  forall c s, get c df = Some s -> s = [].

End Frame.

(** ** metrics.py *)

Module Metrics.
Import Frame.

(** A float of a ratio series.  Statement cells are numbers or missing, so
    a ratio is a number, NaN (an operand is missing, or zero over zero), or
    an infinity (a non-zero number over zero; the zero divisor is taken as
    positive zero). *)
Inductive pfloat : Type :=
| NaN
| Num (q : Q)
| Inf (negative : bool).

Definition ratio (a b : cell) : pfloat :=
  match a, b with
  | Some x, Some y =>
      if Qeq_bool y 0 then
        if Qeq_bool x 0 then NaN else Inf (Qltb x 0)
      else Num (x / y)
  | _, _ => NaN
  end.

(** [s / t] on two series of the same index. *)
Fixpoint series_div (s t : Series) : list pfloat :=
  match s, t with
  | a :: s', b :: t' => ratio a b :: series_div s' t'
  | _, _ => []
  end.

Definition notna (x : pfloat) : bool :=
  match x with NaN => false | _ => true end.

(** [s.dropna()] on a ratio series, and on a statement column. *)
Definition dropna (s : list pfloat) : list pfloat := filter notna s.

Fixpoint dropna_cells (s : Series) : list Q :=
  match s with
  | [] => []
  | Some x :: s' => x :: dropna_cells s'
  | None :: s' => dropna_cells s'
  end.

Definition pf_leb (a b : pfloat) : bool :=
  match a, b with
  | Inf true, _ => true
  | _, Inf false => true
  | Num x, Num y => Qle_bool x y
  | _, _ => false
  end.

Fixpoint pf_insert (x : pfloat) (l : list pfloat) : list pfloat :=
  match l with
  | [] => [x]
  | y :: l' => if pf_leb x y then x :: l else y :: pf_insert x l'
  end.

Definition pf_sort (l : list pfloat) : list pfloat :=
  fold_right pf_insert [] l.

(** The mean of the two middle elements of an even sample. *)
Definition mean2 (a b : pfloat) : pfloat :=
  match a, b with
  | Num x, Num y => Num ((x + y) / 2)
  | Inf s, Inf s' => if Bool.eqb s s' then Inf s else NaN
  | Inf s, Num _ => Inf s
  | Num _, Inf s => Inf s
  | _, _ => NaN
  end.

(** [np.median] of a sample without NaN. *)
Definition np_median (l : list pfloat) : pfloat :=
  let s := pf_sort l in
  let n := List.length s in
  if Nat.even n then mean2 (nth (n / 2 - 1) s NaN) (nth (n / 2) s NaN)
  else nth (n / 2) s NaN.

Definition median_over_years (series : list pfloat) (min_years : nat)
  : option pfloat :=
  let s := dropna series in
  if (List.length s <? min_years)%nat then None else Some (np_median s).

(** The value is a real number: the root is irrational in general.  With
    both end points positive neither the division nor the power raises, so
    the [except] branch of the source is not reachable. *)
Definition compute_cagr (series : Series) : option R :=
  let s := dropna_cells series in
  if (List.length s <? 3)%nat then None
  else
    match s, rev s with
    | start :: _, end_ :: _ =>
        let n_periods := (List.length s - 1)%nat in
        if Qle_bool start 0 || Qle_bool end_ 0 then None
        else Some (Rpower (Q2R (end_ / start)) (1 / INR n_periods) - 1)%R
    | _, _ => None
    end.

Record HistoricalMetrics : Type := mkHistoricalMetrics {
  revenue_cagr : R;
  ebit_margin : pfloat;
  ebitda_margin : option pfloat;
  capex_pct_revenue : pfloat;
  da_pct_revenue : pfloat;
  d_nwc_pct_revenue : pfloat;
  lookback_years : nat
}.

Definition revenue_missing : string :=
  "Revenue missing; cannot compute historical metrics.".

(** [l[-n:]] *)
Definition last_n {A : Type} (n : nat) (l : list A) : list A :=
  match n with
  | O => l
  | _ => skipn (List.length l - n) l
  end.

(** The most recent [lookback] years of the income statement. *)
Definition lookback_window (inc : DataFrame) (lookback : nat) : list Z :=
  if (lookback <? List.length (index inc))%nat
  then last_n lookback (sorted (index inc))
  else sorted (index inc).

(** [df.loc[years] if not df.empty else pd.DataFrame(index=years)] *)
Definition window_of (df : DataFrame) (years : list Z) : result DataFrame :=
  if negb (empty df) then loc df years else Ok (mkFrame years []).

Definition or_zero (m : option pfloat) : pfloat :=
  match m with
  | Some x => x
  | None => Num 0.0
  end.

(** The three sources of the working-capital ratio, in the order of the
    [if]/[elif]/[else]; the second component is what is logged. *)
Definition d_nwc_pct_of (cf_lb bs_lb : DataFrame) (revenue : option Series)
  : option pfloat * list log_record :=
  match get "delta_nwc" cf_lb, revenue with
  | Some delta_nwc, Some rev_ =>
      (median_over_years (series_div delta_nwc rev_) 3, [])
  | _, _ =>
      match get "current_assets" bs_lb, get "current_liabilities" bs_lb,
            revenue with
      | Some ca, Some cl, Some rev_ =>
          let nwc := series_sub ca cl in
          let d_nwc := series_diff nwc in
          (median_over_years (series_div d_nwc rev_) 3, [])
      | _, _, _ => (Some (Num 0.0), [AssumeDeltaNwcZero])
      end
  end.

(** The body of [compute_historical_metrics] once the three statements are
    restricted to the window [years].  The columns the source reads without
    using them (pretax income, tax expense, net income, CFO) are left out. *)
Definition metrics_of_window (inc_lb cf_lb bs_lb : DataFrame)
  (years : list Z) : HistoricalMetrics * list log_record :=
  let revenue := get "revenue" inc_lb in
  let ebit := get "operating_income" inc_lb in
  let da := get "da" cf_lb in
  let capex := get "capex" cf_lb in
  let ebit_margin :=
    match ebit, revenue with
    | Some e, Some r => median_over_years (series_div e r) 3
    | _, _ => None
    end in
  let ebitda_margin :=
    match ebit, da, revenue with
    | Some e, Some d, Some r =>
        median_over_years (series_div (series_add e d) r) 3
    | _, _, _ => None
    end in
  let capex_pct :=
    match capex, revenue with
    | Some c, Some r => median_over_years (series_div c r) 3
    | _, _ => None
    end in
  let da_pct :=
    match da, revenue with
    | Some d, Some r => median_over_years (series_div d r) 3
    | _, _ => None
    end in
  let d_nwc := d_nwc_pct_of cf_lb bs_lb revenue in
  let rev_cagr :=
    match revenue with
    | Some r => compute_cagr r
    | None => None
    end in
  (mkHistoricalMetrics
     (match rev_cagr with Some c => c | None => 0%R end)
     (or_zero ebit_margin)
     ebitda_margin
     (or_zero capex_pct)
     (or_zero da_pct)
     (or_zero (fst d_nwc))
     (List.length years),
   snd d_nwc).

(** The parameter [min_years] is not passed on by the source: every median
    is taken with the default threshold 3 of [median_over_years]. *)
Definition compute_historical_metrics (inc cf bs : DataFrame)
  (lookback min_years : nat) : result (HistoricalMetrics * list log_record) :=
  if negb (has_column "revenue" inc) then Raise (ValueError revenue_missing)
  else
    let years := lookback_window inc lookback in
    inc_lb <- loc inc years ;;
    cf_lb <- window_of cf years ;;
    bs_lb <- window_of bs years ;;
    Ok (metrics_of_window inc_lb cf_lb bs_lb years).

(** *** What the claims say, in the terms of the model *)

(** The first and the last non-missing value of a column and the number of
    its non-missing values, read off the column itself. *)
Fixpoint first_valid (s : Series) : option Q :=
  match s with
  | [] => None
  | Some x :: _ => Some x
  | None :: s' => first_valid s'
  end.

Definition last_valid (s : Series) : option Q := first_valid (rev s).

Fixpoint count_valid (s : Series) : nat :=
  match s with
  | [] => O
  | Some _ :: s' => S (count_valid s')
  | None :: s' => count_valid s'
  end.

(** Equality of ratio floats up to the equality of rationals. *)
Definition pf_eq (a b : pfloat) : Prop :=
  match a, b with
  | NaN, NaN => True
  | Num x, Num y => x == y
  | Inf s, Inf s' => s = s'
  | _, _ => False
  end.

(** The metrics a run falls back to when nothing can be computed. *)
Definition default_metrics : HistoricalMetrics :=
  mkHistoricalMetrics 0%R (Num 0.0) None (Num 0.0) (Num 0.0) (Num 0.0) 0.

(** C3 as stated: an empty year index makes the computation raise. *)
Definition empty_index_raises (inc cf bs : DataFrame)
  (lookback min_years : nat) : Prop :=
  index inc = [] ->
  exists e, compute_historical_metrics inc cf bs lookback min_years = Raise e.

(** The order in which the working-capital ratio of a returned record is
    resolved, [metric_of] saying how the ratio series of the chosen source
    gives the metric. *)
Definition d_nwc_resolved_by (metric_of : list pfloat -> pfloat)
  (inc cf bs : DataFrame) (lookback min_years : nat) : Prop :=
  forall h log,
    compute_historical_metrics inc cf bs lookback min_years = Ok (h, log) ->
    exists inc_lb cf_lb bs_lb revenue,
      loc inc (lookback_window inc lookback) = Ok inc_lb /\
      window_of cf (lookback_window inc lookback) = Ok cf_lb /\
      window_of bs (lookback_window inc lookback) = Ok bs_lb /\
      get "revenue" inc_lb = Some revenue /\
      match get "delta_nwc" cf_lb with
      | Some delta_nwc =>
          pf_eq (d_nwc_pct_revenue h)
                (metric_of (series_div delta_nwc revenue))
      | None =>
          match get "current_assets" bs_lb,
                get "current_liabilities" bs_lb with
          | Some ca, Some cl =>
              pf_eq (d_nwc_pct_revenue h)
                    (metric_of
                       (series_div (series_diff (series_sub ca cl)) revenue))
          | _, _ =>
              pf_eq (d_nwc_pct_revenue h) (Num 0) /\
              log = [AssumeDeltaNwcZero]
          end
      end.

(** C4 as stated: the metric is the median of the defined ratios. *)
Definition median_of_ratios (ratios : list pfloat) : pfloat :=
  np_median (dropna ratios).

(** What the code takes: the median when at least three ratios are
    defined, else the default 0.0. *)
Definition median_or_default (ratios : list pfloat) : pfloat :=
  if (List.length (dropna ratios) <? 3)%nat then Num 0
  else np_median (dropna ratios).

(** An income statement with its columns but no year left after the
    alignment, and the empty cash-flow and balance statements. *)
Definition income_without_years : DataFrame :=
  mkFrame [] [("revenue"%string, []); ("operating_income"%string, [])].

Definition statement_without_years : DataFrame := mkFrame [] [].

(** Two aligned years with a change in working capital of 10% of revenue
    in each. *)
Definition two_year_income : DataFrame :=
  mkFrame [2022; 2023]%Z
    [("revenue"%string, [Some 100; Some 200]);
     ("operating_income"%string, [Some 20; Some 40])].

Definition two_year_cashflow : DataFrame :=
  mkFrame [2022; 2023]%Z
    [("capex"%string, [Some 5; Some 10]);
     ("delta_nwc"%string, [Some 10; Some 20])].

Definition two_year_balance : DataFrame :=
  mkFrame [2022; 2023]%Z
    [("current_assets"%string, [Some 50; Some 80]);
     ("current_liabilities"%string, [Some 30; Some 40])].

(** The revenue series of the specification's example. *)
Definition growing_revenue : Series :=
  [Some 100; Some 110; Some 121; Some 133.1].

End Metrics.

(** ** utils.py *)

Module Utils.
Import Frame.

Definition MANDATORY_INCOME : list string :=
  ["revenue"; "operating_income"; "pretax_income"; "tax_expense";
   "net_income"]%string.
Definition MANDATORY_CASHFLOW : list string := ["capex"; "da"; "cfo"]%string.
Definition MANDATORY_BALANCE : list string :=
  ["current_liabilities"; "cash"; "total_debt"]%string.

Definition mem_year (y : Z) (l : list Z) : bool := existsb (Z.eqb y) l.

(** [set(idx)]: each label once. *)
Fixpoint year_set (idx : list Z) : list Z :=
  match idx with
  | [] => []
  | y :: idx' => if mem_year y idx' then year_set idx' else y :: year_set idx'
  end.

Fixpoint map_result {A B : Type} (f : A -> result B) (l : list A)
  : result (list B) :=
  match l with
  | [] => Ok []
  | a :: l' => b <- f a ;; bs <- map_result f l' ;; Ok (b :: bs)
  end.

(** The years common to all frames, sorted; every frame restricted to
    them. *)
Definition common_years (dfs : list DataFrame) : list Z :=
  match dfs with
  | [] => []
  | d0 :: rest =>
      sorted (fold_left (fun years d =>
                           filter (fun y => mem_year y (index d)) years)
                        rest (year_set (index d0)))
  end.

Definition align_fiscal_years (dfs : list DataFrame)
  : result (list DataFrame) :=
  match dfs with
  | [] => Ok dfs
  | _ => map_result (fun df => loc df (common_years dfs)) dfs
  end.

(** What [validate_fields] logs: a warning when mandatory fields are
    missing, nothing otherwise. *)
Definition validate_fields (df : DataFrame) (required : list string)
  (statement_name : string) : list log_record :=
  match filter (fun c => negb (has_column c df)) required with
  | [] => []
  | missing => [MissingFields statement_name missing]
  end.

End Utils.

(** ** data_loader.py *)

Module Loader.
Import Frame Utils.

#[local] Open Scope string_scope.

Record RawStatements : Type := mkRaw {
  raw_income : DataFrame;
  raw_cashflow : DataFrame;
  raw_balance : DataFrame
}.

Record NormalizedStatements : Type := mkNormalized {
  income : DataFrame;
  cashflow : DataFrame;
  balance : DataFrame
}.

(** The columns a normalized statement can hold, as the fields of
    [NormalizedStatements] list them. *)
Definition INCOME_COLUMNS : list string :=
  ["revenue"; "operating_income"; "pretax_income"; "tax_expense";
   "net_income"].
Definition CASHFLOW_COLUMNS : list string :=
  ["capex"; "da"; "cfo"; "delta_nwc"].
Definition BALANCE_COLUMNS : list string :=
  ["current_assets"; "current_liabilities"; "cash"; "total_debt"].

Definition canonical_vocabulary : list string :=
  (INCOME_COLUMNS ++ CASHFLOW_COLUMNS ++ BALANCE_COLUMNS)%list.

(** [for raw, norm in label_map.items(): if raw in df.columns:
    normalized[norm] = df[raw]], from an empty frame on the index of [df]. *)
Definition map_labels (label_map : list (string * string)) (df : DataFrame)
  : DataFrame :=
  fold_left (fun normalized (rn : string * string) =>
               match get (fst rn) df with
               | Some s => set_column (snd rn) s normalized
               | None => normalized
               end)
            label_map (mkFrame (index df) []).

Definition income_label_map : list (string * string) :=
  [("Total Revenue", "revenue");
   ("Revenue", "revenue");
   ("Operating Income", "operating_income");
   ("EBIT", "operating_income");
   ("Ebit", "operating_income");
   ("Income Before Tax", "pretax_income");
   ("Income Tax Expense", "tax_expense");
   ("Provision for income taxes", "tax_expense");
   ("Net Income", "net_income");
   ("Net Income Common Stockholders", "net_income")].

Definition normalize_income (inc : DataFrame) : DataFrame * list log_record :=
  let normalized := map_labels income_label_map inc in
  (normalized, validate_fields normalized MANDATORY_INCOME "Income Statement").

Definition cashflow_label_map : list (string * string) :=
  [("Capital Expenditure", "capex");
   ("Capital Expenditures", "capex");
   ("CapitalExpenditure", "capex");
   ("Depreciation", "da");
   ("Depreciation And Amortization", "da");
   ("Reconciled Depreciation", "da");
   ("Operating Cash Flow", "cfo");
   ("Total Cash From Operating Activities", "cfo");
   ("Change In Working Capital", "delta_nwc");
   ("ChangeInWorkingCapital", "delta_nwc")].

(** [pd.DataFrame(index=pd.Index([], name="fiscal_year"))] *)
Definition empty_statement : DataFrame := mkFrame [] [].

Definition normalize_cashflow (cf : option DataFrame)
  : DataFrame * list log_record :=
  match cf with
  | None => (empty_statement, [])
  | Some cf =>
      if empty cf then (empty_statement, [])
      else
        let normalized := map_labels cashflow_label_map cf in
        let normalized :=
          match get "capex" normalized with
          | Some capex => set_column "capex" (series_abs capex) normalized
          | None => normalized
          end in
        (normalized,
         validate_fields normalized MANDATORY_CASHFLOW "Cash Flow Statement")
  end.

(** [for label in labels: if label in bs.columns: normalized[norm] =
    bs[label]; break] *)
Fixpoint first_present (labels : list string) (norm : string)
  (bs normalized : DataFrame) : DataFrame :=
  match labels with
  | [] => normalized
  | label :: labels' =>
      match get label bs with
      | Some s => set_column norm s normalized
      | None => first_present labels' norm bs normalized
      end
  end.

(** [sum(debt_parts)]: the built-in sum starts from the integer 0. *)
Definition sum_series (parts : list Series) : option Series :=
  match parts with
  | [] => None
  | p :: parts' =>
      Some (fold_left series_add parts' (map (option_map (Qplus 0)) p))
  end.

Definition option_list {A : Type} (o : option A) : list A :=
  match o with
  | Some a => [a]
  | None => []
  end.

Definition normalize_balance (bs : option DataFrame)
  : DataFrame * list log_record :=
  match bs with
  | None => (empty_statement, [])
  | Some bs =>
      if empty bs then (empty_statement, [])
      else
        let normalized := mkFrame (index bs) [] in
        let normalized :=
          first_present
            ["Total Current Assets"; "Current Assets"; "CurrentAssets"]
            "current_assets" bs normalized in
        let normalized :=
          first_present
            ["Total Current Liabilities"; "Current Liabilities";
             "CurrentLiabilities";
             "Current Liabilities Net Minority Interest"]
            "current_liabilities" bs normalized in
        let normalized :=
          first_present ["Cash And Cash Equivalents"; "Cash"]
            "cash" bs normalized in
        let normalized :=
          match get "Total Debt" bs with
          | Some s => set_column "total_debt" s normalized
          | None =>
              let debt_parts :=
                (option_list (get "Short Long Term Debt" bs) ++
                 option_list (get "Long Term Debt" bs))%list in
              match sum_series debt_parts with
              | Some s => set_column "total_debt" s normalized
              | None => normalized
              end
          end in
        (normalized,
         validate_fields normalized MANDATORY_BALANCE "Balance Sheet")
  end.

(** [DataLoader.load] after the fetch. *)
Definition load (raw : RawStatements)
  : result (NormalizedStatements * list log_record) :=
  let '(inc_n, log1) := normalize_income (raw_income raw) in
  let '(cf_n, log2) := normalize_cashflow (Some (raw_cashflow raw)) in
  let '(bs_n, log3) := normalize_balance (Some (raw_balance raw)) in
  aligned <- align_fiscal_years [inc_n; cf_n; bs_n] ;;
  match aligned with
  | [inc_a; cf_a; bs_a] =>
      Ok (mkNormalized inc_a cf_a bs_a, (log1 ++ log2 ++ log3)%list)
  | _ => Raise (ValueError "not enough values to unpack")
  end.
(* [align_fiscal_years] returns one frame per frame given, so the unpacking
   of the three frames does not fail. *)

(** The source labels each balance-sheet column can come from. *)
Definition balance_sources (c : string) : list string :=
  if String.eqb c "current_assets" then
    ["Total Current Assets"; "Current Assets"; "CurrentAssets"]
  else if String.eqb c "current_liabilities" then
    ["Total Current Liabilities"; "Current Liabilities"; "CurrentLiabilities";
     "Current Liabilities Net Minority Interest"]
  else if String.eqb c "cash" then ["Cash And Cash Equivalents"; "Cash"]
  else if String.eqb c "total_debt" then
    ["Total Debt"; "Short Long Term Debt"; "Long Term Debt"]
  else [].

(** Raw statements whose fiscal years do not meet: income and balance
    sheet for 2022-2023, cash flow for 2019-2020. *)
Definition misaligned_raw : RawStatements :=
  mkRaw
    (mkFrame [2022; 2023]%Z
       [("Total Revenue", [Some 100; Some 110]);
        ("Operating Income", [Some 20; Some 22])])
    (mkFrame [2019; 2020]%Z
       [("Capital Expenditure", [Some (-5); Some (-6)]);
        ("Change In Working Capital", [Some 1; Some 2])])
    (mkFrame [2022; 2023]%Z
       [("Cash", [Some 10; Some 12]); ("Total Debt", [Some 30; Some 28])]).

End Loader.

(** ** Closed forms the properties compare the code with *)

Module Reference.

(** The sum of the cash flows [fcffs], the first discounted [t] periods, the
    next [t + 1], and so on. *)
Fixpoint discounted_sum (t : Z) (fcffs : list Q) (wacc : Q) : Q :=
  match fcffs with
  | [] => 0
  | f :: fcffs' => f / (1 + wacc) ^ t + discounted_sum (t + 1) fcffs' wacc
  end.

End Reference.

Module ValuationReference.
Import Forecast DCF.

(** The dashboard's inputs for a company with a net debt of 200. *)
Definition indebted_inputs : ValuationInputs :=
  mkValuationInputs 0.04 0.05 1.10 0.05 0.25 None (Some 200).

(** [sample_forecast] valued for that company with a thousand shares, and
    with a share count of zero. *)
Definition indebted_result : DCFResult :=
  Eval vm_compute in
    match run_dcf sample_forecast indebted_inputs 0.7 0.3 0.02 (Some 1000)
            None None with
    | Ok (r, _) => r
    | Raise _ => mkDCFResult 0 NonFin 0 NonFin None None None (mkPivot [] [] [])
    end.

Definition unlisted_result : DCFResult :=
  Eval vm_compute in
    match run_dcf sample_forecast indebted_inputs 0.7 0.3 0.02 (Some 0)
            None None with
    | Ok (r, _) => r
    | Raise _ => mkDCFResult 0 NonFin 0 NonFin None None None (mkPivot [] [] [])
    end.

End ValuationReference.

Module ForecastReference.
Import Assumptions.

(** The free cash flow per unit of revenue on the EBIT-margin path. *)
Definition fcff_margin (a : Assumptions) : Q :=
  ebit_margin a * (1 - tax_rate a) + da_pct_revenue a
  - capex_pct_revenue a - d_nwc_pct_revenue a.

(** The EBIT-margin path is taken: the flag is off or no EBITDA margin is
    defined. *)
Definition ebit_mode (a : Assumptions) : Prop :=
  use_ebitda_margin a = false \/ ebitda_margin a = None.

(** The EBITDA path is taken: the flag is set and a margin is defined. *)
Definition ebitda_mode (a : Assumptions) : Prop :=
  use_ebitda_margin a = true /\ exists m, ebitda_margin a = Some m.

(** [dataclasses.replace(a, ebit_margin=m)] and
    [dataclasses.replace(a, ebitda_margin=m)]. *)
Definition with_ebit_margin (a : Assumptions) (m : Q) : Assumptions :=
  mkAssumptions (years a) (revenue_growth a) m (tax_rate a)
    (da_pct_revenue a) (capex_pct_revenue a) (d_nwc_pct_revenue a)
    (terminal_growth a) (use_ebitda_margin a) (ebitda_margin a).

Definition with_ebitda_margin (a : Assumptions) (m : option Q)
  : Assumptions :=
  mkAssumptions (years a) (revenue_growth a) (ebit_margin a) (tax_rate a)
    (da_pct_revenue a) (capex_pct_revenue a) (d_nwc_pct_revenue a)
    (terminal_growth a) (use_ebitda_margin a) m.

End ForecastReference.

Module MetricsReference.
Import Frame Metrics.

(** A statement can be restricted to the window: it is empty (and is then
    replaced by a frame without columns), or its index holds every year of
    the window. *)
Definition covers_window (df : DataFrame) (w : list Z) : Prop :=
  empty df = true \/ forall y, In y w -> In y (index df).

(** The number of years the window holds for a look-back of [lookback]
    years on [n] years of history. *)
Definition window_years (lookback n : nat) : nat :=
  if (lookback =? 0)%nat then n else Nat.min lookback n.

(** A cash-flow statement of other years than [two_year_income]. *)
Definition other_years_cashflow : DataFrame :=
  mkFrame [2019; 2020]%Z [("capex"%string, [Some 5; Some 6])].

(** Four years of income with the revenue of the specification's
    example. *)
Definition growing_income : DataFrame :=
  mkFrame [2020; 2021; 2022; 2023]%Z [("revenue"%string, growing_revenue)].

(** A ratio that is a number between [lo] and [hi]. *)
Definition within (lo hi : Q) (x : pfloat) : Prop :=
  match x with
  | Num q => lo <= q /\ q <= hi
  | _ => False
  end.

End MetricsReference.

Module UtilsReference.
Import Frame.

(** [df'] is [df] restricted to the years [ys]: the index is [ys], the
    columns are those of [df] in their order, and the cell of a column at a
    year of [ys] is the cell [df] holds in the row of that year. *)
Definition restricted_to (ys : list Z) (df df' : DataFrame) : Prop :=
  index df' = ys /\
  column_names df' = column_names df /\
  forall c s, get c df = Some s ->
    exists s', get c df' = Some s' /\
               List.length s' = List.length ys /\
               forall k y, nth_error ys k = Some y ->
                 exists p, position y (index df) = Some p /\
                           nth k s' None = nth p s None.

End UtilsReference.

Module LoaderReference.
Import Frame Loader.

(** The raw column a label map gives the name [c]: that of the last entry
    of the map, in its order, that names [c] and whose label the statement
    holds. *)
Fixpoint last_source (label_map : list (string * string)) (c : string)
  (df : DataFrame) : option Series :=
  match label_map with
  | [] => None
  | (raw, norm) :: rest =>
      match last_source rest c df with
      | Some s => Some s
      | None => if String.eqb c norm then get raw df else None
      end
  end.

(** The raw column of the first label of [labels] the statement holds. *)
Fixpoint first_source (labels : list string) (df : DataFrame)
  : option Series :=
  match labels with
  | [] => None
  | l :: labels' =>
      match get l df with
      | Some s => Some s
      | None => first_source labels' df
      end
  end.

(** Two columns that hold the same numbers, missing in the same rows. *)
Definition cell_eq (a b : cell) : Prop :=
  match a, b with
  | Some x, Some y => x == y
  | None, None => True
  | _, _ => False
  end.

Definition series_eq (s t : Series) : Prop := Forall2 cell_eq s t.

(** A raw income statement that holds both revenue labels. *)
Definition two_revenue_labels : DataFrame :=
  mkFrame [2022; 2023]%Z
    [("Revenue"%string, [Some 90; Some 95]);
     ("Total Revenue"%string, [Some 100; Some 110])].

(** A raw cash-flow statement with two CapEx labels, negative as the
    provider reports them. *)
Definition two_capex_labels : DataFrame :=
  mkFrame [2022; 2023]%Z
    [("CapitalExpenditure"%string, [Some (-7); None]);
     ("Capital Expenditure"%string, [Some (-5); Some (-6)])].

(** A raw balance sheet without a total-debt line. *)
Definition debt_in_parts : DataFrame :=
  mkFrame [2022; 2023]%Z
    [("Current Assets"%string, [Some 50; Some 60]);
     ("Total Current Assets"%string, [Some 55; Some 66]);
     ("Short Long Term Debt"%string, [Some 3; None]);
     ("Long Term Debt"%string, [Some 20; Some 25])].

(** A raw income statement with a source label for every mandatory
    field. *)
Definition complete_income : DataFrame :=
  mkFrame [2023]%Z
    [("Revenue"%string, [Some 100]);
     ("EBIT"%string, [Some 20]);
     ("Income Before Tax"%string, [Some 18]);
     ("Income Tax Expense"%string, [Some 4]);
     ("Net Income"%string, [Some 14])].

(** Raw statements of a company without a cash-flow statement: the fetch
    passes on an empty frame. *)
Definition missing_cashflow_raw : RawStatements :=
  mkRaw
    (mkFrame [2022; 2023]%Z
       [("Total Revenue"%string, [Some 100; Some 110])])
    (mkFrame [] [])
    (mkFrame [2022; 2023]%Z [("Cash"%string, [Some 10; Some 12])]).

End LoaderReference.

(** * Properties *)

(** ** The error monad, and Python's [max] and [min] against the rational
    ones *)

Lemma bind_ok_inv {A B : Type} (c : result A) (k : A -> result B) (b : B) :
  bind c k = Ok b -> exists a, c = Ok a /\ k a = Ok b.
Proof.
  destruct c as [a|e]; [|discriminate]. intro H. now exists a.
Qed.

Lemma Ok_inj {A : Type} (a b : A) : Ok a = Ok b -> a = b.
Proof. now intros [= ->]. Qed.

Lemma Qltb_lt (a b : Q) : Qltb a b = true <-> a < b.
Proof.
  unfold Qltb. rewrite negb_true_iff.
  destruct (Qle_bool b a) eqn:E.
  - apply Qle_bool_iff in E. split; [discriminate | intro H; exfalso; lra].
  - split; [intros _ | reflexivity].
    apply Qnot_le_lt. intro H. apply Qle_bool_iff in H. congruence.
Qed.

Lemma Qltb_ge (a b : Q) : Qltb a b = false <-> b <= a.
Proof.
  destruct (Qltb a b) eqn:E.
  - apply Qltb_lt in E. split; [discriminate | intro H; exfalso; lra].
  - split; [intros _ | reflexivity].
    apply Qnot_lt_le. intro H. apply Qltb_lt in H. congruence.
Qed.

Lemma py_max_Qmax (a b c : Q) : b == c -> py_max a b == Qmax a c.
Proof.
  intro Hbc. unfold py_max.
  destruct (Qltb a b) eqn:E; [apply Qltb_lt in E | apply Qltb_ge in E].
  - rewrite Q.max_r by lra. exact Hbc.
  - rewrite Q.max_l by lra. reflexivity.
Qed.

Lemma py_min_Qmin (a b c : Q) : b == c -> py_min a b == Qmin a c.
Proof.
  intro Hbc. unfold py_min.
  destruct (Qltb b a) eqn:E; [apply Qltb_lt in E | apply Qltb_ge in E].
  - rewrite Q.min_r by lra. exact Hbc.
  - rewrite Q.min_l by lra. reflexivity.
Qed.

Lemma py_max_lower (a b : Q) : b <= py_max a b.
Proof.
  unfold py_max.
  destruct (Qltb a b) eqn:E; [lra | apply Qltb_ge in E; exact E].
Qed.

(** ** assumptions.py: the scenario presets *)

Section ScenarioPresets.
Import Assumptions.

(** C5, as stated, fails: with a working-capital ratio of 1% in Base, a
    shift of 0.5pp would give 0.5% in Bull; [scenario_presets] gives 0.7%. *)
Lemma scenario_presets_half_point_dnwc_fails :
  ~ presets_derived_by 0.005 sample_base.
Proof.
  intros (bull & bear & _ & Hbull & _ & Hshift).
  cbn in Hbull. injection Hbull as <-.
  destruct Hshift as [(_ & _ & _ & _ & Hd & _) _].
  revert Hd. vm_compute. discriminate.
Qed.

(** C5, amended: Bull adds 3pp to revenue growth, 3pp to EBIT margin capped
    at 40%, takes 0.5pp off D&A% and CapEx% and 0.3pp off the
    working-capital ratio, each floored at 0, adds 0.5pp to terminal growth
    and 2pp to a defined EBITDA margin; Bear mirrors the shifts (0.3pp for
    the working-capital ratio) with revenue growth floored at -10%, EBIT
    margin and terminal growth floored at 0; tax rate and horizon are those
    of Base in both. *)
Theorem scenario_presets_shifts (base : Assumptions) :
  presets_derived_by 0.003 base.
Proof.
  exists (bull_of base), (bear_of base).
  repeat split; cbn [bull_of bear_of revenue_growth ebit_margin
    da_pct_revenue capex_pct_revenue d_nwc_pct_revenue terminal_growth
    ebitda_margin tax_rate years];
    try reflexivity;
    try (apply py_max_Qmax; reflexivity);
    try (apply py_min_Qmin; reflexivity);
    destruct (Assumptions.ebitda_margin base); cbn; try reflexivity; exact I.
Qed.

End ScenarioPresets.

(** ** forecast.py: the forecast rows *)

Section ForecastRows.
Import Assumptions Forecast.

Variable a : Assumptions.

Lemma forecast_loop_acc (ys : list Z) (rev0 : Q) (rows : list ForecastRow) :
  forecast_loop a ys rev0 rows = rows ++ forecast_loop a ys rev0 [].
Proof.
  revert rev0 rows.
  induction ys as [|y ys IH]; intros rev0 rows; cbn.
  - now rewrite app_nil_r.
  - rewrite IH, (IH _ [_]). now rewrite <- app_assoc.
Qed.

Lemma forecast_loop_cons (y : Z) (ys : list Z) (rev0 : Q) :
  forecast_loop a (y :: ys) rev0 [] =
  forecast_row a y (rev0 * (1 + revenue_growth a)) ::
  forecast_loop a ys (rev0 * (1 + revenue_growth a)) [].
Proof. cbn. now rewrite forecast_loop_acc. Qed.

Lemma forecast_loop_length (ys : list Z) (rev0 : Q) :
  List.length (forecast_loop a ys rev0 []) = List.length ys.
Proof.
  revert rev0. induction ys as [|y ys IH]; intro rev0; [reflexivity|].
  rewrite forecast_loop_cons. cbn. now rewrite IH.
Qed.

Lemma forecast_row_year (y : Z) (rv : Q) : year (forecast_row a y rv) = y.
Proof.
  unfold forecast_row.
  destruct (use_ebitda_margin a), (ebitda_margin a); reflexivity.
Qed.

Lemma forecast_row_revenue (y : Z) (rv : Q) :
  revenue (forecast_row a y rv) = rv.
Proof.
  unfold forecast_row.
  destruct (use_ebitda_margin a), (ebitda_margin a); reflexivity.
Qed.

Lemma Qpower_succ_nat (x : Q) (k : nat) :
  x ^ Z.of_nat (S k) == x ^ Z.of_nat k * x.
Proof.
  rewrite Nat2Z.inj_succ. unfold Z.succ.
  rewrite Qpower_plus' by lia. now rewrite Qpower_1_r.
Qed.

(** The row at position [k] carries the [k]-th year and the start revenue
    grown [k + 1] times. *)
Lemma forecast_loop_nth (ys : list Z) (rev0 : Q) (k : nat) (y : Z) :
  nth_error ys k = Some y ->
  exists r,
    nth_error (forecast_loop a ys rev0 []) k = Some r /\
    year r = y /\
    revenue r == rev0 * (1 + revenue_growth a) ^ Z.of_nat (S k).
Proof.
  revert rev0 k.
  induction ys as [|y0 ys IH]; intros rev0 k Hk.
  - destruct k; discriminate.
  - rewrite forecast_loop_cons. destruct k as [|k].
    + injection Hk as <-. eexists. split; [reflexivity|].
      rewrite forecast_row_year, forecast_row_revenue.
      split; [reflexivity|]. now rewrite Qpower_1_r.
    + destruct (IH (rev0 * (1 + revenue_growth a)) k Hk) as (r & Hr & Hy & Hv).
      exists r. split; [exact Hr|]. split; [exact Hy|].
      rewrite Hv, (Qpower_succ_nat _ (S k)). ring.
Qed.

Lemma forecast_loop_rows (ys : list Z) (rev0 : Q) (r : ForecastRow) :
  In r (forecast_loop a ys rev0 []) ->
  exists y rv, r = forecast_row a y rv.
Proof.
  revert rev0. induction ys as [|y ys IH]; intros rev0 Hin.
  - destruct Hin.
  - rewrite forecast_loop_cons in Hin. destruct Hin as [<-|Hin].
    + now eexists _, _.
    + exact (IH _ Hin).
Qed.

Lemma build_forecast_rows (Y : Z) (R0 : Q) (rows : list ForecastRow) :
  build_forecast Y R0 a = Ok rows ->
  rows = forecast_loop a (map (fun i => (Y + i)%Z) (py_range 1 (years a + 1)))
           R0 [].
Proof.
  unfold build_forecast.
  destruct (forecast_loop a _ R0 []); [discriminate|].
  now intros [= <-].
Qed.

Lemma py_range_length (lo hi : Z) :
  List.length (py_range lo hi) = Z.to_nat (hi - lo).
Proof. unfold py_range. now rewrite length_map, length_seq. Qed.

Lemma py_range_nth (lo hi : Z) (k : nat) :
  (k < Z.to_nat (hi - lo))%nat ->
  nth_error (py_range lo hi) k = Some (lo + Z.of_nat k)%Z.
Proof.
  intro Hk. unfold py_range.
  rewrite nth_error_map, nth_error_seq.
  destruct (Nat.ltb_spec k (Z.to_nat (hi - lo))); [reflexivity | lia].
Qed.

End ForecastRows.

Section ForecastClaims.
Import Assumptions Forecast.

(** C2: for a horizon N >= 1, [build_forecast] returns exactly N rows; the
    i-th row (i = 1..N) is keyed by the year Y + i and its revenue is
    R * (1 + g)^i, each row's revenue being that of the row before it grown
    once more. *)
Theorem build_forecast_compounds (Y : Z) (R0 : Q) (a : Assumptions) :
  (1 <= years a)%Z ->
  exists rows,
    build_forecast Y R0 a = Ok rows /\
    List.length rows = Z.to_nat (years a) /\
    (forall i, (1 <= i <= years a)%Z ->
       exists r,
         nth_error rows (Z.to_nat (i - 1)) = Some r /\
         year r = (Y + i)%Z /\
         revenue r == R0 * (1 + revenue_growth a) ^ i) /\
    (forall k r r',
       nth_error rows k = Some r -> nth_error rows (S k) = Some r' ->
       revenue r' == revenue r * (1 + revenue_growth a)).
Proof.
  intro HN.
  set (ys := map (fun i => (Y + i)%Z) (py_range 1 (years a + 1))).
  assert (Hlen : List.length ys = Z.to_nat (years a)).
  { unfold ys. rewrite length_map, py_range_length. f_equal. lia. }
  assert (Hys : forall k, (k < Z.to_nat (years a))%nat ->
                          nth_error ys k = Some (Y + (1 + Z.of_nat k))%Z).
  { intros k Hk. unfold ys. rewrite nth_error_map, py_range_nth; [reflexivity|].
    replace (years a + 1 - 1)%Z with (years a) by lia. exact Hk. }
  exists (forecast_loop a ys R0 []).
  assert (Hl : List.length (forecast_loop a ys R0 []) = Z.to_nat (years a)).
  { now rewrite forecast_loop_length. }
  split; [|split; [exact Hl|split]].
  - unfold build_forecast. fold ys.
    destruct (forecast_loop a ys R0 []) eqn:E; [|reflexivity].
    cbn in Hl. lia.
  - intros i Hi.
    destruct (forecast_loop_nth a ys R0 (Z.to_nat (i - 1)) (Y + i)%Z)
      as (r & Hr & Hy & Hv).
    { rewrite Hys by lia. do 2 f_equal. lia. }
    exists r. split; [exact Hr|]. split; [exact Hy|].
    rewrite Hv. replace (Z.of_nat (S (Z.to_nat (i - 1)))) with i by lia.
    reflexivity.
  - intros k r r' Hr Hr'.
    assert (Hk : (S k < Z.to_nat (years a))%nat).
    { rewrite <- Hl. apply nth_error_Some. congruence. }
    destruct (forecast_loop_nth a ys R0 k _ (Hys k ltac:(lia)))
      as (r1 & Hr1 & _ & Hv1).
    destruct (forecast_loop_nth a ys R0 (S k) _ (Hys (S k) Hk))
      as (r2 & Hr2 & _ & Hv2).
    rewrite Hr in Hr1. rewrite Hr' in Hr2.
    injection Hr1 as <-. injection Hr2 as <-.
    rewrite Hv2, Hv1, (Qpower_succ_nat _ (S k)). ring.
Qed.

Lemma build_forecast_compounds_witness :
  exists rows,
    build_forecast 2023 100 sample_base = Ok rows /\
    List.length rows = 5%nat.
Proof.
  destruct (build_forecast_compounds 2023 100 sample_base)
    as (rows & Hb & Hl & _).
  - cbn. lia.
  - exists rows. split; [exact Hb | exact Hl].
Defined.

(** C9, as stated, fails: on the EBIT-margin path a negative margin gives a
    negative EBIT (margin -10% on a revenue of 100 gives -10). *)
Lemma build_forecast_ebit_can_be_negative :
  ~ ebit_never_negative 2023 100 loss_making.
Proof.
  intro H.
  specialize (H _ (forecast_row loss_making 2024 100) eq_refl).
  assert (Hneg : ebit (forecast_row loss_making 2024 100) < 0)
    by (vm_compute; reflexivity).
  apply (Qlt_not_le _ _ Hneg), H.
  vm_compute. left. reflexivity.
Qed.

(** C9, amended: when EBITDA mode is active (the flag is set and an EBITDA
    margin is defined) the EBIT of every row is EBITDA minus D&A floored at
    0, hence non-negative; otherwise it is the EBIT margin times the
    revenue of the row, with no floor. *)
Theorem build_forecast_ebit (Y : Z) (R0 : Q) (a : Assumptions)
  (rows : list ForecastRow) (r : ForecastRow) :
  build_forecast Y R0 a = Ok rows ->
  In r rows ->
  match use_ebitda_margin a, ebitda_margin a with
  | true, Some m =>
      ebit r == Qmax (m * revenue r - da r) 0 /\
      da r = da_pct_revenue a * revenue r /\
      0 <= ebit r
  | _, _ => ebit r = ebit_margin a * revenue r
  end.
Proof.
  intros Hb Hin. apply build_forecast_rows in Hb. subst rows.
  apply forecast_loop_rows in Hin. destruct Hin as (y & rv & ->).
  unfold forecast_row.
  destruct (use_ebitda_margin a), (ebitda_margin a) as [m|]; cbn;
    try reflexivity.
  split; [apply py_max_Qmax; reflexivity|].
  split; [reflexivity|].
  eapply Qle_trans; [|apply py_max_lower]. discriminate.
Qed.

Lemma build_forecast_ebit_witness :
  exists rows r,
    build_forecast 2023 100 ebitda_case = Ok rows /\ In r rows /\
    0 <= ebit r.
Proof.
  exists (forecast_loop ebitda_case
            (map (fun i => (2023 + i)%Z) (py_range 1 6)) 100 []).
  exists (forecast_row ebitda_case 2024 (100 * (1 + 0.1))).
  assert (Hb : build_forecast 2023 100 ebitda_case =
               Ok (forecast_loop ebitda_case
                     (map (fun i => (2023 + i)%Z) (py_range 1 6)) 100 []))
    by reflexivity.
  assert (Hin : In (forecast_row ebitda_case 2024 (100 * (1 + 0.1)))
                   (forecast_loop ebitda_case
                      (map (fun i => (2023 + i)%Z) (py_range 1 6)) 100 []))
    by (left; reflexivity).
  split; [exact Hb|]. split; [exact Hin|].
  exact (proj2 (proj2 (build_forecast_ebit 2023 100 ebitda_case _ _ Hb Hin))).
Defined.

End ForecastClaims.

(** ** dcf.py: the terminal value *)

Section TerminalValue.
Import Forecast DCF.

Lemma py_div_ok (x y : Q) : ~ y == 0 -> py_div x y = Ok (x / y).
Proof.
  intro Hy. unfold py_div.
  destruct (Qeq_bool y 0) eqn:E; [|reflexivity].
  apply Qeq_bool_iff in E. contradiction.
Qed.

Lemma py_div_zero (x y : Q) : y == 0 -> py_div x y = Raise ZeroDivisionError.
Proof.
  intro Hy. unfold py_div. apply Qeq_bool_iff in Hy. now rewrite Hy.
Qed.

Lemma py_div_inv (x y v : Q) : py_div x y = Ok v -> ~ y == 0 /\ v = x / y.
Proof.
  unfold py_div. destruct (Qeq_bool y 0) eqn:E; [discriminate|].
  intros [= <-]. split; [now apply Qeq_bool_neq | reflexivity].
Qed.

Lemma fcff_iloc_last_snoc (front : list ForecastRow) (r : ForecastRow) :
  fcff_iloc_last (front ++ [r]) = Ok (fcff r).
Proof. unfold fcff_iloc_last. now rewrite rev_unit. Qed.

Lemma Qle_bool_false (a b : Q) : Qle_bool a b = false <-> b < a.
Proof.
  destruct (Qle_bool a b) eqn:E.
  - apply Qle_bool_iff in E. split; [discriminate | intro; exfalso; lra].
  - split; [intros _ | reflexivity].
    apply Qnot_le_lt. intro H. apply Qle_bool_iff in H. congruence.
Qed.

Lemma Qpower_zero_base (n : nat) : (0 < n)%nat -> 0 ^ Z.of_nat n == 0.
Proof.
  intro Hn. destruct n as [|n]; [lia|].
  rewrite Qpower_succ_nat. ring.
Qed.

(** C1, as stated, fails: at a WACC of -100% (above a growth rate of
    -200%) the discount factor is zero and the division raises. *)
Lemma terminal_gordon_zero_discount_factor :
  ~ terminal_gordon_as_stated [] (mkRow 2024 1000 200 150 30 40 10 100)
      (-1) (-2).
Proof.
  intros [H _]. destruct H as (v & Hv & _); [reflexivity|].
  vm_compute in Hv. discriminate.
Qed.

(** Above the growth rate and away from a WACC of -100% both divisions
    have a non-zero divisor and the discounted Gordon value is returned. *)
Lemma terminal_gordon_above_growth (front : list ForecastRow)
  (last_row : ForecastRow) (wacc g : Q) :
  g < wacc -> ~ wacc == -1 ->
  terminal_gordon (front ++ [last_row]) wacc g =
  Ok (fcff last_row * (1 + g) / (wacc - g) /
      (1 + wacc) ^ Z.of_nat (List.length (front ++ [last_row]))).
Proof.
  intros Hg Hw. unfold terminal_gordon.
  rewrite fcff_iloc_last_snoc, (proj2 (Qle_bool_false wacc g) Hg).
  cbn [bind].
  rewrite py_div_ok by lra. cbn [bind].
  apply py_div_ok, Qpower_not_0. lra.
Qed.

(** C1, amended: for a forecast with at least one row and last-year FCFF F,
    if WACC w > g and w <> -1 then [terminal_gordon] returns
    F * (1 + g) / (w - g) divided by (1 + w)^N, N the number of rows; if
    w > g and w = -1 the final division raises ZeroDivisionError; if
    w <= g the valuation error is raised and no value is returned. *)
Theorem terminal_gordon_spec (front : list ForecastRow) (last_row : ForecastRow)
  (wacc g : Q) :
  let forecast_df := front ++ [last_row] in
  let N := Z.of_nat (List.length forecast_df) in
  (g < wacc -> ~ wacc == -1 ->
   exists v,
     terminal_gordon forecast_df wacc g = Ok v /\
     v == fcff last_row * (1 + g) / (wacc - g) / (1 + wacc) ^ N) /\
  (g < wacc -> wacc == -1 ->
   terminal_gordon forecast_df wacc g = Raise ZeroDivisionError) /\
  (wacc <= g ->
   terminal_gordon forecast_df wacc g =
   Raise (ValueError wacc_not_above_growth)).
Proof.
  intros forecast_df N. split; [|split].
  - intros Hg Hw. eexists. split; [|reflexivity].
    now apply terminal_gordon_above_growth.
  - intros Hg Hw. unfold terminal_gordon, forecast_df.
    rewrite fcff_iloc_last_snoc, (proj2 (Qle_bool_false wacc g) Hg).
    cbn [bind].
    rewrite py_div_ok by lra. cbn [bind].
    apply py_div_zero.
    assert (H0 : 1 + wacc == 0) by lra. rewrite H0.
    apply Qpower_zero_base. rewrite length_app. cbn. lia.
  - intro Hle. unfold terminal_gordon.
    apply Qle_bool_iff in Hle. now rewrite Hle.
Qed.

Lemma terminal_gordon_spec_witness :
  (exists v,
     terminal_gordon one_year_forecast 0.09 0.02 = Ok v /\
     v == 100 * (1 + 0.02) / (0.09 - 0.02) / (1 + 0.09) ^ 1) /\
  terminal_gordon one_year_forecast (-1) (-2) = Raise ZeroDivisionError /\
  terminal_gordon one_year_forecast 0.02 0.02 =
  Raise (ValueError wacc_not_above_growth).
Proof.
  split; [|split].
  - apply (proj1 (terminal_gordon_spec []
                    (mkRow 2024 1000 200 150 30 40 10 100) 0.09 0.02));
      [reflexivity | discriminate].
  - apply (proj1 (proj2 (terminal_gordon_spec []
                    (mkRow 2024 1000 200 150 30 40 10 100) (-1) (-2))));
      reflexivity.
  - apply (proj2 (proj2 (terminal_gordon_spec []
                    (mkRow 2024 1000 200 150 30 40 10 100) 0.02 0.02))).
    discriminate.
Defined.

End TerminalValue.

(** ** dcf.py: the valuation and its sensitivity grid *)

Section Valuation.
Import Forecast DCF.

Lemma np_sum_finite (l : list npfloat) (acc : Q) :
  Forall (fun x => is_finite x = true) l ->
  exists s, fold_left np_add l (Fin acc) = Fin s.
Proof.
  revert acc. induction l as [|x l IH]; intros acc Hl.
  - now exists acc.
  - inversion Hl as [|? ? Hx Hl']; subst. destruct x as [q|]; [|discriminate].
    cbn. apply IH, Hl'.
Qed.

Lemma zip_np_div_finite (xs ds : list Q) :
  Forall (fun d => ~ d == 0) ds ->
  Forall (fun x => is_finite x = true) (zip_with np_div xs ds).
Proof.
  revert ds. induction xs as [|x xs IH]; intros ds Hds; [constructor|].
  destruct ds as [|d ds]; [constructor|].
  inversion Hds as [|? ? Hd Hds']; subst. cbn. constructor.
  - unfold np_div. destruct (Qeq_bool d 0) eqn:E; [|reflexivity].
    apply Qeq_bool_iff in E. contradiction.
  - apply IH, Hds'.
Qed.

(** Away from a WACC of -100% every discount factor is non-zero and the
    present value of the explicit cash flows is a finite number. *)
Lemma discount_cashflows_finite (forecast_df : list ForecastRow) (wacc : Q) :
  ~ wacc == -1 -> exists pv, discount_cashflows forecast_df wacc = Fin pv.
Proof.
  intro Hw. unfold discount_cashflows, np_sum.
  apply np_sum_finite, zip_np_div_finite.
  apply Forall_forall. intros d Hd. apply in_map_iff in Hd.
  destruct Hd as (t & <- & _). apply Qpower_not_0. lra.
Qed.

Lemma terminal_gordon_ok_inv (forecast_df : list ForecastRow) (wacc g tv : Q) :
  terminal_gordon forecast_df wacc g = Ok tv ->
  g < wacc /\ ~ wacc == -1 /\ forecast_df <> [].
Proof.
  unfold terminal_gordon.
  destruct (Qle_bool wacc g) eqn:E; [discriminate|].
  apply Qle_bool_false in E.
  unfold fcff_iloc_last.
  destruct (rev forecast_df) as [|r rs] eqn:Er; [discriminate|]. cbn [bind].
  destruct (py_div _ (wacc - g)) as [tv0|]; [|discriminate]. cbn [bind].
  intro Hd. apply py_div_inv in Hd. destruct Hd as [Hnz _].
  assert (Hne : forecast_df <> []).
  { intros ->. discriminate. }
  repeat split; [exact E| |exact Hne].
  intro Hw. apply Hnz.
  assert (H0 : 1 + wacc == 0) by lra. rewrite H0.
  apply Qpower_zero_base. destruct forecast_df; [congruence | cbn; lia].
Qed.

(** What a returned result is made of. *)
Lemma run_dcf_ok_inv forecast_df val_inp equity_weight debt_weight
  terminal_growth shares_outstanding exit_multiple exit_metric r log :
  run_dcf forecast_df val_inp equity_weight debt_weight terminal_growth
    shares_outstanding exit_multiple exit_metric = Ok (r, log) ->
  exists tv sens,
    terminal_gordon forecast_df
      (compute_wacc val_inp equity_weight debt_weight) terminal_growth =
      Ok tv /\
    pivot (sens_rows forecast_df
             (compute_wacc val_inp equity_weight debt_weight)
             terminal_growth) = Ok sens /\
    r_wacc r = compute_wacc val_inp equity_weight debt_weight /\
    r_pv_fcff r =
      discount_cashflows forecast_df
        (compute_wacc val_inp equity_weight debt_weight) /\
    r_terminal_value r = tv /\
    r_enterprise_value r = np_add (r_pv_fcff r) (Fin tv) /\
    r_equity_value r =
      option_map (fun nd => np_sub (r_enterprise_value r) (Fin nd))
                 (net_debt val_inp) /\
    r_intrinsic_per_share r =
      match r_equity_value r, shares_outstanding with
      | Some eqv, Some s =>
          if Qltb 0 s then Some (np_lift2 Qdiv eqv (Fin s)) else None
      | _, _ => None
      end /\
    r_shares_outstanding r = shares_outstanding /\
    r_sensitivity r = sens.
Proof.
  intros H. unfold run_dcf in H. cbv zeta in H.
  apply bind_ok_inv in H. destruct H as (tv & Htv & H).
  apply bind_ok_inv in H. destruct H as (lg & Hlg & H).
  apply bind_ok_inv in H. destruct H as (sens & Hsens & H).
  injection H as <- <-.
  exists tv, sens.
  split; [exact Htv|]. split; [exact Hsens|].
  cbn [r_wacc r_pv_fcff r_terminal_value r_enterprise_value r_equity_value
       r_intrinsic_per_share r_shares_outstanding r_sensitivity].
  destruct (net_debt val_inp); cbn [option_map]; repeat split; reflexivity.
Qed.

Lemma sample_result_run :
  run_dcf sample_forecast dashboard_inputs 0.7 0.3 0.02 (Some 1000)
    None None = Ok (sample_result, []).
Proof. vm_compute. reflexivity. Qed.

(** C10: in a returned result, an unknown net debt leaves the equity value
    and the intrinsic value per share undefined whatever share count is
    supplied, while WACC, the present value of the cash flows, the terminal
    value, the enterprise value and the sensitivity grid are computed as
    always; an intrinsic value per share is present only when the net debt
    is known and the share count is positive. *)
Theorem run_dcf_unknown_net_debt forecast_df val_inp equity_weight debt_weight
  terminal_growth shares_outstanding exit_multiple exit_metric r log :
  run_dcf forecast_df val_inp equity_weight debt_weight terminal_growth
    shares_outstanding exit_multiple exit_metric = Ok (r, log) ->
  (net_debt val_inp = None ->
   r_equity_value r = None /\ r_intrinsic_per_share r = None) /\
  (r_wacc r = compute_wacc val_inp equity_weight debt_weight /\
   r_pv_fcff r = discount_cashflows forecast_df (r_wacc r) /\
   (exists pv, r_pv_fcff r = Fin pv) /\
   terminal_gordon forecast_df (r_wacc r) terminal_growth =
     Ok (r_terminal_value r) /\
   r_enterprise_value r = np_add (r_pv_fcff r) (Fin (r_terminal_value r)) /\
   pivot (sens_rows forecast_df (r_wacc r) terminal_growth) =
     Ok (r_sensitivity r)) /\
  (r_intrinsic_per_share r <> None ->
   (exists nd, net_debt val_inp = Some nd) /\
   (exists s, shares_outstanding = Some s /\ 0 < s)).
Proof.
  intro H. apply run_dcf_ok_inv in H.
  destruct H as (tv & sens & Htv & Hsens & Hw & Hpv & Ht & Hev & Heq & Hps
                 & _ & Hs).
  split; [|split].
  - intro Hnd. rewrite Hnd in Heq. cbn in Heq. split; [exact Heq|].
    rewrite Hps, Heq. reflexivity.
  - split; [exact Hw|]. rewrite Hw, Ht, Hs.
    split; [exact Hpv|]. split; [|split; [exact Htv|split; [exact Hev|exact Hsens]]].
    rewrite Hpv. apply discount_cashflows_finite.
    now apply terminal_gordon_ok_inv in Htv.
  - intro Hne. rewrite Hps, Heq in Hne.
    destruct (net_debt val_inp) as [nd|]; cbn in Hne; [|congruence].
    split; [now exists nd|].
    destruct shares_outstanding as [s|]; [|congruence].
    destruct (Qltb 0 s) eqn:E; [|congruence].
    exists s. split; [reflexivity | now apply Qltb_lt].
Qed.

Lemma run_dcf_unknown_net_debt_witness :
  run_dcf sample_forecast dashboard_inputs 0.7 0.3 0.02 (Some 1000)
    None None = Ok (sample_result, []) /\
  r_equity_value sample_result = None /\
  r_intrinsic_per_share sample_result = None.
Proof.
  split; [exact sample_result_run|].
  exact (proj1 (run_dcf_unknown_net_debt _ _ _ _ _ _ _ _ _ _
                  sample_result_run) eq_refl).
Defined.

End Valuation.

Section SensitivityGrid.
Import Forecast DCF.

Lemma linspace_five (lo hi : Q) :
  linspace lo hi 5 =
  [lo + 0 * ((hi - lo) / 4); lo + 1 * ((hi - lo) / 4);
   lo + 2 * ((hi - lo) / 4); lo + 3 * ((hi - lo) / 4); hi].
Proof. reflexivity. Qed.

(** The four steps between the five points are equal. *)
Lemma linspace_five_evenly_spaced (lo hi : Q) (k : nat) (x y : Q) :
  nth_error (linspace lo hi 5) k = Some x ->
  nth_error (linspace lo hi 5) (S k) = Some y ->
  y - x == (hi - lo) / 4.
Proof.
  rewrite linspace_five.
  destruct k as [|[|[|[|k]]]]; cbn; intros Hx Hy;
    try (destruct k; discriminate);
    injection Hx as Hx; injection Hy as Hy; rewrite <- Hx, <- Hy; field.
Qed.

Lemma wacc_range_points (wacc : Q) :
  wacc_range wacc =
  map (fun x => np_round x 4)
      (linspace (py_max (wacc - 0.02) 0.03) (wacc + 0.02) 5) /\
  List.length (wacc_range wacc) = 5%nat /\
  py_max (wacc - 0.02) 0.03 == Qmax (wacc - 0.02) 0.03.
Proof.
  repeat split. apply py_max_Qmax. reflexivity.
Qed.

Lemma g_range_points (g : Q) :
  g_range g =
  map (fun x => np_round x 4) (linspace (py_max (g - 0.01) 0.0) (g + 0.01) 5) /\
  List.length (g_range g) = 5%nat /\
  py_max (g - 0.01) 0.0 == Qmax (g - 0.01) 0.
Proof.
  repeat split. apply py_max_Qmax. reflexivity.
Qed.

(** The loops append one row per pair: 25 rows. *)
Lemma sens_rows_length (forecast_df : list ForecastRow) (wacc g : Q) :
  List.length (sens_rows forecast_df wacc g) = 25%nat.
Proof. reflexivity. Qed.

(** A pair with [w <= g] gets the undefined cell, no exception escapes. *)
Lemma sens_cell_undefined (forecast_df : list ForecastRow) (w g : Q) :
  w <= g -> sens_cell forecast_df w g = NonFin.
Proof.
  intro H. unfold sens_cell, terminal_gordon.
  apply Qle_bool_iff in H. now rewrite H.
Qed.

(** A pair with [w > g] gets the enterprise value of the two valuation
    formulas at that pair. *)
Lemma sens_cell_defined (front : list ForecastRow) (last_row : ForecastRow)
  (w g : Q) :
  g < w -> ~ w == -1 ->
  exists pv tv,
    discount_cashflows (front ++ [last_row]) w = Fin pv /\
    terminal_gordon (front ++ [last_row]) w g = Ok tv /\
    sens_cell (front ++ [last_row]) w g = Fin (pv + tv).
Proof.
  intros Hg Hw.
  destruct (discount_cashflows_finite (front ++ [last_row]) w Hw) as [pv Hpv].
  pose proof (terminal_gordon_above_growth front last_row w g Hg Hw) as Htv.
  eexists pv, _. unfold sens_cell. rewrite Hpv, Htv. now repeat split.
Qed.

(** C7 on a failing input: with the dashboard's market inputs and a
    terminal growth of -1% the five growth points are all 0, the 25 rows
    repeat their labels and the pivot raises: [run_dcf] returns no grid. *)
Theorem run_dcf_grid_fails_on_repeated_points :
  g_range (-0.01) = [0 / 10 ^ 4; 0 / 10 ^ 4; 0 / 10 ^ 4; 0 / 10 ^ 4;
                     0 / 10 ^ 4] /\
  run_dcf sample_forecast dashboard_inputs 0.7 0.3 (-0.01) None None None =
  Raise (ValueError duplicate_entries).
Proof. split; vm_compute; reflexivity. Qed.

(** The same happens on the WACC axis at a WACC of 1%, where the lower end
    of the range is clamped onto its upper end. *)
Lemma run_dcf_grid_fails_on_clamped_wacc :
  run_dcf sample_forecast (mkValuationInputs 0.01 0.05 0 0.05 0.25 None None)
    1 0 0 None None None =
  Raise (ValueError duplicate_entries).
Proof. vm_compute. reflexivity. Qed.

(** With distinct points on both axes the grid is complete: five rows of
    five cells at the dashboard's default inputs. *)
Lemma run_dcf_grid_complete_example :
  run_dcf sample_forecast dashboard_inputs 0.7 0.3 0.02 (Some 1000)
    None None = Ok (sample_result, []) /\
  pivot_index (r_sensitivity sample_result) = wacc_range 0.07775 /\
  pivot_columns (r_sensitivity sample_result) = g_range 0.02 /\
  map (@List.length npfloat) (pivot_values (r_sensitivity sample_result)) =
  [5; 5; 5; 5; 5]%nat.
Proof.
  split; [exact sample_result_run|]. repeat split; vm_compute; reflexivity.
Qed.

End SensitivityGrid.

(** ** dcf.py: the pivot of the sensitivity rows *)

Section Pivot.
Import Forecast DCF.

Variable cell : Q -> Q -> npfloat.


Lemma same_key_iff (r1 r2 : SensRow) :
  same_key r1 r2 = true <-> key_eq r1 r2.
Proof.
  unfold same_key, key_eq. rewrite andb_true_iff, !Qeq_bool_iff. tauto.
Qed.

Lemma existsb_same_key (r : SensRow) (l : list SensRow) :
  existsb (same_key r) l = true <-> InA key_eq r l.
Proof.
  rewrite existsb_exists, InA_alt. split.
  - intros (x & Hin & Hk). exists x. split; [now apply same_key_iff | exact Hin].
  - intros (x & Hk & Hin). exists x. split; [exact Hin | now apply same_key_iff].
Qed.

Lemma has_duplicate_key_NoDupA (l : list SensRow) :
  NoDupA key_eq l -> has_duplicate_key l = false.
Proof.
  induction 1 as [|r l Hr Hl IH]; cbn; [reflexivity|].
  rewrite IH, orb_false_r.
  destruct (existsb (same_key r) l) eqn:E; [|reflexivity].
  apply existsb_same_key in E. contradiction.
Qed.

Lemma InA_row_map (r : SensRow) (w : Q) (gs : list Q) :
  InA key_eq r (map (fun g => mkSensRow w g (cell w g)) gs) -> s_wacc r == w /\ InA Qeq (s_g r) gs.
Proof.
  induction gs as [|g gs IH]; cbn; intro H; inversion H; subst.
  - destruct H1 as [Hw Hg]. split; [exact Hw | now left].
  - destruct (IH H1) as [Hw Hg]. split; [exact Hw | now right].
Qed.

Lemma InA_rows (r : SensRow) (ws gs : list Q) :
  InA key_eq r (grid_rows cell ws gs) -> InA Qeq (s_wacc r) ws /\ InA Qeq (s_g r) gs.
Proof.
  induction ws as [|w ws IH]; cbn; intro H; [inversion H|].
  apply InA_app in H. destruct H as [H|H].
  - apply InA_row_map in H. destruct H as [Hw Hg]. split; [now left | exact Hg].
  - destruct (IH H) as [Hw Hg]. split; [now right | exact Hg].
Qed.

Lemma key_eq_equiv : Equivalence key_eq.
Proof.
  split.
  - intro r. split; reflexivity.
  - intros r1 r2 [H1 H2]. split; now symmetry.
  - intros r1 r2 r3 [H1 H2] [H3 H4]. split; etransitivity; eassumption.
Qed.

Lemma NoDupA_row_map (w : Q) (gs : list Q) :
  NoDupA Qeq gs -> NoDupA key_eq (map (fun g => mkSensRow w g (cell w g)) gs).
Proof.
  induction 1 as [|g gs Hg Hgs IH]; cbn; constructor; [|exact IH].
  intro H. apply InA_row_map in H. now destruct H.
Qed.

(** Distinct points on both axes give rows without a repeated pair. *)
Lemma NoDupA_rows (ws gs : list Q) :
  NoDupA Qeq ws -> NoDupA Qeq gs -> NoDupA key_eq (grid_rows cell ws gs).
Proof.
  intros Hws Hgs. induction Hws as [|w ws Hw Hws IH]; cbn; [constructor|].
  apply (NoDupA_app key_eq_equiv); [now apply NoDupA_row_map | exact IH |].
  intros r H1 H2. apply InA_row_map in H1. apply InA_rows in H2.
  destruct H1 as [H1 _], H2 as [H2 _]. apply Hw.
  apply (InA_eqA Q_Setoid H1 H2).
Qed.

Lemma NoDupA_In_eq (l : list Q) (x y : Q) :
  NoDupA Qeq l -> In x l -> In y l -> x == y -> x = y.
Proof.
  induction 1 as [|a l Ha Hl IH]; cbn; [tauto|].
  intros [<-|Hx] [<-|Hy] Hxy; [reflexivity| | |now apply IH].
  - exfalso. apply Ha. apply InA_alt. now exists y.
  - exfalso. apply Ha. apply InA_alt. exists x. split; [now symmetry|exact Hx].
Qed.

Lemma In_rows (r : SensRow) (ws gs : list Q) :
  In r (grid_rows cell ws gs) <-> exists w g, In w ws /\ In g gs /\ r = mkSensRow w g (cell w g).
Proof.
  unfold grid_rows. rewrite in_flat_map. split.
  - intros (w & Hw & Hr). apply in_map_iff in Hr.
    destruct Hr as (g & <- & Hg). now exists w, g.
  - intros (w & g & Hw & Hg & ->). exists w. split; [exact Hw|].
    apply in_map_iff. now exists g.
Qed.

(** The cell found for a pair of points is the cell of that pair. *)
Lemma cell_at_rows (ws gs : list Q) (w g : Q) :
  NoDupA Qeq ws -> NoDupA Qeq gs -> In w ws -> In g gs ->
  cell_at (grid_rows cell ws gs) w g = cell w g.
Proof.
  intros Hws Hgs Hw Hg. unfold cell_at.
  destruct (find _ (grid_rows cell ws gs)) as [r|] eqn:E.
  - apply find_some in E. destruct E as [Hin Hk].
    apply In_rows in Hin. destruct Hin as (w' & g' & Hw' & Hg' & ->).
    cbn in Hk. apply andb_true_iff in Hk. destruct Hk as [Ew Eg].
    apply Qeq_bool_iff in Ew, Eg.
    rewrite (NoDupA_In_eq ws w' w Hws Hw' Hw Ew).
    rewrite (NoDupA_In_eq gs g' g Hgs Hg' Hg Eg). reflexivity.
  - exfalso.
    assert (Hin : In (mkSensRow w g (cell w g)) (grid_rows cell ws gs))
      by (apply In_rows; now exists w, g).
    pose proof (find_none _ _ E _ Hin) as Hn. cbn in Hn.
    now rewrite !Qeq_bool_refl in Hn.
Qed.

End Pivot.

Section AxisLabels.
Import Forecast DCF.

Lemma In_insert_sorted (x a : Q) (l : list Q) :
  In x (insert_sorted a l) -> x = a \/ In x l.
Proof.
  induction l as [|y l IH]; cbn [insert_sorted In]; [intuition congruence|].
  destruct (Qeq_bool a y); [cbn [In]; tauto|].
  destruct (Qle_bool a y); cbn [In]; [intuition congruence|].
  intros [->|H]; [tauto|]. destruct (IH H); tauto.
Qed.

Lemma insert_sorted_keeps (x a : Q) (l : list Q) :
  In x l -> In x (insert_sorted a l).
Proof.
  induction l as [|y l IH]; cbn [insert_sorted In]; [tauto|].
  destruct (Qeq_bool a y); [cbn [In]; tauto|].
  destruct (Qle_bool a y); cbn [In]; [tauto|].
  intros [->|H]; [now left | right; now apply IH].
Qed.

Lemma insert_sorted_has (a : Q) (l : list Q) : InA Qeq a (insert_sorted a l).
Proof.
  induction l as [|y l IH]; cbn [insert_sorted]; [now left|].
  destruct (Qeq_bool a y) eqn:E; [left; now apply Qeq_bool_iff|].
  destruct (Qle_bool a y); [now left | now right].
Qed.

Lemma insert_sorted_sorted (a : Q) (l : list Q) :
  StronglySorted Qlt l -> StronglySorted Qlt (insert_sorted a l).
Proof.
  induction 1 as [|y l Hl IH Hy]; cbn [insert_sorted]; [repeat constructor|].
  destruct (Qeq_bool a y) eqn:E; [now constructor|].
  apply Qeq_bool_neq in E.
  destruct (Qle_bool a y) eqn:L.
  - apply Qle_bool_iff in L.
    assert (Hay : a < y) by (apply Qle_lteq in L; destruct L; tauto).
    constructor; [now constructor|].
    constructor; [exact Hay|].
    apply Forall_forall. intros z Hz.
    rewrite Forall_forall in Hy. specialize (Hy z Hz). lra.
  - apply Qle_bool_false in L.
    constructor; [exact IH|].
    apply Forall_forall. intros z Hz.
    apply In_insert_sorted in Hz. destruct Hz as [->|Hz]; [exact L|].
    rewrite Forall_forall in Hy. now apply Hy.
Qed.

Lemma axis_labels_sorted (l : list Q) : StronglySorted Qlt (axis_labels l).
Proof.
  induction l as [|a l IH]; cbn; [constructor|].
  now apply insert_sorted_sorted.
Qed.

Lemma axis_labels_In (x : Q) (l : list Q) : In x (axis_labels l) -> In x l.
Proof.
  induction l as [|a l IH]; cbn; [tauto|].
  intro H. apply In_insert_sorted in H. destruct H as [->|H]; [now left|].
  right. now apply IH.
Qed.

Lemma axis_labels_InA (x : Q) (l : list Q) :
  InA Qeq x l -> InA Qeq x (axis_labels l).
Proof.
  induction l as [|a l IH]; intro H; inversion H; subst; cbn.
  - rewrite H1. apply insert_sorted_has.
  - specialize (IH H1). apply InA_alt in IH. destruct IH as (y & Hxy & Hy).
    apply InA_alt. exists y. split; [exact Hxy|].
    now apply insert_sorted_keeps.
Qed.

Lemma sorted_NoDupA (l : list Q) : StronglySorted Qlt l -> NoDupA Qeq l.
Proof.
  induction 1 as [|y l Hl IH Hy]; constructor; [|exact IH].
  intro H. apply InA_alt in H. destruct H as (z & Hyz & Hz).
  rewrite Forall_forall in Hy. specialize (Hy z Hz). lra.
Qed.

(** The labels of an axis are its distinct points, sorted. *)
Lemma axis_labels_permutation (l ws : list Q) :
  NoDupA Qeq ws ->
  (forall x, InA Qeq x l <-> InA Qeq x ws) ->
  PermutationA Qeq (axis_labels l) ws.
Proof.
  intros Hws Hl.
  apply (NoDupA_equivlistA_PermutationA Q_Setoid);
    [apply sorted_NoDupA, axis_labels_sorted | exact Hws |].
  intro x. rewrite <- Hl. split.
  - intro H. apply InA_alt in H. destruct H as (y & Hxy & Hy).
    apply axis_labels_In in Hy. apply InA_alt. now exists y.
  - apply axis_labels_InA.
Qed.

End AxisLabels.

Section CompleteGrid.
Import Forecast DCF.

Lemma grid_rows_wacc (cell : Q -> Q -> npfloat) (ws gs : list Q) (w : Q) :
  gs <> [] -> In w (map s_wacc (grid_rows cell ws gs)) <-> In w ws.
Proof.
  intro Hgs. rewrite in_map_iff. split.
  - intros (r & <- & Hr). apply In_rows in Hr.
    now destruct Hr as (w' & g' & Hw & _ & ->).
  - intro Hw. destruct gs as [|g gs]; [congruence|].
    exists (mkSensRow w g (cell w g)). split; [reflexivity|].
    apply In_rows. exists w, g. repeat split; [exact Hw | now left].
Qed.

Lemma grid_rows_g (cell : Q -> Q -> npfloat) (ws gs : list Q) (g : Q) :
  ws <> [] -> In g (map s_g (grid_rows cell ws gs)) <-> In g gs.
Proof.
  intro Hws. rewrite in_map_iff. split.
  - intros (r & <- & Hr). apply In_rows in Hr.
    now destruct Hr as (w' & g' & _ & Hg & ->).
  - intro Hg. destruct ws as [|w ws]; [congruence|].
    exists (mkSensRow w g (cell w g)). split; [reflexivity|].
    apply In_rows. exists w, g. repeat split; [now left | exact Hg].
Qed.

Lemma InA_of_In_iff (l l' : list Q) :
  (forall x, In x l <-> In x l') ->
  forall x, InA Qeq x l <-> InA Qeq x l'.
Proof.
  intros H x. rewrite !InA_alt.
  split; intros (y & Hxy & Hy); exists y; split; try exact Hxy; now apply H.
Qed.

(** With distinct points on both axes the pivot succeeds: its index and
    its columns are the points of the two axes in ascending order, and the
    cell at a pair of labels is the cell computed for that pair. *)
Lemma pivot_grid_complete (cell : Q -> Q -> npfloat) (ws gs : list Q) :
  ws <> [] -> gs <> [] -> NoDupA Qeq ws -> NoDupA Qeq gs ->
  exists t,
    pivot (grid_rows cell ws gs) = Ok t /\
    PermutationA Qeq (pivot_index t) ws /\
    PermutationA Qeq (pivot_columns t) gs /\
    StronglySorted Qlt (pivot_index t) /\
    StronglySorted Qlt (pivot_columns t) /\
    pivot_values t =
    map (fun w => map (fun g => cell w g) (pivot_columns t)) (pivot_index t).
Proof.
  intros Hws Hgs Dws Dgs. unfold pivot.
  rewrite (has_duplicate_key_NoDupA _ (NoDupA_rows cell ws gs Dws Dgs)).
  eexists. split; [reflexivity|]. cbn [pivot_index pivot_columns pivot_values].
  split; [|split; [|split; [|split]]].
  - apply axis_labels_permutation; [exact Dws|].
    apply InA_of_In_iff. intro x. now apply grid_rows_wacc.
  - apply axis_labels_permutation; [exact Dgs|].
    apply InA_of_In_iff. intro x. now apply grid_rows_g.
  - apply axis_labels_sorted.
  - apply axis_labels_sorted.
  - apply map_ext_in. intros w Hw. apply map_ext_in. intros g Hg.
    apply axis_labels_In in Hw, Hg.
    apply grid_rows_wacc in Hw; [|exact Hgs].
    apply grid_rows_g in Hg; [|exact Hws].
    now apply cell_at_rows.
Qed.

(** Rounding moves a number by at most one half. *)
Lemma rint_error (y : Q) :
  - (1 # 2) <= inject_Z (rint y) - y /\ inject_Z (rint y) - y <= 1 # 2.
Proof.
  unfold rint.
  pose proof (Qfloor_le y) as Hlo. pose proof (Qlt_floor y) as Hhi.
  rewrite inject_Z_plus in Hhi. change (inject_Z 1) with 1 in Hhi.
  destruct (Qcompare_spec (y - inject_Z (Qfloor y)) (1 # 2)) as [E|E|E].
  - destruct (Z.even (Qfloor y));
      [|rewrite inject_Z_plus; change (inject_Z 1) with 1]; lra.
  - lra.
  - rewrite inject_Z_plus. change (inject_Z 1) with 1. lra.
Qed.

(** Two numbers more than 0.0001 apart stay apart when rounded to four
    decimals. *)
Lemma np_round_lt (x x' : Q) :
  1 # 10000 < x' - x -> np_round x 4 < np_round x' 4.
Proof.
  intro H. unfold np_round.
  change (10 ^ 4) with 10000.
  pose proof (rint_error (x * 10000)) as [_ Hx].
  pose proof (rint_error (x' * 10000)) as [Hx' _].
  apply Qmult_lt_r with (z := 10000); [reflexivity|].
  unfold Qdiv. rewrite <- !Qmult_assoc.
  setoid_replace (/ 10000 * 10000) with 1 by reflexivity.
  rewrite !Qmult_1_r. lra.
Qed.

Lemma increasing_five_NoDupA (a b c d e : Q) :
  a < b -> b < c -> c < d -> d < e -> NoDupA Qeq [a; b; c; d; e].
Proof.
  intros.
  repeat (constructor;
          [intro HA; repeat (inversion HA as [? ? HE|? ? HA']; subst;
                             [lra|clear HA; rename HA' into HA]);
           inversion HA|]).
  constructor.
Qed.

Lemma decreasing_five_NoDupA (a b c d e : Q) :
  b < a -> c < b -> d < c -> e < d -> NoDupA Qeq [a; b; c; d; e].
Proof.
  intros.
  repeat (constructor;
          [intro HA; repeat (inversion HA as [? ? HE|? ? HA']; subst;
                             [lra|clear HA; rename HA' into HA]);
           inversion HA|]).
  constructor.
Qed.

(** Five rounded points over a range wider than 0.0004 are distinct. *)
Lemma rounded_linspace_distinct (lo hi : Q) :
  4 # 10000 < hi - lo \/ 4 # 10000 < lo - hi ->
  NoDupA Qeq (map (fun x => np_round x 4) (linspace lo hi 5)).
Proof.
  intro H. rewrite linspace_five. cbn [map].
  assert (Hstep : 4 * ((hi - lo) / 4) == hi - lo) by field.
  set (step := (hi - lo) / 4) in *.
  destruct H as [H|H].
  - apply increasing_five_NoDupA; apply np_round_lt; lra.
  - apply decreasing_five_NoDupA; apply np_round_lt; lra.
Qed.

End CompleteGrid.

Section CompleteSensitivityGrid.
Import Forecast DCF.

Lemma PermutationA_Qeq_length (l l' : list Q) :
  PermutationA Qeq l l' -> List.length l = List.length l'.
Proof.
  induction 1; cbn; congruence.
Qed.

Lemma wacc_range_distinct (wacc : Q) :
  0.0104 < wacc \/ wacc < 0.0096 -> NoDupA Qeq (wacc_range wacc).
Proof.
  intro H. unfold wacc_range. apply rounded_linspace_distinct.
  unfold py_max.
  destruct (Qltb (wacc - 0.02) 0.03) eqn:E;
    [apply Qltb_lt in E | apply Qltb_ge in E]; lra.
Qed.

Lemma g_range_distinct (g : Q) :
  -0.0096 < g \/ g < -0.0104 -> NoDupA Qeq (g_range g).
Proof.
  intro H. unfold g_range. apply rounded_linspace_distinct.
  unfold py_max.
  destruct (Qltb (g - 0.01) 0.0) eqn:E;
    [apply Qltb_lt in E | apply Qltb_ge in E]; lra.
Qed.

(** Away from a WACC of about 1% and a terminal growth of about -1% the
    grid is complete: five WACC labels, five growth labels, each the
    rounded points of its axis in ascending order, and at every pair of
    labels the cell computed for that pair. *)
Lemma sens_grid_complete (forecast_df : list ForecastRow) (wacc g : Q) :
  0.0104 < wacc \/ wacc < 0.0096 ->
  -0.0096 < g \/ g < -0.0104 ->
  exists t,
    pivot (sens_rows forecast_df wacc g) = Ok t /\
    PermutationA Qeq (pivot_index t) (wacc_range wacc) /\
    PermutationA Qeq (pivot_columns t) (g_range g) /\
    List.length (pivot_index t) = 5%nat /\
    List.length (pivot_columns t) = 5%nat /\
    pivot_values t =
    map (fun w => map (fun g' => sens_cell forecast_df w g')
                      (pivot_columns t))
        (pivot_index t).
Proof.
  intros Hw Hg.
  destruct (pivot_grid_complete (sens_cell forecast_df)
              (wacc_range wacc) (g_range g))
    as (t & Ht & Pi & Pc & _ & _ & Hv);
    [discriminate | discriminate | now apply wacc_range_distinct
    | now apply g_range_distinct |].
  exists t. split; [exact Ht|]. split; [exact Pi|]. split; [exact Pc|].
  split; [|split; [|exact Hv]].
  - now rewrite (PermutationA_Qeq_length _ _ Pi).
  - now rewrite (PermutationA_Qeq_length _ _ Pc).
Qed.

(** [run_dcf] returns, with the complete grid, whenever the WACC is above
    the terminal growth, is not -100%, and the two rates are away from the
    values at which the rounded axis points coincide. *)
Lemma run_dcf_grid_complete (front : list ForecastRow) (last_row : ForecastRow)
  (val_inp : ValuationInputs) (equity_weight debt_weight g : Q)
  (shares_outstanding : option Q) :
  g < compute_wacc val_inp equity_weight debt_weight ->
  ~ compute_wacc val_inp equity_weight debt_weight == -1 ->
  0.0104 < compute_wacc val_inp equity_weight debt_weight \/
  compute_wacc val_inp equity_weight debt_weight < 0.0096 ->
  -0.0096 < g \/ g < -0.0104 ->
  exists r,
    run_dcf (front ++ [last_row]) val_inp equity_weight debt_weight g
      shares_outstanding None None = Ok (r, []) /\
    List.length (pivot_index (r_sensitivity r)) = 5%nat /\
    List.length (pivot_columns (r_sensitivity r)) = 5%nat /\
    pivot_values (r_sensitivity r) =
    map (fun w => map (fun g' => sens_cell (front ++ [last_row]) w g')
                      (pivot_columns (r_sensitivity r)))
        (pivot_index (r_sensitivity r)).
Proof.
  intros Hgw Hw1 Hw Hg.
  destruct (sens_grid_complete (front ++ [last_row]) _ g Hw Hg)
    as (t & Ht & _ & _ & Li & Lc & Hv).
  unfold run_dcf. cbv zeta.
  rewrite (terminal_gordon_above_growth front last_row _ g Hgw Hw1).
  cbn [bind exit_multiple_check]. rewrite Ht. cbn [bind].
  eexists. split; [reflexivity|].
  cbn [r_sensitivity]. repeat split; assumption.
Qed.

End CompleteSensitivityGrid.

(** ** metrics.py: the historical metrics *)

Section Frames.
Import Frame.

Lemma has_column_get (c : string) (df : DataFrame) :
  has_column c df = true <-> exists s, get c df = Some s.
Proof.
  unfold has_column, get, column_names.
  induction (columns df) as [|[c' s'] cols IH]; cbn.
  - split; [discriminate | intros [s Hs]; discriminate].
  - destruct (String.eqb c c'); cbn.
    + split; [intros _; now exists s' | reflexivity].
    + exact IH.
Qed.

Lemma has_column_false (c : string) (df : DataFrame) :
  has_column c df = false <-> get c df = None.
Proof.
  destruct (has_column c df) eqn:E.
  - apply has_column_get in E. destruct E as [s ->].
    split; discriminate.
  - split; [intros _ | reflexivity].
    destruct (get c df) as [s|] eqn:G; [|reflexivity].
    assert (H : has_column c df = true) by (apply has_column_get; now exists s).
    congruence.
Qed.

Lemma assoc_map_columns (f : Series -> Series) (c : string)
  (cols : list (string * Series)) :
  assoc c (map (fun cs => (fst cs, f (snd cs))) cols) =
  option_map f (assoc c cols).
Proof.
  induction cols as [|[c' s'] cols IH]; cbn; [reflexivity|].
  destruct (String.eqb c c'); [reflexivity | exact IH].
Qed.

(** The columns of [df.loc[ys]] are those of [df]. *)
Lemma loc_get (df df' : DataFrame) (ys : list Z) (c : string) :
  loc df ys = Ok df' ->
  index df' = ys /\
  exists ps, List.length ps = List.length ys /\
             get c df' = option_map (take_rows ps) (get c df).
Proof.
  unfold loc. intro H. apply bind_ok_inv in H.
  destruct H as (ps & Hps & H). injection H as <-. cbn [index].
  split; [reflexivity|]. exists ps. split.
  - revert ps Hps. induction ys as [|y ys IH]; intros ps Hps; cbn in Hps.
    + now injection Hps as <-.
    + destruct (position y (index df)); [|discriminate].
      apply bind_ok_inv in Hps. destruct Hps as (ps' & Hps' & Hps).
      injection Hps as <-. cbn. f_equal. now apply IH.
  - unfold get. cbn [columns]. apply assoc_map_columns.
Qed.

Lemma loc_nil_no_rows (df df' : DataFrame) :
  loc df [] = Ok df' -> index df' = [] /\ no_rows df'.
Proof.
  intro H. split; [now apply (loc_get df df' [] ""%string)|].
  intros c s Hs. destruct (loc_get df df' [] c H) as (_ & ps & Hlen & Hg).
  destruct ps; [|discriminate]. rewrite Hg in Hs.
  destruct (get c df); [|discriminate]. now injection Hs as <-.
Qed.

End Frames.

Section HistoricalMetrics.
Import Frame Metrics.

Lemma lookback_window_nil (inc : DataFrame) (lookback : nat) :
  index inc = [] -> lookback_window inc lookback = [].
Proof.
  intro H. unfold lookback_window. rewrite H. cbn.
  destruct lookback; reflexivity.
Qed.

Lemma window_of_nil_no_rows (df df' : DataFrame) :
  window_of df [] = Ok df' -> no_rows df'.
Proof.
  unfold window_of. destruct (negb (empty df)).
  - intro H. now apply loc_nil_no_rows in H.
  - intros [= <-] c s Hs. discriminate.
Qed.

(** Without rows no ratio has a sample: every metric is its default. *)
Lemma metrics_of_window_no_rows (inc_lb cf_lb bs_lb : DataFrame) :
  no_rows inc_lb -> no_rows cf_lb -> no_rows bs_lb ->
  fst (metrics_of_window inc_lb cf_lb bs_lb []) = default_metrics.
Proof.
  intros Hi Hc Hb. unfold metrics_of_window, d_nwc_pct_of.
  destruct (get "revenue" inc_lb) as [rv|] eqn:E1;
    [apply Hi in E1; subst rv|];
  destruct (get "operating_income" inc_lb) as [e|] eqn:E2;
    try (apply Hi in E2; subst e);
  destruct (get "da" cf_lb) as [d|] eqn:E3;
    try (apply Hc in E3; subst d);
  destruct (get "capex" cf_lb) as [cx|] eqn:E4;
    try (apply Hc in E4; subst cx);
  destruct (get "delta_nwc" cf_lb) as [dn|] eqn:E5;
    try (apply Hc in E5; subst dn);
  destruct (get "current_assets" bs_lb) as [ca|] eqn:E6;
    try (apply Hb in E6; subst ca);
  destruct (get "current_liabilities" bs_lb) as [cl|] eqn:E7;
    try (apply Hb in E7; subst cl);
  reflexivity.
Qed.

Lemma window_of_empty_index (df : DataFrame) (years : list Z) :
  index df = [] -> window_of df years = Ok (mkFrame years []).
Proof.
  intro H. unfold window_of, empty. now rewrite H.
Qed.

(** C3, as stated, fails: an income statement that kept its revenue column
    but no year gives the record of defaults, not an error. *)
Lemma compute_historical_metrics_accepts_no_years :
  ~ empty_index_raises income_without_years statement_without_years
      statement_without_years 5 3.
Proof.
  intro H. destruct (H eq_refl) as [e He].
  vm_compute in He. discriminate.
Qed.

(** C3, amended: on an income frame with an empty year index,
    [compute_historical_metrics] raises exactly when the frame has no
    revenue column; with a revenue column it returns the record of defaults
    (growth and all ratios 0.0, EBITDA margin undefined, no lookback year),
    and when the cash-flow and balance frames are aligned to the same empty
    index the only thing logged is the working-capital assumption. *)
Theorem compute_historical_metrics_empty_index (inc cf bs : DataFrame)
  (lookback min_years : nat) :
  index inc = [] ->
  (has_column "revenue" inc = false ->
   compute_historical_metrics inc cf bs lookback min_years =
   Raise (ValueError revenue_missing)) /\
  (has_column "revenue" inc = true ->
   exists log,
     compute_historical_metrics inc cf bs lookback min_years =
     Ok (default_metrics, log) /\
     (index cf = [] -> index bs = [] -> log = [AssumeDeltaNwcZero])).
Proof.
  intro Hidx. unfold compute_historical_metrics.
  rewrite (lookback_window_nil inc lookback Hidx).
  split; intro Hrev; rewrite Hrev; cbn [negb]; [reflexivity|].
  destruct (loc inc []) as [inc_lb|] eqn:Ei; [|discriminate].
  destruct (window_of cf []) as [cf_lb|] eqn:Ec;
    [|unfold window_of in Ec; destruct (negb (empty cf)); discriminate].
  destruct (window_of bs []) as [bs_lb|] eqn:Eb;
    [|unfold window_of in Eb; destruct (negb (empty bs)); discriminate].
  cbn [bind].
  exists (snd (metrics_of_window inc_lb cf_lb bs_lb [])). split.
  - rewrite (surjective_pairing (metrics_of_window inc_lb cf_lb bs_lb [])).
    rewrite metrics_of_window_no_rows; [reflexivity| | |].
    + now apply loc_nil_no_rows in Ei.
    + now apply window_of_nil_no_rows in Ec.
    + now apply window_of_nil_no_rows in Eb.
  - intros Hcf Hbs.
    rewrite (window_of_empty_index cf [] Hcf) in Ec.
    rewrite (window_of_empty_index bs [] Hbs) in Eb.
    injection Ec as <-. injection Eb as <-.
    unfold metrics_of_window, d_nwc_pct_of. cbn [get columns assoc snd].
    reflexivity.
Qed.

Lemma compute_historical_metrics_empty_index_witness :
  compute_historical_metrics income_without_years statement_without_years
    statement_without_years 5 3 = Ok (default_metrics, [AssumeDeltaNwcZero]).
Proof.
  destruct (proj2 (compute_historical_metrics_empty_index
                     income_without_years statement_without_years
                     statement_without_years 5 3 eq_refl) eq_refl)
    as (log & Hrun & Hlog).
  rewrite Hrun, (Hlog eq_refl eq_refl). reflexivity.
Defined.

End HistoricalMetrics.

Section WorkingCapitalRatio.
Import Frame Metrics.

Lemma pf_eq_refl (x : pfloat) : pf_eq x x.
Proof. destruct x; cbn; reflexivity. Qed.

(** The code's substitution of 0.0 for an undefined median. *)
Lemma or_zero_median (ratios : list pfloat) :
  pf_eq (or_zero (median_over_years ratios 3)) (median_or_default ratios).
Proof.
  unfold median_over_years, median_or_default.
  destruct (List.length (dropna ratios) <? 3)%nat; cbn.
  - reflexivity.
  - apply pf_eq_refl.
Qed.

(** What a returned record is made of. *)
Lemma compute_historical_metrics_ok_inv (inc cf bs : DataFrame)
  (lookback min_years : nat) (h : HistoricalMetrics) (log : list log_record) :
  compute_historical_metrics inc cf bs lookback min_years = Ok (h, log) ->
  exists inc_lb cf_lb bs_lb revenue,
    loc inc (lookback_window inc lookback) = Ok inc_lb /\
    window_of cf (lookback_window inc lookback) = Ok cf_lb /\
    window_of bs (lookback_window inc lookback) = Ok bs_lb /\
    get "revenue" inc_lb = Some revenue /\
    (h, log) =
    metrics_of_window inc_lb cf_lb bs_lb (lookback_window inc lookback).
Proof.
  unfold compute_historical_metrics.
  destruct (has_column "revenue" inc) eqn:Hrev; cbn [negb]; [|discriminate].
  cbv zeta. intro H.
  apply bind_ok_inv in H. destruct H as (inc_lb & Hi & H).
  apply bind_ok_inv in H. destruct H as (cf_lb & Hc & H).
  apply bind_ok_inv in H. destruct H as (bs_lb & Hb & H).
  apply Ok_inj in H.
  apply has_column_get in Hrev. destruct Hrev as [s Hs].
  destruct (loc_get inc inc_lb _ "revenue" Hi) as (_ & ps & _ & Hg).
  rewrite Hs in Hg. cbn in Hg.
  exists inc_lb, cf_lb, bs_lb, (take_rows ps s).
  repeat split; try assumption. now symmetry.
Qed.

(** The first year of the window has no year before it: its delta is
    missing and does not enter the median. *)
Lemma first_delta_excluded (nwc revenue : Series) :
  dropna (series_div (series_diff nwc) revenue) =
  dropna (tl (series_div (series_diff nwc) revenue)).
Proof.
  destruct nwc as [|x nwc]; [reflexivity|].
  destruct revenue as [|r revenue]; reflexivity.
Qed.

(** C4, as stated, fails: with two aligned years whose change in working
    capital is 10% of revenue, the median of the ratios is 0.1 but the
    record holds 0.0, and nothing is logged. *)
Lemma d_nwc_is_not_the_median_of_two_years :
  ~ d_nwc_resolved_by median_of_ratios two_year_income two_year_cashflow
      two_year_balance 5 3.
Proof.
  intro H.
  assert (E : compute_historical_metrics two_year_income two_year_cashflow
                two_year_balance 5 3 =
              Ok (mkHistoricalMetrics 0%R (Num 0.0) None (Num 0.0) (Num 0.0)
                    (Num 0.0) 2, []))
    by (vm_compute; reflexivity).
  destruct (H _ _ E) as (inc_lb & cf_lb & bs_lb & rv & Hi & Hc & _ & Hr & Hd).
  vm_compute in Hi. injection Hi as <-.
  vm_compute in Hc. injection Hc as <-.
  vm_compute in Hr. injection Hr as <-.
  vm_compute in Hd. discriminate.
Qed.

(** C4, amended: the working-capital ratio of a returned record is resolved
    in strict order: (1) if the cash-flow window has a delta_nwc column, it
    is the median of delta_nwc / revenue when at least three years of the
    window have a defined ratio and 0.0 otherwise, whatever the balance
    sheet holds; (2) otherwise, if the balance sheet has both current_assets
    and current_liabilities, it is in the same way the median (or 0.0) of
    the year-over-year difference of their difference over revenue, the
    first year's missing delta left out; (3) otherwise it is exactly 0.0 and
    the assumption is logged. *)
Theorem d_nwc_fallback_order (inc cf bs : DataFrame)
  (lookback min_years : nat) :
  d_nwc_resolved_by median_or_default inc cf bs lookback min_years /\
  (forall nwc revenue,
     median_or_default (series_div (series_diff nwc) revenue) =
     if (List.length (dropna (tl (series_div (series_diff nwc) revenue)))
         <? 3)%nat
     then Num 0
     else np_median (dropna (tl (series_div (series_diff nwc) revenue)))).
Proof.
  split.
  - intros h log H.
    apply compute_historical_metrics_ok_inv in H.
    destruct H as (inc_lb & cf_lb & bs_lb & rv & Hi & Hc & Hb & Hr & H).
    exists inc_lb, cf_lb, bs_lb, rv.
    repeat (split; [assumption|]).
    unfold metrics_of_window, d_nwc_pct_of in H. rewrite Hr in H.
    injection H as Hh Hlog. subst h.
    cbn [d_nwc_pct_revenue].
    destruct (get "delta_nwc" cf_lb) as [dn|].
    + apply or_zero_median.
    + destruct (get "current_assets" bs_lb) as [ca|],
               (get "current_liabilities" bs_lb) as [cl|];
        cbn [fst snd] in *;
        try (split; [reflexivity | exact Hlog]).
      apply or_zero_median.
  - intros nwc rv. unfold median_or_default.
    now rewrite first_delta_excluded.
Qed.

Lemma d_nwc_fallback_order_witness :
  exists h log,
    compute_historical_metrics two_year_income two_year_cashflow
      two_year_balance 5 3 = Ok (h, log) /\
    exists inc_lb cf_lb bs_lb revenue,
      loc two_year_income (lookback_window two_year_income 5) = Ok inc_lb /\
      window_of two_year_cashflow (lookback_window two_year_income 5) =
        Ok cf_lb /\
      window_of two_year_balance (lookback_window two_year_income 5) =
        Ok bs_lb /\
      get "revenue" inc_lb = Some revenue /\
      match get "delta_nwc" cf_lb with
      | Some delta_nwc =>
          pf_eq (d_nwc_pct_revenue h)
                (median_or_default (series_div delta_nwc revenue))
      | None =>
          match get "current_assets" bs_lb,
                get "current_liabilities" bs_lb with
          | Some ca, Some cl =>
              pf_eq (d_nwc_pct_revenue h)
                    (median_or_default
                       (series_div (series_diff (series_sub ca cl)) revenue))
          | _, _ =>
              pf_eq (d_nwc_pct_revenue h) (Num 0) /\
              log = [AssumeDeltaNwcZero]
          end
      end.
Proof.
  assert (E : compute_historical_metrics two_year_income two_year_cashflow
                two_year_balance 5 3 =
              Ok (mkHistoricalMetrics 0%R (Num 0.0) None (Num 0.0) (Num 0.0)
                    (Num 0.0) 2, []))
    by (vm_compute; reflexivity).
  eexists _, _. split; [exact E|].
  exact (proj1 (d_nwc_fallback_order two_year_income two_year_cashflow
                  two_year_balance 5 3) _ _ E).
Defined.

End WorkingCapitalRatio.

Section RevenueCagr.
Import Frame Metrics.

Lemma dropna_cells_app (s t : Series) :
  dropna_cells (s ++ t) = dropna_cells s ++ dropna_cells t.
Proof.
  induction s as [|[x|] s IH]; cbn; [reflexivity| |exact IH].
  now rewrite IH.
Qed.

Lemma dropna_cells_rev (s : Series) :
  dropna_cells (rev s) = rev (dropna_cells s).
Proof.
  induction s as [|[x|] s IH]; cbn; [reflexivity| |].
  - rewrite dropna_cells_app, IH. reflexivity.
  - rewrite dropna_cells_app, IH. cbn. now rewrite app_nil_r.
Qed.

Lemma first_valid_dropna (s : Series) :
  first_valid s = hd_error (dropna_cells s).
Proof. induction s as [|[x|] s IH]; cbn; [reflexivity|reflexivity|exact IH]. Qed.

Lemma last_valid_dropna (s : Series) :
  last_valid s = hd_error (rev (dropna_cells s)).
Proof. unfold last_valid. now rewrite first_valid_dropna, dropna_cells_rev. Qed.

Lemma count_valid_dropna (s : Series) :
  count_valid s = List.length (dropna_cells s).
Proof. induction s as [|[x|] s IH]; cbn; [reflexivity| |exact IH]. now rewrite IH. Qed.

Lemma Qle_bool_pos (x : Q) : 0 < x -> Qle_bool x 0 = false.
Proof. intro H. now apply Qle_bool_false. Qed.

(** The cube root of 1.331 is 1.1. *)
Lemma cube_root_example :
  (Rpower (Q2R 133.1 / Q2R 100) (1 / INR 3) - 1 = 0.1)%R.
Proof.
  assert (Hx : (0 < 11 / 10)%R) by Lra.lra.
  replace (Q2R 133.1 / Q2R 100)%R with ((11 / 10) ^ 3)%R
    by (unfold Q2R; cbn; Lra.lra).
  rewrite <- (Rpower_pow 3 _ Hx), Rpower_mult.
  replace (INR 3 * (1 / INR 3))%R with 1%R by (cbn; Lra.lra).
  rewrite (Rpower_1 _ Hx). Lra.lra.
Qed.

End RevenueCagr.

(** ** data_loader.py: the normalized statements *)

Section NormalizedColumns.
Import Frame Utils Loader.

Lemma assoc_set_assoc (c k : string) (s : Series)
  (cols : list (string * Series)) :
  assoc c (set_assoc k s cols) =
  if String.eqb c k then Some s else assoc c cols.
Proof.
  induction cols as [|[k' s'] cols IH]; cbn; [reflexivity|].
  destruct (String.eqb_spec k k') as [<-|Hk]; cbn.
  - destruct (String.eqb c k); reflexivity.
  - rewrite IH.
    destruct (String.eqb_spec c k') as [->|Hc]; [|reflexivity].
    destruct (String.eqb_spec k' k) as [->|_]; [contradiction | reflexivity].
Qed.

Lemma get_set_column (c k : string) (s : Series) (df : DataFrame) :
  get c (set_column k s df) = if String.eqb c k then Some s else get c df.
Proof. apply assoc_set_assoc. Qed.

Lemma get_has_column (c : string) (df : DataFrame) (s : Series) :
  get c df = Some s -> has_column c df = true.
Proof. intro H. apply has_column_get. now exists s. Qed.

Lemma column_names_get (c : string) (df : DataFrame) :
  In c (column_names df) <-> exists s, get c df = Some s.
Proof.
  rewrite <- has_column_get. unfold has_column. rewrite existsb_exists.
  split.
  - intro H. exists c. split; [exact H | apply String.eqb_refl].
  - intros (x & Hx & He). apply String.eqb_eq in He. now subst x.
Qed.

(** A column of the mapped frame is the column of one of its source
    labels, as it is in the raw statement. *)
Lemma map_labels_source (label_map : list (string * string)) (df : DataFrame)
  (c : string) (s : Series) :
  get c (map_labels label_map df) = Some s ->
  exists raw, In (raw, c) label_map /\ get raw df = Some s.
Proof.
  unfold map_labels.
  assert (H : forall acc,
    get c (fold_left (fun normalized (rn : string * string) =>
                        match get (fst rn) df with
                        | Some s0 => set_column (snd rn) s0 normalized
                        | None => normalized
                        end) label_map acc) = Some s ->
    get c acc = Some s \/
    exists raw, In (raw, c) label_map /\ get raw df = Some s).
  { induction label_map as [|[raw norm] lm IH]; intros acc Hg; cbn in Hg.
    - now left.
    - destruct (IH _ Hg) as [Hacc|(raw' & Hin & Hraw)].
      + cbn [fst snd] in Hacc.
        destruct (get raw df) as [s0|] eqn:Er; [|now left].
        rewrite get_set_column in Hacc.
        destruct (String.eqb_spec c norm) as [->|_]; [|now left].
        injection Hacc as ->. right. exists raw. split; [now left | exact Er].
      + right. exists raw'. split; [now right | exact Hraw]. }
  intro Hg. destruct (H _ Hg) as [Hacc|Hsrc]; [discriminate | exact Hsrc].
Qed.

Lemma first_present_source (labels : list string) (norm : string)
  (bs acc : DataFrame) (c : string) (s : Series) :
  get c (first_present labels norm bs acc) = Some s ->
  get c acc = Some s \/
  (c = norm /\ exists raw, In raw labels /\ get raw bs = Some s).
Proof.
  induction labels as [|l labels IH]; cbn; [now left|].
  destruct (get l bs) as [s0|] eqn:El.
  - rewrite get_set_column.
    destruct (String.eqb_spec c norm) as [->|_]; [|now left].
    intros [= ->]. right. split; [reflexivity|].
    exists l. split; [now left | exact El].
  - intro H. destruct (IH H) as [Hacc|(Hc & raw & Hin & Hraw)]; [now left|].
    right. split; [exact Hc|]. exists raw. split; [now right | exact Hraw].
Qed.

Lemma series_abs_nonneg (s : Series) (v : Q) :
  In (Some v) (series_abs s) -> 0 <= v.
Proof.
  unfold series_abs. intro H. apply in_map_iff in H.
  destruct H as ([x|] & Hx & _); [|discriminate].
  injection Hx as <-. apply Qabs_nonneg.
Qed.

Lemma income_label_map_canonical (raw c : string) :
  In (raw, c) income_label_map -> In c INCOME_COLUMNS.
Proof.
  unfold income_label_map. cbn.
  intro H. repeat (destruct H as [[= <- <-]|H]; [tauto|]). destruct H.
Qed.

Lemma cashflow_label_map_canonical (raw c : string) :
  In (raw, c) cashflow_label_map -> In c CASHFLOW_COLUMNS.
Proof.
  unfold cashflow_label_map. cbn.
  intro H. repeat (destruct H as [[= <- <-]|H]; [tauto|]). destruct H.
Qed.

End NormalizedColumns.

Section NormalizedStatementsClaim.
Import Frame Utils Loader.
#[local] Open Scope string_scope.

Lemma canonical_income (c : string) :
  In c INCOME_COLUMNS -> In c canonical_vocabulary.
Proof. intro H. unfold canonical_vocabulary. apply in_or_app. now left. Qed.

Lemma canonical_cashflow (c : string) :
  In c CASHFLOW_COLUMNS -> In c canonical_vocabulary.
Proof.
  intro H. unfold canonical_vocabulary.
  apply in_or_app. right. apply in_or_app. now left.
Qed.

Lemma canonical_balance (c : string) :
  In c BALANCE_COLUMNS -> In c canonical_vocabulary.
Proof.
  intro H. unfold canonical_vocabulary.
  apply in_or_app. right. apply in_or_app. now right.
Qed.

(** The cash-flow statement before the validation: the mapped columns with
    the sign of CapEx removed. *)
Lemma normalize_cashflow_columns (cf : option DataFrame) (c : string)
  (s : Series) :
  get c (fst (normalize_cashflow cf)) = Some s ->
  exists df raw s0,
    cf = Some df /\ In (raw, c) cashflow_label_map /\
    get raw df = Some s0 /\
    s = if String.eqb c "capex" then series_abs s0 else s0.
Proof.
  unfold normalize_cashflow.
  destruct cf as [df|]; [|discriminate].
  destruct (empty df); [discriminate|]. cbn [fst].
  destruct (get "capex" (map_labels cashflow_label_map df)) as [capex|] eqn:Ec.
  - rewrite get_set_column.
    destruct (String.eqb_spec c "capex") as [->|Hc].
    + intros [= <-]. apply map_labels_source in Ec.
      destruct Ec as (raw & Hin & Hraw). now exists df, raw, capex.
    + intro Hg. apply map_labels_source in Hg.
      destruct Hg as (raw & Hin & Hraw). now exists df, raw, s.
  - intro Hg.
    destruct (String.eqb_spec c "capex") as [->|Hc]; [congruence|].
    apply map_labels_source in Hg.
    destruct Hg as (raw & Hin & Hraw). now exists df, raw, s.
Qed.

Lemma normalize_balance_columns (bs : option DataFrame) (c : string)
  (s : Series) :
  get c (fst (normalize_balance bs)) = Some s ->
  In c BALANCE_COLUMNS /\
  exists df raw,
    bs = Some df /\ In raw (balance_sources c) /\ has_column raw df = true.
Proof.
  unfold normalize_balance.
  destruct bs as [df|]; [|discriminate].
  destruct (empty df); [discriminate|]. cbn [fst].
  set (n0 := mkFrame (index df) []).
  set (n1 := first_present _ "current_assets" df n0).
  set (n2 := first_present _ "current_liabilities" df n1).
  set (n3 := first_present _ "cash" df n2).
  assert (H3 : get c n3 = Some s ->
               In c BALANCE_COLUMNS /\
               exists df0 raw, Some df = Some df0 /\
                 In raw (balance_sources c) /\ has_column raw df0 = true).
  { intro Hg.
    apply first_present_source in Hg.
    destruct Hg as [Hg|(-> & raw & Hin & Hraw)];
      [|split; [cbn; tauto|];
        exists df, raw; repeat split;
        [exact Hin | exact (get_has_column _ _ _ Hraw)]].
    apply first_present_source in Hg.
    destruct Hg as [Hg|(-> & raw & Hin & Hraw)];
      [|split; [cbn; tauto|];
        exists df, raw; repeat split;
        [exact Hin | exact (get_has_column _ _ _ Hraw)]].
    apply first_present_source in Hg.
    destruct Hg as [Hg|(-> & raw & Hin & Hraw)];
      [discriminate|split; [cbn; tauto|];
        exists df, raw; repeat split;
        [exact Hin | exact (get_has_column _ _ _ Hraw)]]. }
  assert (Hdebt : forall raw, In raw (balance_sources "total_debt") ->
                  has_column raw df = true ->
                  In "total_debt" BALANCE_COLUMNS /\
                  exists df0 raw0, Some df = Some df0 /\
                    In raw0 (balance_sources "total_debt") /\
                    has_column raw0 df0 = true).
  { intros raw Hin Hraw. split; [cbn; tauto|]. now exists df, raw. }
  destruct (get "Total Debt" df) as [td|] eqn:Etd.
  - rewrite get_set_column.
    destruct (String.eqb_spec c "total_debt") as [->|_]; [|exact H3].
    intros _. apply (Hdebt "Total Debt"); [cbn; tauto|].
    exact (get_has_column _ _ _ Etd).
  - destruct (get "Short Long Term Debt" df) as [sd|] eqn:Esd;
    destruct (get "Long Term Debt" df) as [ld|] eqn:Eld;
      cbn [option_list app sum_series];
      try exact H3;
      rewrite get_set_column;
      (destruct (String.eqb_spec c "total_debt") as [->|_]; [|exact H3]);
      intros _.
    + apply (Hdebt "Short Long Term Debt"); [cbn; tauto|].
      exact (get_has_column _ _ _ Esd).
    + apply (Hdebt "Short Long Term Debt"); [cbn; tauto|].
      exact (get_has_column _ _ _ Esd).
    + apply (Hdebt "Long Term Debt"); [cbn; tauto|].
      exact (get_has_column _ _ _ Eld).
Qed.

(** C8: every column of a normalized income, cash-flow or balance statement
    is in the canonical vocabulary and comes from a source label that the
    raw statement has (a column without a source label present is omitted;
    an income or cash-flow column holds the cells of its source, CapEx their
    absolute values), and no CapEx cell is negative. *)
Theorem normalized_columns_canonical :
  (forall inc c s,
     get c (fst (normalize_income inc)) = Some s ->
     In c canonical_vocabulary /\
     exists raw, In (raw, c) income_label_map /\ get raw inc = Some s) /\
  (forall cf c s,
     get c (fst (normalize_cashflow cf)) = Some s ->
     In c canonical_vocabulary /\
     exists df raw s0,
       cf = Some df /\ In (raw, c) cashflow_label_map /\
       get raw df = Some s0 /\
       s = if String.eqb c "capex" then series_abs s0 else s0) /\
  (forall bs c s,
     get c (fst (normalize_balance bs)) = Some s ->
     In c canonical_vocabulary /\
     exists df raw,
       bs = Some df /\ In raw (balance_sources c) /\
       has_column raw df = true) /\
  (forall cf capex v,
     get "capex" (fst (normalize_cashflow cf)) = Some capex ->
     In (Some v) capex -> 0 <= v).
Proof.
  split; [|split; [|split]].
  - intros inc c s Hg. unfold normalize_income in Hg. cbn [fst] in Hg.
    apply map_labels_source in Hg. destruct Hg as (raw & Hin & Hraw).
    split; [|now exists raw].
    apply canonical_income. exact (income_label_map_canonical raw c Hin).
  - intros cf c s Hg. apply normalize_cashflow_columns in Hg.
    destruct Hg as (df & raw & s0 & Hcf & Hin & Hraw & Hs).
    split; [|now exists df, raw, s0].
    apply canonical_cashflow. exact (cashflow_label_map_canonical raw c Hin).
  - intros bs c s Hg. apply normalize_balance_columns in Hg.
    destruct Hg as (Hc & Hsrc). split; [|exact Hsrc].
    now apply canonical_balance.
  - intros cf capex v Hg Hv. apply normalize_cashflow_columns in Hg.
    destruct Hg as (df & raw & s0 & _ & _ & _ & Hs).
    cbn in Hs. subst capex. exact (series_abs_nonneg s0 v Hv).
Qed.

Lemma normalized_columns_canonical_witness :
  In "capex"%string canonical_vocabulary /\
  (0 <= 5 /\ 0 <= 6).
Proof.
  split.
  - exact (proj1 (proj1 (proj2 normalized_columns_canonical)
                    (Some (raw_cashflow misaligned_raw)) "capex"%string
                    [Some 5; Some 6] eq_refl)).
  - split.
    + exact (proj2 (proj2 (proj2 normalized_columns_canonical))
               (Some (raw_cashflow misaligned_raw)) [Some 5; Some 6] 5
               eq_refl (or_introl eq_refl)).
    + exact (proj2 (proj2 (proj2 normalized_columns_canonical))
               (Some (raw_cashflow misaligned_raw)) [Some 5; Some 6] 6
               eq_refl (or_intror (or_introl eq_refl))).
Defined.

End NormalizedStatementsClaim.

(** ** The loader and the metrics together *)

Section EmptyIntersection.
Import Frame Utils Loader.

(** Statements whose fiscal years do not meet are aligned to frames that
    keep their columns and have no year; the metrics computed from them are
    the defaults, with no error on the way. *)
Lemma misaligned_statements_give_defaults :
  exists n log,
    load misaligned_raw = Ok (n, log) /\
    index (income n) = [] /\
    has_column "revenue" (income n) = true /\
    Metrics.compute_historical_metrics (income n) (cashflow n) (balance n)
      5 3 = Ok (Metrics.default_metrics, [AssumeDeltaNwcZero]).
Proof.
  eexists _, _. split; [vm_compute; reflexivity|].
  repeat split; vm_compute; reflexivity.
Qed.

End EmptyIntersection.

(** * Further properties *)

(** ** dcf.py: the present value of the explicit cash flows *)

Section DiscountedCashFlows.
Import Forecast DCF Reference.

Lemma py_range_cons (lo hi : Z) :
  (lo < hi)%Z -> py_range lo hi = lo :: py_range (lo + 1) hi.
Proof.
  intro H. unfold py_range.
  replace (Z.to_nat (hi - lo)) with (S (Z.to_nat (hi - (lo + 1)))) by lia.
  cbn [seq map]. f_equal; [lia|].
  rewrite <- seq_shift, map_map. apply map_ext. intro k. lia.
Qed.

Lemma py_range_nil (lo hi : Z) : (hi <= lo)%Z -> py_range lo hi = [].
Proof.
  intro H. unfold py_range.
  replace (Z.to_nat (hi - lo)) with O by lia. reflexivity.
Qed.

Lemma np_sum_nonfinite (l : list npfloat) : fold_left np_add l NonFin = NonFin.
Proof. induction l as [|x l IH]; [reflexivity | exact IH]. Qed.

Lemma np_div_finite (x y : Q) : ~ y == 0 -> np_div x y = Fin (x / y).
Proof.
  intro H. unfold np_div. destruct (Qeq_bool y 0) eqn:E; [|reflexivity].
  apply Qeq_bool_iff in E. contradiction.
Qed.

Lemma np_div_by_zero (x y : Q) : y == 0 -> np_div x y = NonFin.
Proof. intro H. unfold np_div. apply Qeq_bool_iff in H. now rewrite H. Qed.

Lemma np_add_finite (a b : Q) : np_add (Fin a) (Fin b) = Fin (a + b).
Proof. reflexivity. Qed.

Lemma discounted_fold (wacc : Q) (xs : list Q) (t : Z) (acc : Q) :
  ~ 1 + wacc == 0 ->
  exists s,
    fold_left np_add
      (zip_with np_div xs
         (map (fun k => (1 + wacc) ^ k)
              (py_range t (t + Z.of_nat (List.length xs)))))
      (Fin acc) = Fin s /\
    s == acc + discounted_sum t xs wacc.
Proof.
  intro Hw. revert t acc.
  induction xs as [|x xs IH]; intros t acc.
  - exists acc. split; [reflexivity | cbn; ring].
  - rewrite py_range_cons by (cbn [List.length]; lia).
    cbn [map zip_with fold_left].
    rewrite np_div_finite by now apply Qpower_not_0.
    rewrite np_add_finite.
    replace (t + Z.of_nat (List.length (x :: xs)))%Z
      with (t + 1 + Z.of_nat (List.length xs))%Z
      by (cbn [List.length]; lia).
    destruct (IH (t + 1)%Z (acc + x / (1 + wacc) ^ t)) as (s & Hs & Es).
    exists s. split; [exact Hs|]. rewrite Es. cbn [discounted_sum]. ring.
Qed.

Lemma discount_cashflows_sum (forecast_df : list ForecastRow) (wacc : Q) :
  ~ wacc == -1 ->
  exists pv,
    discount_cashflows forecast_df wacc = Fin pv /\
    pv == discounted_sum 1 (map fcff forecast_df) wacc.
Proof.
  intro Hw. unfold discount_cashflows, np_sum.
  destruct (discounted_fold wacc (map fcff forecast_df) 1 0) as (s & Hs & Es);
    [lra|].
  rewrite length_map, Z.add_comm in Hs.
  exists s. split; [exact Hs|]. rewrite Es. ring.
Qed.

(** The present value of the explicit cash flows is the sum of FCFF_t /
    (1 + WACC)^t for t = 1..N, the first forecast year discounted by one
    period; it is 0 for an empty forecast, and not a finite number when the
    WACC is -100% and there is a cash flow to discount. *)
Theorem discount_cashflows_closed_form (forecast_df : list ForecastRow)
  (wacc : Q) :
  (~ wacc == -1 ->
   exists pv,
     discount_cashflows forecast_df wacc = Fin pv /\
     pv == discounted_sum 1 (map fcff forecast_df) wacc) /\
  (wacc == -1 -> forecast_df <> [] ->
   discount_cashflows forecast_df wacc = NonFin) /\
  discount_cashflows [] wacc = Fin 0.
Proof.
  split; [|split; [|reflexivity]].
  - apply discount_cashflows_sum.
  - intros Hw Hne. destruct forecast_df as [|r rows]; [congruence|].
    unfold discount_cashflows, np_sum.
    rewrite py_range_cons by (cbn [List.length]; lia).
    cbn [map zip_with fold_left].
    rewrite np_div_by_zero by (rewrite Qpower_1_r; lra).
    apply np_sum_nonfinite.
Qed.

Lemma discount_cashflows_closed_form_witness :
  exists pv,
    discount_cashflows one_year_forecast 0.09 = Fin pv /\
    pv == discounted_sum 1 [100] 0.09.
Proof.
  apply (proj1 (discount_cashflows_closed_form one_year_forecast 0.09)).
  discriminate.
Defined.

End DiscountedCashFlows.

(** ** dcf.py: the cost of capital *)

Section CostOfCapital.
Import Forecast DCF.

(** With non-negative weights that sum to 1 the WACC is a weighted mean: it
    lies between the after-tax cost of debt and the cost of equity. *)
Theorem compute_wacc_between (inp : ValuationInputs)
  (equity_weight debt_weight : Q) :
  0 <= equity_weight -> 0 <= debt_weight ->
  equity_weight + debt_weight == 1 ->
  let ce := rf inp + beta inp * erp inp in
  let cd := cost_of_debt inp * (1 - tax_rate inp) in
  Qmin ce cd <= compute_wacc inp equity_weight debt_weight /\
  compute_wacc inp equity_weight debt_weight <= Qmax ce cd.
Proof.
  intros He Hd Hsum ce cd. unfold compute_wacc. fold ce. fold cd.
  assert (Hw : equity_weight * ce + debt_weight * cd ==
               cd + equity_weight * (ce - cd)).
  { setoid_replace debt_weight with (1 - equity_weight) by lra. ring. }
  assert (Hw' : equity_weight * ce + debt_weight * cd ==
                ce + debt_weight * (cd - ce)).
  { setoid_replace equity_weight with (1 - debt_weight) by lra. ring. }
  destruct (Qlt_le_dec ce cd) as [Hlt|Hge].
  - rewrite Q.min_l, Q.max_r by lra. split.
    + rewrite Hw'.
      pose proof (Qmult_le_0_compat _ _ Hd (proj1 (Qle_minus_iff ce cd)
                                              (Qlt_le_weak _ _ Hlt))).
      lra.
    + rewrite Hw.
      pose proof (Qmult_le_0_compat _ _ He (proj1 (Qle_minus_iff ce cd)
                                              (Qlt_le_weak _ _ Hlt))).
      lra.
  - rewrite Q.min_r, Q.max_l by lra. split.
    + rewrite Hw.
      pose proof (Qmult_le_0_compat _ _ He (proj1 (Qle_minus_iff cd ce) Hge)).
      lra.
    + rewrite Hw'.
      pose proof (Qmult_le_0_compat _ _ Hd (proj1 (Qle_minus_iff cd ce) Hge)).
      lra.
Qed.

Lemma compute_wacc_between_witness :
  Qmin (0.04 + 1.10 * 0.05) (0.05 * (1 - 0.25)) <=
    compute_wacc dashboard_inputs 0.7 0.3 /\
  compute_wacc dashboard_inputs 0.7 0.3 <=
    Qmax (0.04 + 1.10 * 0.05) (0.05 * (1 - 0.25)).
Proof.
  apply (compute_wacc_between dashboard_inputs 0.7 0.3);
    [discriminate | discriminate | reflexivity].
Defined.

End CostOfCapital.

(** ** dcf.py: how the terminal value moves with its two rates *)

Section TerminalValueMonotone.
Import Forecast DCF.

Lemma Qdiv_pos (a b : Q) : 0 < a -> 0 < b -> 0 < a / b.
Proof.
  intros Ha Hb. apply Qlt_shift_div_l; [exact Hb | lra].
Qed.

(** A positive number divided by a larger positive number is smaller. *)
Lemma Qdiv_lt_divisor (a b b' : Q) :
  0 < a -> 0 < b -> b < b' -> a / b' < a / b.
Proof.
  intros Ha Hb Hbb'.
  apply Qlt_shift_div_r; [lra|].
  assert (E : a / b * b' == a + a / b * (b' - b)) by (field; lra).
  rewrite E.
  assert (H : 0 < a / b * (b' - b))
    by (apply Qmult_lt_0_compat; [now apply Qdiv_pos | lra]).
  lra.
Qed.

Lemma Qdiv_lt_dividend (a a' b : Q) : 0 < b -> a < a' -> a / b < a' / b.
Proof.
  intros Hb Ha. unfold Qdiv.
  apply Qmult_lt_compat_r; [now apply Qinv_lt_0_compat | exact Ha].
Qed.

Lemma Qpower_lt_base (a b : Q) (n : nat) :
  0 < a -> a < b -> (0 < n)%nat -> a ^ Z.of_nat n < b ^ Z.of_nat n.
Proof.
  intros Ha Hab Hn. destruct n as [|n]; [lia|]. clear Hn.
  induction n as [|n IH].
  - change (Z.of_nat 1) with 1%Z. rewrite !Qpower_1_r. exact Hab.
  - rewrite (Qpower_succ_nat a (S n)), (Qpower_succ_nat b (S n)).
    apply Qmult_lt_compat_nonneg.
    + split; [apply Qpower_0_le; lra | exact IH].
    + split; [lra | exact Hab].
Qed.

(** For a positive last cash flow and a terminal growth above -100%, a
    higher WACC gives a strictly lower terminal value; and for a WACC above
    -100%, a higher terminal growth (still below the WACC) gives a strictly
    higher one. *)
Theorem terminal_gordon_monotone (front : list ForecastRow)
  (last_row : ForecastRow) :
  0 < fcff last_row ->
  (forall g w1 w2 v1 v2,
     -1 < g -> g < w1 -> w1 < w2 ->
     terminal_gordon (front ++ [last_row]) w1 g = Ok v1 ->
     terminal_gordon (front ++ [last_row]) w2 g = Ok v2 ->
     v2 < v1) /\
  (forall w g1 g2 v1 v2,
     -1 < w -> g1 < g2 -> g2 < w ->
     terminal_gordon (front ++ [last_row]) w g1 = Ok v1 ->
     terminal_gordon (front ++ [last_row]) w g2 = Ok v2 ->
     v1 < v2).
Proof.
  intro HF.
  set (N := Z.of_nat (List.length (front ++ [last_row]))).
  assert (HN : (0 < List.length (front ++ [last_row]))%nat)
    by (rewrite length_app; cbn; lia).
  split.
  - intros g w1 w2 v1 v2 Hg Hw1 Hw12 H1 H2.
    rewrite terminal_gordon_above_growth in H1 by lra.
    rewrite terminal_gordon_above_growth in H2 by lra.
    injection H1 as <-. injection H2 as <-. fold N.
    assert (HA : 0 < fcff last_row * (1 + g))
      by (apply Qmult_lt_0_compat; lra).
    assert (HP : (1 + w1) ^ N < (1 + w2) ^ N)
      by (apply Qpower_lt_base; [lra | lra | exact HN]).
    assert (HP1 : 0 < (1 + w1) ^ N) by (apply Qpower_0_lt; lra).
    apply Qlt_trans with (fcff last_row * (1 + g) / (w1 - g) / (1 + w2) ^ N).
    + apply Qdiv_lt_dividend; [lra|].
      apply Qdiv_lt_divisor; lra.
    + apply Qdiv_lt_divisor; [|exact HP1|exact HP].
      apply Qdiv_pos; lra.
  - intros w g1 g2 v1 v2 Hw Hg12 Hg2 H1 H2.
    rewrite terminal_gordon_above_growth in H1 by lra.
    rewrite terminal_gordon_above_growth in H2 by lra.
    injection H1 as <-. injection H2 as <-. fold N.
    assert (HP : 0 < (1 + w) ^ N) by (apply Qpower_0_lt; lra).
    apply Qdiv_lt_dividend; [exact HP|].
    apply Qlt_shift_div_l; [lra|].
    assert (E : fcff last_row * (1 + g1) / (w - g1) * (w - g2) ==
                fcff last_row * (1 + g2) -
                fcff last_row * ((g2 - g1) * (1 + w)) / (w - g1))
      by (field; lra).
    rewrite E.
    assert (H : 0 < fcff last_row * ((g2 - g1) * (1 + w)) / (w - g1)).
    { apply Qdiv_pos; [|lra].
      apply Qmult_lt_0_compat; [exact HF|].
      apply Qmult_lt_0_compat; lra. }
    lra.
Qed.

Lemma terminal_gordon_monotone_witness :
  exists v1 v2,
    terminal_gordon one_year_forecast 0.09 0.02 = Ok v1 /\
    terminal_gordon one_year_forecast 0.10 0.02 = Ok v2 /\
    v2 < v1.
Proof.
  eexists _, _. split; [reflexivity|]. split; [reflexivity|].
  apply (proj1 (terminal_gordon_monotone []
                  (mkRow 2024 1000 200 150 30 40 10 100) eq_refl)
           0.02 0.09 0.10); reflexivity.
Defined.

End TerminalValueMonotone.

(** ** dcf.py: the exit multiple and the values of a result *)

Section ValuationResult.
Import Forecast DCF Reference ValuationReference.

Lemma run_dcf_parts forecast_df val_inp equity_weight debt_weight
  terminal_growth shares_outstanding exit_multiple exit_metric tv log sens :
  terminal_gordon forecast_df
    (compute_wacc val_inp equity_weight debt_weight) terminal_growth = Ok tv ->
  exit_multiple_check forecast_df
    (compute_wacc val_inp equity_weight debt_weight)
    exit_multiple exit_metric = Ok log ->
  pivot (sens_rows forecast_df
           (compute_wacc val_inp equity_weight debt_weight)
           terminal_growth) = Ok sens ->
  exists r,
    run_dcf forecast_df val_inp equity_weight debt_weight terminal_growth
      shares_outstanding exit_multiple exit_metric = Ok (r, log) /\
    forall exit_multiple' exit_metric' log',
      exit_multiple_check forecast_df
        (compute_wacc val_inp equity_weight debt_weight)
        exit_multiple' exit_metric' = Ok log' ->
      run_dcf forecast_df val_inp equity_weight debt_weight terminal_growth
        shares_outstanding exit_multiple' exit_metric' = Ok (r, log').
Proof.
  intros Htv Hlog Hsens. unfold run_dcf. cbv zeta.
  rewrite Htv, Hlog, Hsens. cbn [bind].
  eexists. split; [reflexivity|].
  intros em' metric' log' Hlog'. rewrite Hlog'. reflexivity.
Qed.

(** The exit multiple is advisory: a run that returns with it returns the
    same result without it, and a run that returns without it returns the
    same result with it, logging the discounted exit value; but an
    exit-metric series without elements makes the run raise IndexError. *)
Theorem run_dcf_exit_multiple forecast_df val_inp equity_weight debt_weight
  terminal_growth shares_outstanding :
  (forall exit_multiple exit_metric r log,
     run_dcf forecast_df val_inp equity_weight debt_weight terminal_growth
       shares_outstanding exit_multiple exit_metric = Ok (r, log) ->
     run_dcf forecast_df val_inp equity_weight debt_weight terminal_growth
       shares_outstanding None None = Ok (r, [])) /\
  (forall m metric final_metric r,
     run_dcf forecast_df val_inp equity_weight debt_weight terminal_growth
       shares_outstanding None None = Ok (r, []) ->
     run_dcf forecast_df val_inp equity_weight debt_weight terminal_growth
       shares_outstanding (Some m) (Some (metric ++ [final_metric])) =
     Ok (r, [ExitMultipleAlternative
               (final_metric * m /
                (1 + r_wacc r) ^ Z.of_nat (List.length forecast_df))])) /\
  (forall m tv,
     terminal_gordon forecast_df
       (compute_wacc val_inp equity_weight debt_weight) terminal_growth =
     Ok tv ->
     run_dcf forecast_df val_inp equity_weight debt_weight terminal_growth
       shares_outstanding (Some m) (Some []) = Raise IndexError).
Proof.
  split; [|split].
  - intros em metric r log H.
    unfold run_dcf in H. cbv zeta in H.
    apply bind_ok_inv in H. destruct H as (tv & Htv & H).
    apply bind_ok_inv in H. destruct H as (lg & Hlg & H).
    apply bind_ok_inv in H. destruct H as (sens & Hsens & H).
    destruct (run_dcf_parts forecast_df val_inp equity_weight debt_weight
                terminal_growth shares_outstanding em metric tv lg sens
                Htv Hlg Hsens) as (r' & Hr' & Hany).
    unfold run_dcf in Hr'. cbv zeta in Hr'.
    rewrite Htv, Hlg, Hsens in Hr'. cbn [bind] in Hr'.
    rewrite Hr' in H. injection H as <- <-.
    apply Hany. reflexivity.
  - intros m metric final_metric r H.
    pose proof H as H0.
    apply run_dcf_ok_inv in H0.
    destruct H0 as (tv & sens & Htv & Hsens & Hw & _).
    destruct (run_dcf_parts forecast_df val_inp equity_weight debt_weight
                terminal_growth shares_outstanding None None tv [] sens
                Htv eq_refl Hsens) as (r' & Hr' & Hany).
    rewrite Hr' in H. injection H as <-.
    apply Hany. unfold exit_multiple_check. rewrite rev_unit.
    apply terminal_gordon_ok_inv in Htv. destruct Htv as (_ & Hne & _).
    rewrite py_div_ok by (apply Qpower_not_0; lra).
    cbn [bind]. now rewrite Hw.
  - intros m tv Htv. unfold run_dcf. cbv zeta. rewrite Htv. reflexivity.
Qed.

Lemma run_dcf_exit_multiple_witness :
  run_dcf sample_forecast dashboard_inputs 0.7 0.3 0.02 (Some 1000)
    (Some 8) (Some [30; 40]) =
  Ok (sample_result,
      [ExitMultipleAlternative
         (40 * 8 / (1 + r_wacc sample_result) ^ 5)]) /\
  run_dcf sample_forecast dashboard_inputs 0.7 0.3 0.02 (Some 1000)
    (Some 8) (Some []) = Raise IndexError.
Proof.
  split.
  - exact (proj1 (proj2 (run_dcf_exit_multiple sample_forecast
                           dashboard_inputs 0.7 0.3 0.02 (Some 1000)))
             8 [30] 40 sample_result sample_result_run).
  - destruct (run_dcf_ok_inv _ _ _ _ _ _ _ _ _ _ sample_result_run)
      as (tv & _ & Htv & _).
    exact (proj2 (proj2 (run_dcf_exit_multiple sample_forecast
                           dashboard_inputs 0.7 0.3 0.02 (Some 1000)))
             8 tv Htv).
Defined.

(** The values of a returned result, for a forecast of finite cash flows
    (the rows of [ForecastRow]): the WACC is not -100%, the terminal value
    raising first there, so that no discount factor is zero and the present
    value is the discounted sum of the cash flows; the enterprise value is
    present value plus terminal value, the equity value is the enterprise
    value minus a known net debt, and the value per share times a positive
    share count gives back the equity value; a share count that is not
    positive is passed over without an error. *)
Theorem run_dcf_values forecast_df val_inp equity_weight debt_weight
  terminal_growth shares_outstanding exit_multiple exit_metric r log :
  run_dcf forecast_df val_inp equity_weight debt_weight terminal_growth
    shares_outstanding exit_multiple exit_metric = Ok (r, log) ->
  ~ r_wacc r == -1 /\
  exists pv,
    r_pv_fcff r = Fin pv /\
    pv == discounted_sum 1 (map fcff forecast_df) (r_wacc r) /\
    r_enterprise_value r = Fin (pv + r_terminal_value r) /\
    (forall nd, net_debt val_inp = Some nd ->
       r_equity_value r = Some (Fin (pv + r_terminal_value r - nd)) /\
       (forall s, shares_outstanding = Some s -> 0 < s ->
          exists ps,
            r_intrinsic_per_share r = Some (Fin ps) /\
            ps * s == pv + r_terminal_value r - nd) /\
       (forall s, shares_outstanding = Some s -> s <= 0 ->
          r_intrinsic_per_share r = None)).
Proof.
  intro H. apply run_dcf_ok_inv in H.
  destruct H as (tv & sens & Htv & Hsens & Hw & Hpv & Ht & Hev & Heq & Hps
                 & _ & _).
  apply terminal_gordon_ok_inv in Htv. destruct Htv as (_ & Hne & _).
  destruct (discount_cashflows_sum forecast_df
              (compute_wacc val_inp equity_weight debt_weight) Hne)
    as (pv & Hfin & Hsum).
  split; [now rewrite Hw|].
  exists pv. rewrite Hpv, Hw, Ht.
  split; [exact Hfin|]. split; [exact Hsum|].
  rewrite Hpv, Hfin in Hev. cbn in Hev.
  split; [exact Hev|].
  intros nd Hnd. rewrite Hnd, Hev in Heq. cbn in Heq.
  split; [exact Heq|]. rewrite Heq in Hps. split.
  - intros s -> Hs. rewrite (proj2 (Qltb_lt 0 s) Hs) in Hps. cbn in Hps.
    eexists. split; [exact Hps|]. field. lra.
  - intros s -> Hs. now rewrite (proj2 (Qltb_ge 0 s) Hs) in Hps.
Qed.

Lemma indebted_result_run :
  run_dcf sample_forecast indebted_inputs 0.7 0.3 0.02 (Some 1000)
    None None = Ok (indebted_result, []).
Proof. vm_compute. reflexivity. Qed.

Lemma unlisted_result_run :
  run_dcf sample_forecast indebted_inputs 0.7 0.3 0.02 (Some 0)
    None None = Ok (unlisted_result, []).
Proof. vm_compute. reflexivity. Qed.

Lemma run_dcf_values_witness :
  (exists pv ps,
     r_pv_fcff indebted_result = Fin pv /\
     r_enterprise_value indebted_result =
       Fin (pv + r_terminal_value indebted_result) /\
     r_equity_value indebted_result =
       Some (Fin (pv + r_terminal_value indebted_result - 200)) /\
     r_intrinsic_per_share indebted_result = Some (Fin ps) /\
     ps * 1000 == pv + r_terminal_value indebted_result - 200) /\
  r_intrinsic_per_share unlisted_result = None.
Proof.
  split.
  - destruct (run_dcf_values _ _ _ _ _ _ _ _ _ _ indebted_result_run)
      as (_ & pv & Hpv & _ & Hev & Hnd).
    destruct (Hnd 200 eq_refl) as (Heq & Hps & _).
    destruct (Hps 1000 eq_refl ltac:(reflexivity)) as (ps & Hp & Hmul).
    exists pv, ps. repeat split; assumption.
  - destruct (run_dcf_values _ _ _ _ _ _ _ _ _ _ unlisted_result_run)
      as (_ & pv & _ & _ & _ & Hnd).
    destruct (Hnd 200 eq_refl) as (_ & _ & Hzero).
    apply (Hzero 0 eq_refl). discriminate.
Defined.

End ValuationResult.
(** ** dcf.py: the sensitivity grid away from the repeated points *)

Section SensitivityGridComplete.
Import Forecast DCF.

Lemma run_dcf_grid_complete_witness :
  exists r,
    run_dcf sample_forecast dashboard_inputs 0.7 0.3 0.02 None None None =
      Ok (r, []) /\
    List.length (pivot_index (r_sensitivity r)) = 5%nat /\
    List.length (pivot_columns (r_sensitivity r)) = 5%nat.
Proof.
  destruct (run_dcf_grid_complete (firstn 4 sample_forecast)
              (nth 4 sample_forecast (mkRow 0 0 0 0 0 0 0 0))
              dashboard_inputs 0.7 0.3 0.02 None)
    as (r & E & Li & Lc & _).
  - vm_compute. reflexivity.
  - vm_compute. discriminate.
  - left. vm_compute. reflexivity.
  - left. vm_compute. reflexivity.
  - exists r. split; [exact E|]. split; [exact Li | exact Lc].
Defined.

End SensitivityGridComplete.

(** ** forecast.py: the horizon and the lines of the forecast *)

Section ForecastLines.
Import Assumptions Forecast ForecastReference.

(** A horizon that is not positive gives no row, and indexing the empty
    table by year raises: no empty forecast is ever returned. *)
Theorem build_forecast_needs_a_year (Y : Z) (R0 : Q) (a : Assumptions) :
  ((years a <= 0)%Z -> build_forecast Y R0 a = Raise (KeyError "year")) /\
  (forall rows, build_forecast Y R0 a = Ok rows -> rows <> []).
Proof.
  split.
  - intro H. unfold build_forecast.
    rewrite py_range_nil by lia. reflexivity.
  - intros rows H ->. unfold build_forecast in H.
    destruct (forecast_loop a _ R0 []); discriminate.
Qed.

Lemma build_forecast_needs_a_year_witness :
  build_forecast 2023 100
    (mkAssumptions 0 0.05 0.2 0.25 0.03 0.04 0.01 0.02 false None) =
  Raise (KeyError "year").
Proof.
  apply (proj1 (build_forecast_needs_a_year 2023 100
                  (mkAssumptions 0 0.05 0.2 0.25 0.03 0.04 0.01 0.02
                     false None))).
  cbn [years]. lia.
Defined.

Lemma forecast_row_ebit_mode (a : Assumptions) (y : Z) (rv : Q) :
  ebit_mode a ->
  forecast_row a y rv =
  mkRow y rv (ebit_margin a * rv)
    (ebit_margin a * rv * (1 - tax_rate a))
    (da_pct_revenue a * rv) (capex_pct_revenue a * rv)
    (d_nwc_pct_revenue a * rv)
    (ebit_margin a * rv * (1 - tax_rate a) + da_pct_revenue a * rv
     - capex_pct_revenue a * rv - d_nwc_pct_revenue a * rv).
Proof.
  unfold forecast_row. intros [H|H]; rewrite H; [reflexivity|].
  destruct (use_ebitda_margin a); reflexivity.
Qed.

(** On the EBIT-margin path every line of the forecast is a fixed share of
    revenue: the free cash flow of year i is the FCFF margin times
    R * (1 + g)^i, NOPAT is EBIT after tax, and the free cash flow is
    NOPAT plus D&A minus CapEx minus the change in working capital. *)
Theorem build_forecast_constant_margins (Y : Z) (R0 : Q) (a : Assumptions)
  (rows : list ForecastRow) :
  ebit_mode a ->
  build_forecast Y R0 a = Ok rows ->
  forall i, (1 <= i <= years a)%Z ->
    exists r,
      nth_error rows (Z.to_nat (i - 1)) = Some r /\
      fcff r == fcff_margin a * (R0 * (1 + revenue_growth a) ^ i) /\
      fcff r == nopat r + da r - capex r - d_nwc r /\
      nopat r == ebit r * (1 - tax_rate a) /\
      ebit r == ebit_margin a * revenue r.
Proof.
  intros Hmode Hb i Hi.
  apply build_forecast_rows in Hb. subst rows.
  set (ys := map (fun k => (Y + k)%Z) (py_range 1 (years a + 1))).
  assert (Hy : nth_error ys (Z.to_nat (i - 1)) = Some (Y + i)%Z).
  { unfold ys. rewrite nth_error_map, py_range_nth by lia.
    cbn [option_map]. f_equal. lia. }
  destruct (forecast_loop_nth a ys R0 _ _ Hy) as (r & Hr & _ & Hv).
  exists r. split; [exact Hr|].
  replace (Z.of_nat (S (Z.to_nat (i - 1)))) with i in Hv by lia.
  apply nth_error_In, forecast_loop_rows in Hr.
  destruct Hr as (y & rv & ->).
  rewrite forecast_row_ebit_mode in * by exact Hmode.
  cbn [fcff nopat da capex d_nwc ebit revenue] in *.
  unfold fcff_margin. rewrite <- Hv.
  repeat split; ring.
Qed.

Lemma build_forecast_constant_margins_witness :
  exists r,
    nth_error DCF.sample_forecast 1 = Some r /\
    fcff r == fcff_margin sample_base * (100 * (1 + 0.05) ^ 2).
Proof.
  destruct (build_forecast_constant_margins 2023 100 sample_base
              DCF.sample_forecast (or_introl eq_refl) eq_refl 2)
    as (r & Hr & Hf & _).
  - unfold sample_base. cbn [years]. lia.
  - exists r. split; [exact Hr | exact Hf].
Defined.

End ForecastLines.
(** ** forecast.py and assumptions.py: what a forecast depends on *)

Section ForecastDependence.
Import Assumptions Forecast ForecastReference.

Lemma forecast_loop_ext (a b : Assumptions) (ys : list Z) (rev0 : Q)
  (rows : list ForecastRow) :
  revenue_growth a = revenue_growth b ->
  (forall y rv, forecast_row a y rv = forecast_row b y rv) ->
  forecast_loop a ys rev0 rows = forecast_loop b ys rev0 rows.
Proof.
  intros Hg Hrow. revert rev0 rows.
  induction ys as [|y ys IH]; intros rev0 rows; cbn [forecast_loop].
  - reflexivity.
  - cbv zeta. rewrite Hg, Hrow. apply IH.
Qed.

Lemma build_forecast_ext (Y : Z) (R0 : Q) (a b : Assumptions) :
  years a = years b ->
  revenue_growth a = revenue_growth b ->
  (forall y rv, forecast_row a y rv = forecast_row b y rv) ->
  build_forecast Y R0 a = build_forecast Y R0 b.
Proof.
  intros Hy Hg Hrow. unfold build_forecast. cbv zeta.
  rewrite Hy, (forecast_loop_ext a b _ _ _ Hg Hrow). reflexivity.
Qed.

(** The margin of the path not taken has no effect on the forecast:
    on the EBITDA path the EBIT margin is never read, and with the EBITDA
    flag off the EBITDA margin is never read. *)
Theorem build_forecast_unused_margin (Y : Z) (R0 : Q) (a : Assumptions) :
  (ebitda_mode a ->
   forall m, build_forecast Y R0 (with_ebit_margin a m) =
             build_forecast Y R0 a) /\
  (use_ebitda_margin a = false ->
   forall m, build_forecast Y R0 (with_ebitda_margin a m) =
             build_forecast Y R0 a).
Proof.
  split.
  - intros [Hflag [m0 Hm]] m.
    apply build_forecast_ext; try reflexivity.
    intros y rv. unfold forecast_row, with_ebit_margin.
    cbn [use_ebitda_margin ebitda_margin ebit_margin tax_rate da_pct_revenue
         capex_pct_revenue d_nwc_pct_revenue].
    rewrite Hflag, Hm. reflexivity.
  - intros Hflag m.
    apply build_forecast_ext; try reflexivity.
    intros y rv. unfold forecast_row, with_ebitda_margin.
    cbn [use_ebitda_margin ebitda_margin ebit_margin tax_rate da_pct_revenue
         capex_pct_revenue d_nwc_pct_revenue].
    rewrite Hflag. reflexivity.
Qed.

Lemma build_forecast_unused_margin_witness :
  build_forecast 2023 100 (with_ebit_margin ebitda_case 0.9) =
  build_forecast 2023 100 ebitda_case.
Proof.
  apply (proj1 (build_forecast_unused_margin 2023 100 ebitda_case)).
  split; [reflexivity | now exists 0.03].
Defined.

Lemma Qpower_le_base (x y : Q) (n : nat) :
  0 <= x -> x <= y -> x ^ Z.of_nat n <= y ^ Z.of_nat n.
Proof.
  intros Hx Hxy. induction n as [|n IH].
  - cbn. lra.
  - rewrite (Qpower_succ_nat x n), (Qpower_succ_nat y n).
    apply Qle_trans with (x ^ Z.of_nat n * y).
    + assert (H : 0 <= x ^ Z.of_nat n) by (apply Qpower_0_le; exact Hx).
      nra.
    + assert (H : 0 <= y) by lra. nra.
Qed.

Lemma build_forecast_nth (Y : Z) (R0 : Q) (a : Assumptions)
  (rows : list ForecastRow) (k : nat) (r : ForecastRow) :
  build_forecast Y R0 a = Ok rows ->
  nth_error rows k = Some r ->
  (Z.of_nat k < years a)%Z /\
  year r = (Y + 1 + Z.of_nat k)%Z /\
  revenue r == R0 * (1 + revenue_growth a) ^ Z.of_nat (S k).
Proof.
  intros Hb Hr. apply build_forecast_rows in Hb. subst rows.
  assert (Hk : (k < List.length
                      (map (fun i => (Y + i)%Z)
                           (py_range 1 (years a + 1))))%nat).
  { rewrite <- (forecast_loop_length a _ R0).
    apply nth_error_Some. congruence. }
  rewrite length_map, py_range_length in Hk.
  assert (Hy : nth_error (map (fun i => (Y + i)%Z)
                              (py_range 1 (years a + 1))) k =
               Some (Y + 1 + Z.of_nat k)%Z).
  { rewrite nth_error_map, py_range_nth by lia.
    cbn [option_map]. f_equal. lia. }
  destruct (forecast_loop_nth a _ R0 _ _ Hy) as (r' & Hr' & Hyr & Hv).
  rewrite Hr in Hr'. injection Hr' as <-.
  split; [lia|]. split; [exact Hyr | exact Hv].
Qed.

Lemma build_forecast_has_row (Y : Z) (R0 : Q) (a : Assumptions)
  (rows : list ForecastRow) (k : nat) :
  build_forecast Y R0 a = Ok rows ->
  (Z.of_nat k < years a)%Z ->
  exists r, nth_error rows k = Some r.
Proof.
  intros Hb Hk. apply build_forecast_rows in Hb. subst rows.
  assert (Hy : nth_error (map (fun i => (Y + i)%Z)
                              (py_range 1 (years a + 1))) k =
               Some (Y + 1 + Z.of_nat k)%Z).
  { rewrite nth_error_map, py_range_nth by lia.
    cbn [option_map]. f_equal. lia. }
  destruct (forecast_loop_nth a _ R0 _ _ Hy) as (r & Hr & _).
  now exists r.
Qed.

(** For a non-negative last revenue and a Base growth of -10% or
    more, the three scenarios forecast the same years and in every year the
    Bear revenue is at most the Base revenue, which is at most the Bull
    revenue. *)
Theorem scenario_revenue_ordering (Y : Z) (R0 : Q) (base : Assumptions)
  (rows bull bear : list ForecastRow) :
  0 <= R0 -> -0.1 <= revenue_growth base ->
  build_forecast Y R0 base = Ok rows ->
  build_forecast Y R0 (bull_of base) = Ok bull ->
  build_forecast Y R0 (bear_of base) = Ok bear ->
  forall k r, nth_error rows k = Some r ->
    exists r_bull r_bear,
      nth_error bull k = Some r_bull /\ nth_error bear k = Some r_bear /\
      year r_bull = year r /\ year r_bear = year r /\
      revenue r_bear <= revenue r /\ revenue r <= revenue r_bull.
Proof.
  intros HR Hg Hbase Hbull Hbear k r Hr.
  destruct (build_forecast_nth _ _ _ _ _ _ Hbase Hr) as (Hk & Hy & Hv).
  destruct (build_forecast_has_row Y R0 (bull_of base) bull k Hbull Hk)
    as [rb Hrb].
  destruct (build_forecast_has_row Y R0 (bear_of base) bear k Hbear Hk)
    as [rr Hrr].
  destruct (build_forecast_nth _ _ _ _ _ _ Hbull Hrb) as (_ & Hyb & Hvb).
  destruct (build_forecast_nth _ _ _ _ _ _ Hbear Hrr) as (_ & Hyr & Hvr).
  exists rb, rr. split; [exact Hrb|]. split; [exact Hrr|].
  split; [congruence|]. split; [congruence|].
  rewrite Hv, Hvb, Hvr.
  cbn [bull_of bear_of revenue_growth].
  assert (Hbear_g : py_max (revenue_growth base - 0.03) (-0.1) ==
                    Qmax (revenue_growth base - 0.03) (-0.1))
    by (apply py_max_Qmax; reflexivity).
  assert (Hlo : -0.1 <= py_max (revenue_growth base - 0.03) (-0.1))
    by (rewrite Hbear_g; apply Q.le_max_r).
  assert (Hhi : py_max (revenue_growth base - 0.03) (-0.1) <=
                revenue_growth base)
    by (rewrite Hbear_g; apply Q.max_lub; lra).
  set (gb := py_max (revenue_growth base - 0.03) (-0.1)) in *.
  assert (P1 : (1 + gb) ^ Z.of_nat (S k) <=
               (1 + revenue_growth base) ^ Z.of_nat (S k))
    by (apply Qpower_le_base; lra).
  assert (P2 : (1 + revenue_growth base) ^ Z.of_nat (S k) <=
               (1 + (revenue_growth base + 0.03)) ^ Z.of_nat (S k))
    by (apply Qpower_le_base; lra).
  set (p_bear := (1 + gb) ^ Z.of_nat (S k)) in *.
  set (p_base := (1 + revenue_growth base) ^ Z.of_nat (S k)) in *.
  set (p_bull := (1 + (revenue_growth base + 0.03)) ^ Z.of_nat (S k)) in *.
  split; nra.
Qed.

Lemma scenario_revenue_ordering_witness :
  exists bull bear r r_bull r_bear,
    build_forecast 2023 100 (bull_of sample_base) = Ok bull /\
    build_forecast 2023 100 (bear_of sample_base) = Ok bear /\
    nth_error DCF.sample_forecast 0 = Some r /\
    nth_error bull 0 = Some r_bull /\ nth_error bear 0 = Some r_bear /\
    revenue r_bear <= revenue r /\ revenue r <= revenue r_bull.
Proof.
  assert (Eb : exists bull,
             build_forecast 2023 100 (bull_of sample_base) = Ok bull)
    by (vm_compute; eauto).
  assert (Er : exists bear,
             build_forecast 2023 100 (bear_of sample_base) = Ok bear)
    by (vm_compute; eauto).
  assert (E0 : exists r, nth_error DCF.sample_forecast 0 = Some r)
    by (vm_compute; eauto).
  destruct Eb as [bull Eb], Er as [bear Er], E0 as [r E0].
  destruct (scenario_revenue_ordering 2023 100 sample_base
              DCF.sample_forecast bull bear
              ltac:(lra) ltac:(vm_compute; discriminate)
              eq_refl Eb Er 0%nat r E0)
    as (rb & rr & Hb & Hr & _ & _ & H1 & H2).
  exists bull, bear, r, rb, rr. repeat split; assumption.
Defined.

End ForecastDependence.

(** ** metrics.py: what the growth rate and the median mean *)

Section GrowthAndMedian.
Import Frame Metrics.

Lemma compute_cagr_some_inv (s : Series) (c : R) :
  compute_cagr s = Some c ->
  exists a b,
    first_valid s = Some a /\ last_valid s = Some b /\
    0 < a /\ 0 < b /\ (3 <= count_valid s)%nat /\
    c = (Rpower (Q2R (b / a)) (1 / INR (count_valid s - 1)) - 1)%R.
Proof.
  unfold compute_cagr.
  rewrite first_valid_dropna, last_valid_dropna, count_valid_dropna.
  destruct (Nat.ltb_spec (List.length (dropna_cells s)) 3) as [|Hn];
    [discriminate|].
  destruct (dropna_cells s) as [|a xs] eqn:Es; [discriminate|].
  destruct (rev (a :: xs)) as [|b ys]; [discriminate|].
  destruct (Qle_bool a 0) eqn:Ea; [discriminate|].
  destruct (Qle_bool b 0) eqn:Eb; [discriminate|].
  cbn [orb]. intros [= <-]. exists a, b.
  apply Qle_bool_false in Ea, Eb.
  repeat split; try reflexivity; assumption.
Qed.

(** Growing the first non-missing revenue at the returned rate for the
    k - 1 periods between the k non-missing values gives back the last
    one; the rate is above -100%, and it is positive exactly when the last
    value is above the first. *)
Theorem compute_cagr_compounds (s : Series) (c : R) (a b : Q) :
  compute_cagr s = Some c ->
  first_valid s = Some a -> last_valid s = Some b ->
  (Q2R a * (1 + c) ^ (count_valid s - 1) = Q2R b)%R /\
  (-1 < c)%R /\
  ((0 < c)%R <-> a < b).
Proof.
  intros Hc Ha Hb.
  apply compute_cagr_some_inv in Hc.
  destruct Hc as (a' & b' & Ha' & Hb' & Hpa & Hpb & Hn & ->).
  rewrite Ha in Ha'. rewrite Hb in Hb'.
  injection Ha' as <-. injection Hb' as <-.
  set (n := (count_valid s - 1)%nat).
  assert (Hn0 : (0 < INR n)%R) by (apply lt_0_INR; unfold n; lia).
  assert (HRa : (0 < Q2R a)%R)
    by (replace 0%R with (Q2R 0) by Lra.lra; now apply Qlt_Rlt).
  assert (HRb : (0 < Q2R b)%R)
    by (replace 0%R with (Q2R 0) by Lra.lra; now apply Qlt_Rlt).
  assert (Hx : Q2R (b / a) = (Q2R b / Q2R a)%R) by (apply Q2R_div; lra).
  assert (Hx0 : (0 < Q2R (b / a))%R)
    by (rewrite Hx; now apply Rdiv_lt_0_compat).
  set (x := Q2R (b / a)) in *.
  set (root := Rpower x (1 / INR n)).
  assert (Hroot0 : (0 < root)%R) by (unfold root, Rpower; apply exp_pos).
  assert (Hpow : (root ^ n = x)%R).
  { unfold root. rewrite <- Rpower_pow by exact Hroot0.
    fold root. unfold root. rewrite Rpower_mult.
    replace (1 / INR n * INR n)%R with 1%R by (field; Lra.lra).
    now apply Rpower_1. }
  replace (1 + (root - 1))%R with root by Lra.lra.
  split; [|split].
  - rewrite Hpow, Hx. field. Lra.lra.
  - Lra.lra.
  - assert (Hn1 : (0 < n)%nat) by (unfold n; lia).
    split.
    + intro Hc.
      assert (H1 : (1 < root ^ n)%R) by (apply Rlt_pow_R1; [Lra.lra | exact Hn1]).
      rewrite Hpow, Hx in H1.
      apply Rlt_Qlt.
      apply (Rmult_lt_compat_r (Q2R a)) in H1; [|exact HRa].
      unfold Rdiv in H1. rewrite Rmult_assoc, Rinv_l in H1 by Lra.lra.
      Lra.lra.
    + intro Hab. apply Qlt_Rlt in Hab.
      destruct (Rle_or_lt root 1) as [Hle|Hgt]; [|Lra.lra].
      exfalso.
      assert (H1 : (root ^ n <= 1 ^ n)%R)
        by (apply pow_incr; Lra.lra).
      rewrite pow1, Hpow, Hx in H1.
      apply (Rmult_le_compat_r (Q2R a)) in H1; [|Lra.lra].
      unfold Rdiv in H1. rewrite Rmult_assoc, Rinv_l in H1 by Lra.lra.
      Lra.lra.
Qed.

Lemma compute_cagr_growing_revenue :
  compute_cagr growing_revenue = Some 0.1%R.
Proof.
  unfold compute_cagr, growing_revenue.
  cbn -[Rpower Q2R INR Rminus Rdiv Qdiv].
  f_equal. rewrite Q2R_div by discriminate. exact cube_root_example.
Qed.

Lemma compute_cagr_compounds_witness :
  (Q2R 100 * (1 + 0.1) ^ 3 = Q2R 133.1)%R /\ (-1 < 0.1)%R.
Proof.
  destruct (compute_cagr_compounds growing_revenue 0.1%R 100 133.1
              compute_cagr_growing_revenue eq_refl eq_refl)
    as (H1 & H2 & _).
  split; [exact H1 | exact H2].
Defined.

End GrowthAndMedian.
(** ** metrics.py: the look-back window and the years it needs *)

Section LookbackWindow.
Import Frame Metrics MetricsReference.

Lemma insert_year_length (y : Z) (l : list Z) :
  List.length (insert_year y l) = S (List.length l).
Proof.
  induction l as [|z l IH]; cbn; [reflexivity|].
  destruct (Z.leb y z); cbn; [reflexivity | now rewrite IH].
Qed.

Lemma sorted_length (l : list Z) : List.length (sorted l) = List.length l.
Proof.
  induction l as [|y l IH]; cbn; [reflexivity|].
  fold (sorted l). now rewrite insert_year_length, IH.
Qed.

Lemma insert_year_In (x y : Z) (l : list Z) :
  In x (insert_year y l) <-> x = y \/ In x l.
Proof.
  induction l as [|z l IH]; cbn.
  - intuition congruence.
  - destruct (Z.leb y z); cbn; [intuition congruence|].
    rewrite IH. intuition congruence.
Qed.

Lemma sorted_In (x : Z) (l : list Z) : In x (sorted l) <-> In x l.
Proof.
  induction l as [|y l IH]; cbn; [reflexivity|].
  fold (sorted l). rewrite insert_year_In, IH. intuition congruence.
Qed.

Lemma insert_year_sorted (y : Z) (l : list Z) :
  StronglySorted Z.le l -> StronglySorted Z.le (insert_year y l).
Proof.
  induction 1 as [|z l Hs IH Hall]; cbn.
  - constructor; constructor.
  - destruct (Z.leb_spec y z) as [Hle|Hgt].
    + constructor; [now constructor|].
      constructor; [exact Hle|].
      eapply Forall_impl; [|exact Hall]. intros; lia.
    + constructor; [exact IH|].
      apply Forall_forall. intros x Hx.
      apply insert_year_In in Hx. destruct Hx as [->|Hx]; [lia|].
      rewrite Forall_forall in Hall. now apply Hall.
Qed.

Lemma sorted_ascending (l : list Z) : StronglySorted Z.le (sorted l).
Proof.
  induction l as [|y l IH]; cbn; [constructor|].
  now apply insert_year_sorted.
Qed.

Lemma StronglySorted_app_r (l1 l2 : list Z) :
  StronglySorted Z.le (l1 ++ l2) -> StronglySorted Z.le l2.
Proof.
  induction l1 as [|a l1 IH]; cbn; [auto|].
  intro H. inversion H; subst. auto.
Qed.

Lemma last_n_suffix {A : Type} (n : nat) (l : list A) :
  exists older, l = (older ++ last_n n l)%list.
Proof.
  destruct n as [|n]; cbn [last_n].
  - now exists [].
  - exists (firstn (List.length l - S n) l). symmetry. apply firstn_skipn.
Qed.

Lemma last_n_length {A : Type} (n : nat) (l : list A) :
  List.length (last_n n l) = window_years n (List.length l).
Proof.
  unfold window_years. destruct n as [|n]; cbn [last_n Nat.eqb].
  - reflexivity.
  - rewrite length_skipn. lia.
Qed.

Lemma lookback_window_suffix (inc : DataFrame) (lookback : nat) :
  exists older,
    sorted (index inc) = (older ++ lookback_window inc lookback)%list.
Proof.
  unfold lookback_window.
  destruct (lookback <? List.length (index inc))%nat.
  - apply last_n_suffix.
  - now exists [].
Qed.

Lemma lookback_window_length (inc : DataFrame) (lookback : nat) :
  List.length (lookback_window inc lookback) =
  window_years lookback (List.length (index inc)).
Proof.
  unfold lookback_window.
  destruct (Nat.ltb_spec lookback (List.length (index inc))) as [Hlt|Hge].
  - now rewrite last_n_length, sorted_length.
  - rewrite sorted_length. unfold window_years.
    destruct (Nat.eqb_spec lookback 0); lia.
Qed.

Lemma lookback_window_In (inc : DataFrame) (lookback : nat) (y : Z) :
  In y (lookback_window inc lookback) -> In y (index inc).
Proof.
  destruct (lookback_window_suffix inc lookback) as [older E].
  intro H. apply (sorted_In y). rewrite E. apply in_or_app. now right.
Qed.

Lemma position_In (y : Z) (idx : list Z) :
  In y idx <-> exists p, position y idx = Some p.
Proof.
  induction idx as [|z idx IH]; cbn.
  - split; [tauto | intros [p Hp]; discriminate].
  - destruct (Z.eqb_spec y z) as [->|Hne].
    + split; [now exists O | auto].
    + rewrite IH. split.
      * intros [E|[p Hp]]; [congruence|]. rewrite Hp. now eexists.
      * intros [p Hp]. right.
        destruct (position y idx) as [q|]; [now exists q | discriminate].
Qed.

Lemma positions_ok (ys idx : list Z) :
  (forall y, In y ys -> In y idx) -> exists ps, positions ys idx = Ok ps.
Proof.
  induction ys as [|y ys IH]; cbn [positions]; intro H.
  - now eexists.
  - destruct (proj1 (position_In y idx) (H y (or_introl eq_refl))) as [p Hp].
    rewrite Hp.
    destruct IH as [ps Hps]; [intros z Hz; apply H; now right|].
    rewrite Hps. cbn. now eexists.
Qed.

Lemma positions_raise (ys idx : list Z) :
  ~ (forall y, In y ys -> In y idx) ->
  positions ys idx = Raise (KeyError "fiscal_year").
Proof.
  induction ys as [|y ys IH]; cbn [positions]; intro H.
  - exfalso. apply H. intros y [].
  - destruct (position y idx) as [p|] eqn:Hp; [|reflexivity].
    rewrite IH; [reflexivity|].
    intro Hall. apply H. intros z [<-|Hz]; [|now apply Hall].
    apply position_In. now exists p.
Qed.

Lemma loc_ok (df : DataFrame) (ys : list Z) :
  (forall y, In y ys -> In y (index df)) -> exists df', loc df ys = Ok df'.
Proof.
  intro H. unfold loc. destruct (positions_ok _ _ H) as [ps Hps].
  rewrite Hps. cbn. now eexists.
Qed.

Lemma loc_raise (df : DataFrame) (ys : list Z) :
  ~ (forall y, In y ys -> In y (index df)) ->
  loc df ys = Raise (KeyError "fiscal_year").
Proof.
  intro H. unfold loc. now rewrite (positions_raise _ _ H).
Qed.

Lemma window_of_ok (df : DataFrame) (w : list Z) :
  covers_window df w -> exists df', window_of df w = Ok df'.
Proof.
  unfold covers_window, window_of.
  destruct (empty df); cbn [negb].
  - intros _. now eexists.
  - intros [E|H]; [discriminate | now apply loc_ok].
Qed.

Lemma window_of_raise (df : DataFrame) (w : list Z) :
  ~ covers_window df w -> window_of df w = Raise (KeyError "fiscal_year").
Proof.
  unfold covers_window, window_of.
  destruct (empty df); cbn [negb]; intro H.
  - exfalso. apply H. now left.
  - apply loc_raise. intro Hall. apply H. now right.
Qed.

Lemma covers_window_dec (df : DataFrame) (w : list Z) :
  covers_window df w \/ ~ covers_window df w.
Proof.
  unfold covers_window. destruct (empty df); [left; now left|].
  assert (D : (forall y, In y w -> In y (index df)) \/
              ~ (forall y, In y w -> In y (index df))).
  { induction w as [|y w IH].
    - left. intros y [].
    - destruct (in_dec Z.eq_dec y (index df)) as [Hy|Hy].
      + destruct IH as [IH|IH].
        * left. intros z [<-|Hz]; auto.
        * right. intro H. apply IH. intros z Hz. apply H. now right.
      + right. intro H. apply Hy, H. now left. }
  destruct D as [D|D]; [left; now right|].
  right. intros [E|H]; [discriminate | auto].
Qed.

(** The window of a returned record is the tail of the sorted years of
    the income statement: the [lookback] most recent years, all of them
    when there are no more than [lookback], and also all of them when
    [lookback] is 0 (the slice [[-0:]] is the whole list); the record's
    [lookback_years] is the number of years of the window. *)
Theorem compute_historical_metrics_window (inc cf bs : DataFrame)
  (lookback min_years : nat) (h : HistoricalMetrics) (log : list log_record) :
  compute_historical_metrics inc cf bs lookback min_years = Ok (h, log) ->
  let w := lookback_window inc lookback in
  (exists older, sorted (index inc) = (older ++ w)%list) /\
  StronglySorted Z.le w /\
  List.length w = window_years lookback (List.length (index inc)) /\
  lookback_years h = List.length w.
Proof.
  intros H w.
  destruct (lookback_window_suffix inc lookback) as [older E].
  split; [now exists older|].
  split.
  { apply (StronglySorted_app_r older). fold w in E. rewrite <- E.
    apply sorted_ascending. }
  split; [apply lookback_window_length|].
  apply compute_historical_metrics_ok_inv in H.
  destruct H as (inc_lb & cf_lb & bs_lb & revenue & _ & _ & _ & _ & H).
  unfold metrics_of_window in H. injection H as -> _. reflexivity.
Qed.

Lemma compute_historical_metrics_window_witness :
  exists h,
    compute_historical_metrics two_year_income two_year_cashflow
      two_year_balance 0 3 = Ok (h, []) /\
    lookback_years h = 2%nat.
Proof.
  assert (E : compute_historical_metrics two_year_income two_year_cashflow
                two_year_balance 0 3 =
              Ok (mkHistoricalMetrics 0%R (Num 0.0) None (Num 0.0) (Num 0.0)
                    (Num 0.0) 2, []))
    by (vm_compute; reflexivity).
  eexists. split; [exact E|].
  destruct (compute_historical_metrics_window _ _ _ _ _ _ _ E)
    as (_ & _ & Hl & Hy).
  rewrite Hy, Hl. reflexivity.
Defined.

Lemma compute_historical_metrics_returns (inc cf bs : DataFrame)
  (lookback min_years : nat) :
  has_column "revenue" inc = true ->
  covers_window cf (lookback_window inc lookback) ->
  covers_window bs (lookback_window inc lookback) ->
  exists h log,
    compute_historical_metrics inc cf bs lookback min_years = Ok (h, log).
Proof.
  intros Hrev Hc Hb. unfold compute_historical_metrics.
  rewrite Hrev. cbn [negb]. cbv zeta.
  destruct (loc_ok inc _ (lookback_window_In inc lookback)) as [inc_lb ->].
  destruct (window_of_ok _ _ Hc) as [cf_lb ->].
  destruct (window_of_ok _ _ Hb) as [bs_lb ->].
  cbn [bind].
  destruct (metrics_of_window inc_lb cf_lb bs_lb _) as [h log].
  now exists h, log.
Qed.

(** With a revenue column the only failure is a missing year: the
    call returns exactly when each of the cash-flow and balance statements
    is empty or holds every year of the window, and raises
    KeyError otherwise; the income statement never lacks a year of its own
    window.  Without a revenue column the call raises ValueError whatever
    the years are. *)
Theorem compute_historical_metrics_outcome (inc cf bs : DataFrame)
  (lookback min_years : nat) :
  let w := lookback_window inc lookback in
  let call := compute_historical_metrics inc cf bs lookback min_years in
  (has_column "revenue" inc = false ->
   call = Raise (ValueError revenue_missing)) /\
  (has_column "revenue" inc = true ->
   (covers_window cf w /\ covers_window bs w /\
    exists h log, call = Ok (h, log)) \/
   (~ (covers_window cf w /\ covers_window bs w) /\
    call = Raise (KeyError "fiscal_year"))).
Proof.
  intros w call. unfold call, compute_historical_metrics. fold w.
  split; intros ->; cbn [negb]; [reflexivity|].
  cbv zeta.
  destruct (loc_ok inc w (lookback_window_In inc lookback)) as [inc_lb ->].
  cbn [bind].
  destruct (covers_window_dec cf w) as [Hc|Hc].
  - destruct (window_of_ok _ _ Hc) as [cf_lb ->]. cbn [bind].
    destruct (covers_window_dec bs w) as [Hb|Hb].
    + destruct (window_of_ok _ _ Hb) as [bs_lb ->]. cbn [bind].
      left. repeat split; try assumption.
      destruct (metrics_of_window inc_lb cf_lb bs_lb w) as [h log].
      now exists h, log.
    + rewrite (window_of_raise _ _ Hb). cbn [bind].
      right. split; [tauto | reflexivity].
  - rewrite (window_of_raise _ _ Hc). cbn [bind].
    right. split; [tauto | reflexivity].
Qed.

Lemma compute_historical_metrics_outcome_witness :
  compute_historical_metrics two_year_income other_years_cashflow
    two_year_balance 5 3 = Raise (KeyError "fiscal_year").
Proof.
  destruct (proj2 (compute_historical_metrics_outcome two_year_income
                     other_years_cashflow two_year_balance 5 3) eq_refl)
    as [(Hc & _)|(_ & E)]; [|exact E].
  exfalso. destruct Hc as [Hc|Hc]; [discriminate|].
  specialize (Hc 2022%Z (or_introl eq_refl)).
  cbn in Hc. intuition discriminate.
Defined.

End LookbackWindow.
(** ** metrics.py: the revenue CAGR and the record that holds it *)

Section RevenueCagrClaim.
Import Frame Metrics MetricsReference.

(** C6: [compute_cagr] is undefined for fewer than three non-missing
    values and for a non-positive first or last non-missing value;
    otherwise it is (last / first)^(1 / (k - 1)) - 1 over the k non-missing
    values; the series 100, 110, 121, 133.1 gives 0.10; and
    [compute_historical_metrics] returns, whenever the income statement has
    a revenue column and the other statements are empty or cover the
    window, a record that holds the value for the revenue of the window,
    or 0.0 where it is undefined, as does every record it returns. *)
Theorem compute_cagr_spec :
  (forall s, (count_valid s < 3)%nat -> compute_cagr s = None) /\
  (forall s a b,
     first_valid s = Some a -> last_valid s = Some b ->
     a <= 0 \/ b <= 0 -> compute_cagr s = None) /\
  (forall s a b,
     (3 <= count_valid s)%nat ->
     first_valid s = Some a -> last_valid s = Some b ->
     0 < a -> 0 < b ->
     compute_cagr s =
     Some (Rpower (Q2R b / Q2R a) (1 / INR (count_valid s - 1)) - 1)%R) /\
  compute_cagr growing_revenue = Some 0.1%R /\
  (forall inc cf bs lookback min_years,
     has_column "revenue" inc = true ->
     covers_window cf (lookback_window inc lookback) ->
     covers_window bs (lookback_window inc lookback) ->
     exists h log inc_lb revenue,
       compute_historical_metrics inc cf bs lookback min_years =
         Ok (h, log) /\
       loc inc (lookback_window inc lookback) = Ok inc_lb /\
       get "revenue" inc_lb = Some revenue /\
       revenue_cagr h =
       match compute_cagr revenue with
       | Some c => c
       | None => 0%R
       end) /\
  (forall inc cf bs lookback min_years h log,
     compute_historical_metrics inc cf bs lookback min_years = Ok (h, log) ->
     exists inc_lb revenue,
       loc inc (lookback_window inc lookback) = Ok inc_lb /\
       get "revenue" inc_lb = Some revenue /\
       revenue_cagr h =
       match compute_cagr revenue with
       | Some c => c
       | None => 0%R
       end).
Proof.
  assert (Hdef : forall s a b,
     (3 <= count_valid s)%nat ->
     first_valid s = Some a -> last_valid s = Some b ->
     0 < a -> 0 < b ->
     compute_cagr s =
     Some (Rpower (Q2R b / Q2R a) (1 / INR (count_valid s - 1)) - 1)%R).
  { intros s a b Hn Ha Hb Hpa Hpb. unfold compute_cagr.
    rewrite first_valid_dropna in Ha. rewrite last_valid_dropna in Hb.
    rewrite count_valid_dropna in *.
    destruct (Nat.ltb_spec (List.length (dropna_cells s)) 3); [lia|].
    destruct (dropna_cells s) as [|x xs]; [discriminate|].
    injection Ha as ->.
    destruct (rev (a :: xs)) as [|y ys]; [discriminate|].
    injection Hb as ->.
    rewrite (Qle_bool_pos a Hpa), (Qle_bool_pos b Hpb). cbn [orb].
    rewrite Q2R_div by lra. reflexivity. }
  assert (Hrec : forall inc cf bs lookback min_years h log,
     compute_historical_metrics inc cf bs lookback min_years = Ok (h, log) ->
     exists inc_lb revenue,
       loc inc (lookback_window inc lookback) = Ok inc_lb /\
       get "revenue" inc_lb = Some revenue /\
       revenue_cagr h =
       match compute_cagr revenue with
       | Some c => c
       | None => 0%R
       end).
  { intros inc cf bs lookback min_years h log H.
    apply compute_historical_metrics_ok_inv in H.
    destruct H as (inc_lb & cf_lb & bs_lb & rv & Hi & _ & _ & Hr & H).
    exists inc_lb, rv. split; [exact Hi|]. split; [exact Hr|].
    unfold metrics_of_window in H. rewrite Hr in H.
    injection H as Hh _. subst h. reflexivity. }
  split; [|split; [|split; [exact Hdef|split; [|split; [|exact Hrec]]]]].
  - intros s Hn. unfold compute_cagr. rewrite count_valid_dropna in Hn.
    destruct (Nat.ltb_spec (List.length (dropna_cells s)) 3); [reflexivity|lia].
  - intros s a b Ha Hb Hneg. unfold compute_cagr.
    rewrite first_valid_dropna in Ha. rewrite last_valid_dropna in Hb.
    destruct (List.length (dropna_cells s) <? 3)%nat; [reflexivity|].
    destruct (dropna_cells s) as [|x xs]; [discriminate|].
    injection Ha as ->.
    destruct (rev (a :: xs)) as [|y ys]; [discriminate|].
    injection Hb as ->.
    destruct Hneg as [H|H]; apply Qle_bool_iff in H; rewrite H;
      [reflexivity | now rewrite orb_true_r].
  - rewrite (Hdef growing_revenue 100 133.1);
      [|cbn; lia|reflexivity|reflexivity|reflexivity|reflexivity].
    f_equal. exact cube_root_example.
  - intros inc cf bs lookback min_years Hrev Hc Hb.
    destruct (compute_historical_metrics_returns inc cf bs lookback
                min_years Hrev Hc Hb) as (h & log & E).
    destruct (Hrec _ _ _ _ _ _ _ E) as (inc_lb & rv & Hi & Hr & Hv).
    now exists h, log, inc_lb, rv.
Qed.

Lemma compute_cagr_spec_witness :
  compute_cagr [Some 100; None; Some 110] = None /\
  compute_cagr [Some (-5); Some 110; Some 121] = None /\
  compute_cagr [Some 100; Some 110; None; Some 121] =
  Some (Rpower (Q2R 121 / Q2R 100) (1 / INR 2) - 1)%R /\
  (exists h log,
     compute_historical_metrics growing_income statement_without_years
       statement_without_years 5 3 = Ok (h, log) /\
     revenue_cagr h = 0.1%R) /\
  (exists h log,
     compute_historical_metrics two_year_income two_year_cashflow
       two_year_balance 5 3 = Ok (h, log) /\
     revenue_cagr h = 0%R).
Proof.
  split; [|split; [|split; [|split]]].
  - apply (proj1 compute_cagr_spec). cbn. lia.
  - apply (proj1 (proj2 compute_cagr_spec) _ (-5) 121);
      [reflexivity | reflexivity | left; discriminate].
  - apply (proj1 (proj2 (proj2 compute_cagr_spec))
             [Some 100; Some 110; None; Some 121] 100 121);
      [cbn; lia | reflexivity | reflexivity | reflexivity | reflexivity].
  - destruct (proj1 (proj2 (proj2 (proj2 (proj2 compute_cagr_spec))))
                growing_income statement_without_years
                statement_without_years 5%nat 3%nat eq_refl
                (or_introl eq_refl) (or_introl eq_refl))
      as (h & log & inc_lb & rv & E & Hi & Hr & Hv).
    exists h, log. split; [exact E|].
    vm_compute in Hi. injection Hi as <-.
    cbn in Hr. injection Hr as <-.
    rewrite Hv.
    change (match compute_cagr growing_revenue with
            | Some c => c
            | None => 0%R
            end = 0.1%R).
    now rewrite (proj1 (proj2 (proj2 (proj2 compute_cagr_spec)))).
  - assert (Hcov : forall df,
              index df = [2022; 2023]%Z ->
              covers_window df (lookback_window two_year_income 5)).
    { intros df Hdf. right. intros y Hy. rewrite Hdf. exact Hy. }
    destruct (proj1 (proj2 (proj2 (proj2 (proj2 compute_cagr_spec))))
                two_year_income two_year_cashflow two_year_balance
                5%nat 3%nat eq_refl (Hcov two_year_cashflow eq_refl)
                (Hcov two_year_balance eq_refl))
      as (h & log & inc_lb & rv & E & Hi & Hr & Hv).
    exists h, log. split; [exact E|].
    vm_compute in Hi. injection Hi as <-.
    cbn in Hr. injection Hr as <-.
    rewrite Hv.
    now rewrite (proj1 compute_cagr_spec) by (cbn; lia).
Defined.

End RevenueCagrClaim.
(** ** metrics.py: the median of the defined ratios *)

Section MedianBounds.
Import Frame Metrics MetricsReference.

Lemma pf_insert_In (x y : pfloat) (l : list pfloat) :
  In x (pf_insert y l) -> x = y \/ In x l.
Proof.
  induction l as [|z l IH]; cbn.
  - intuition congruence.
  - destruct (pf_leb y z); cbn; [intuition congruence|].
    intros [E|H]; [auto | apply IH in H; tauto].
Qed.

Lemma pf_sort_In (x : pfloat) (l : list pfloat) :
  In x (pf_sort l) -> In x l.
Proof.
  induction l as [|y l IH]; cbn; [auto|].
  fold (pf_sort l). intro H. apply pf_insert_In in H.
  destruct H as [E|H]; [now left | right; now apply IH].
Qed.

Lemma pf_insert_length (y : pfloat) (l : list pfloat) :
  List.length (pf_insert y l) = S (List.length l).
Proof.
  induction l as [|z l IH]; cbn; [reflexivity|].
  destruct (pf_leb y z); cbn; [reflexivity | now rewrite IH].
Qed.

Lemma pf_sort_length (l : list pfloat) :
  List.length (pf_sort l) = List.length l.
Proof.
  induction l as [|y l IH]; cbn; [reflexivity|].
  fold (pf_sort l). now rewrite pf_insert_length, IH.
Qed.

Lemma mean2_within (lo hi : Q) (a b : pfloat) :
  within lo hi a -> within lo hi b -> within lo hi (mean2 a b).
Proof.
  destruct a as [|x|s], b as [|y|s']; cbn; try tauto.
  intros [H1 H2] [H3 H4].
  assert (E : 2 * ((x + y) / 2) == x + y) by (field; discriminate).
  set (m := (x + y) / 2) in *. split; lra.
Qed.

Lemma np_median_sample (l : list pfloat) :
  l <> [] ->
  (Nat.odd (List.length l) = true -> In (np_median l) l) /\
  forall lo hi, (forall x, In x l -> within lo hi x) ->
                within lo hi (np_median l).
Proof.
  intro Hne. unfold np_median. cbv zeta.
  rewrite pf_sort_length.
  set (n := List.length l).
  assert (Hn : (0 < n)%nat)
    by (unfold n; destruct l; [congruence | cbn; lia]).
  assert (Hhi : (n / 2 < n)%nat) by (apply Nat.div_lt; lia).
  assert (Hmid : In (nth (n / 2) (pf_sort l) NaN) l).
  { apply pf_sort_In, nth_In. now rewrite pf_sort_length. }
  assert (Hlow : In (nth (n / 2 - 1) (pf_sort l) NaN) l).
  { apply pf_sort_In, nth_In. rewrite pf_sort_length. fold n. lia. }
  split.
  - intro Hodd. rewrite <- Nat.negb_odd, Hodd. exact Hmid.
  - intros lo hi Hall.
    destruct (Nat.even n); [apply mean2_within|]; now apply Hall.
Qed.

(** A median that [median_over_years] returns on a threshold of at
    least one year lies between the bounds of the defined ratios, when
    these are numbers; with an odd number of defined ratios it is one of
    them; and the sample has at least [min_years] defined ratios. *)
Theorem median_over_years_sample (series : list pfloat) (min_years : nat)
  (m : pfloat) :
  median_over_years series min_years = Some m ->
  (0 < min_years)%nat ->
  (min_years <= List.length (dropna series))%nat /\
  (Nat.odd (List.length (dropna series)) = true ->
   In m series /\ notna m = true) /\
  forall lo hi,
    (forall x, In x series -> x = NaN \/ within lo hi x) ->
    within lo hi m.
Proof.
  unfold median_over_years. cbv zeta.
  destruct (Nat.ltb_spec (List.length (dropna series)) min_years)
    as [|Hlen]; [discriminate|].
  intros [= <-] Hpos.
  assert (Hne : dropna series <> [])
    by (destruct (dropna series); [cbn in Hlen; lia | congruence]).
  destruct (np_median_sample _ Hne) as [Hodd Hin].
  split; [exact Hlen|]. split.
  - intro Ho. apply Hodd in Ho. unfold dropna in Ho.
    now apply filter_In in Ho.
  - intros lo hi Hall. apply Hin. intros x Hx.
    unfold dropna in Hx. apply filter_In in Hx. destruct Hx as [Hx Hna].
    destruct (Hall x Hx) as [->|Hw]; [discriminate | exact Hw].
Qed.

Lemma median_over_years_sample_witness :
  within 0.1 0.3 (Num 0.2) /\
  In (Num 0.2) [Num 0.3; NaN; Num 0.1; Num 0.2].
Proof.
  destruct (median_over_years_sample [Num 0.3; NaN; Num 0.1; Num 0.2] 3
              (Num 0.2) eq_refl ltac:(lia)) as (_ & Hodd & Hin).
  split.
  - apply Hin. intros x Hx. cbn in Hx.
    destruct Hx as [<-|[<-|[<-|[<-|[]]]]]; cbn;
      try (now left); right; split; discriminate.
  - apply Hodd. reflexivity.
Defined.

End MedianBounds.
(** ** utils.py: the alignment on the common fiscal years *)

Section Alignment.
Import Frame Utils UtilsReference.

Lemma positions_nth (ys idx : list Z) (ps : list nat) :
  positions ys idx = Ok ps ->
  List.length ps = List.length ys /\
  forall k y, nth_error ys k = Some y ->
    exists p, position y idx = Some p /\ nth_error ps k = Some p.
Proof.
  revert ps. induction ys as [|y ys IH]; intros ps H; cbn [positions] in H.
  - apply Ok_inj in H. subst ps. split; [reflexivity|].
    intros [|k] y Hk; discriminate.
  - destruct (position y idx) as [p|] eqn:Hp; [|discriminate].
    apply bind_ok_inv in H. destruct H as (ps' & Hps' & H).
    apply Ok_inj in H. subst ps.
    destruct (IH _ Hps') as [Hlen Hnth].
    split; [cbn; now rewrite Hlen|].
    intros [|k] z Hk; cbn in Hk.
    + injection Hk as <-. now exists p.
    + now apply Hnth.
Qed.

Lemma loc_restricted (df df' : DataFrame) (ys : list Z) :
  loc df ys = Ok df' -> restricted_to ys df df'.
Proof.
  unfold loc. intro H. apply bind_ok_inv in H.
  destruct H as (ps & Hps & H). apply Ok_inj in H. subst df'.
  destruct (positions_nth _ _ _ Hps) as [Hlen Hnth].
  split; [reflexivity|]. split.
  - unfold column_names. cbn [columns]. rewrite map_map. reflexivity.
  - intros c s Hs. exists (take_rows ps s).
    unfold get in *. cbn [columns]. rewrite assoc_map_columns, Hs.
    split; [reflexivity|]. split.
    + unfold take_rows. now rewrite length_map.
    + intros k y Hk. destruct (Hnth k y Hk) as (p & Hp & Hpk).
      exists p. split; [exact Hp|].
      apply nth_error_nth. unfold take_rows.
      rewrite nth_error_map, Hpk. reflexivity.
Qed.

Lemma mem_year_In (y : Z) (l : list Z) : mem_year y l = true <-> In y l.
Proof.
  unfold mem_year. rewrite existsb_exists. split.
  - intros (x & Hx & E). apply Z.eqb_eq in E. now subst.
  - intro H. exists y. split; [exact H | apply Z.eqb_refl].
Qed.

Lemma year_set_In (y : Z) (l : list Z) : In y (year_set l) <-> In y l.
Proof.
  induction l as [|z l IH]; cbn; [reflexivity|].
  destruct (mem_year z l) eqn:E; cbn; rewrite IH.
  - apply mem_year_In in E. intuition congruence.
  - reflexivity.
Qed.

Lemma year_set_NoDup (l : list Z) : NoDup (year_set l).
Proof.
  induction l as [|z l IH]; cbn; [constructor|].
  destruct (mem_year z l) eqn:E; [exact IH|].
  constructor; [|exact IH].
  rewrite year_set_In, <- mem_year_In. congruence.
Qed.

Lemma intersect_In (rest : list DataFrame) (init : list Z) (y : Z) :
  In y (fold_left (fun years d => filter (fun y => mem_year y (index d)) years)
                  rest init) <->
  In y init /\ forall d, In d rest -> In y (index d).
Proof.
  revert init. induction rest as [|d rest IH]; intro init; cbn [fold_left].
  - split; [intro H; split; [exact H | intros d []] | tauto].
  - rewrite IH, filter_In, mem_year_In. split.
    + intros [[Hi Hd] Hr]. split; [exact Hi|].
      intros d' [<-|Hd']; auto.
    + intros [Hi Hr]. repeat split; [exact Hi | | ].
      * apply Hr. now left.
      * intros d' Hd'. apply Hr. now right.
Qed.

Lemma intersect_NoDup (rest : list DataFrame) (init : list Z) :
  NoDup init ->
  NoDup (fold_left (fun years d => filter (fun y => mem_year y (index d)) years)
                   rest init).
Proof.
  revert init. induction rest as [|d rest IH]; intros init H; cbn [fold_left].
  - exact H.
  - apply IH. now apply NoDup_filter.
Qed.

Lemma insert_year_strict (y : Z) (l : list Z) :
  StronglySorted Z.lt l -> ~ In y l -> StronglySorted Z.lt (insert_year y l).
Proof.
  induction 1 as [|z l Hs IH Hall]; cbn [insert_year]; intro Hy.
  - constructor; constructor.
  - assert (Hyz : y <> z) by (intro E; apply Hy; now left).
    assert (Hyl : ~ In y l) by (intro E; apply Hy; now right).
    destruct (Z.leb_spec y z) as [Hle|Hgt].
    + constructor; [now constructor|].
      constructor; [lia|].
      eapply Forall_impl; [|exact Hall]. intros; lia.
    + constructor; [now apply IH|].
      apply Forall_forall. intros x Hx.
      apply insert_year_In in Hx. destruct Hx as [->|Hx]; [lia|].
      rewrite Forall_forall in Hall. now apply Hall.
Qed.

Lemma sorted_strict (l : list Z) :
  NoDup l -> StronglySorted Z.lt (sorted l).
Proof.
  induction 1 as [|y l Hy Hnd IH]; cbn; [constructor|].
  fold (sorted l). apply insert_year_strict; [exact IH|].
  now rewrite sorted_In.
Qed.

Lemma common_years_In (d0 : DataFrame) (rest : list DataFrame) (y : Z) :
  In y (common_years (d0 :: rest)) <->
  forall d, In d (d0 :: rest) -> In y (index d).
Proof.
  unfold common_years. rewrite sorted_In, intersect_In, year_set_In.
  split.
  - intros [H0 Hr] d [<-|Hd]; auto.
  - intro H. split; [apply H; now left | intros d Hd; apply H; now right].
Qed.

Lemma common_years_strict (dfs : list DataFrame) :
  StronglySorted Z.lt (common_years dfs).
Proof.
  destruct dfs as [|d0 rest]; [constructor|].
  unfold common_years. apply sorted_strict, intersect_NoDup, year_set_NoDup.
Qed.

Lemma map_result_ok {A B : Type} (f : A -> result B) (P : A -> B -> Prop)
  (l : list A) :
  (forall a, In a l -> exists b, f a = Ok b /\ P a b) ->
  exists bs, map_result f l = Ok bs /\ Forall2 P l bs.
Proof.
  induction l as [|a l IH]; intro H; cbn [map_result].
  - exists []. split; [reflexivity | constructor].
  - destruct (H a (or_introl eq_refl)) as (b & -> & Hb).
    destruct IH as (bs & -> & Hbs); [intros x Hx; apply H; now right|].
    cbn [bind]. exists (b :: bs). split; [reflexivity | now constructor].
Qed.

Lemma align_fiscal_years_ok (dfs : list DataFrame) :
  exists aligned,
    align_fiscal_years dfs = Ok aligned /\
    Forall2 (restricted_to (common_years dfs)) dfs aligned.
Proof.
  destruct dfs as [|d0 rest].
  - exists []. split; [reflexivity | constructor].
  - unfold align_fiscal_years. apply map_result_ok.
    intros df Hdf.
    destruct (loc_ok df (common_years (d0 :: rest))) as [df' Hdf'].
    + intros y Hy. now apply (common_years_In d0 rest y).
    + exists df'. split; [exact Hdf' | now apply loc_restricted].
Qed.

(** [align_fiscal_years] does not raise; it returns one frame per
    frame given, each the given frame restricted to the common years: the
    same columns, the cells of every common year as they were; the common
    years are in strictly ascending order and are exactly the years every
    frame has in its index. *)
Theorem align_fiscal_years_intersection (dfs : list DataFrame) :
  exists aligned,
    align_fiscal_years dfs = Ok aligned /\
    Forall2 (restricted_to (common_years dfs)) dfs aligned /\
    StronglySorted Z.lt (common_years dfs) /\
    (dfs <> [] ->
     forall y, In y (common_years dfs) <->
               forall d, In d dfs -> In y (index d)).
Proof.
  destruct (align_fiscal_years_ok dfs) as (aligned & E & H).
  exists aligned. split; [exact E|]. split; [exact H|].
  split; [apply common_years_strict|].
  destruct dfs as [|d0 rest]; [congruence|].
  intros _ y. apply common_years_In.
Qed.

Lemma align_fiscal_years_intersection_witness :
  exists aligned,
    align_fiscal_years
      [Metrics.two_year_income; MetricsReference.other_years_cashflow] =
      Ok aligned /\
    ~ In 2022%Z
        (common_years
           [Metrics.two_year_income; MetricsReference.other_years_cashflow]).
Proof.
  destruct (align_fiscal_years_intersection
              [Metrics.two_year_income; MetricsReference.other_years_cashflow])
    as (aligned & E & _ & _ & H).
  exists aligned. split; [exact E|].
  intro Hin.
  assert (Hne : [Metrics.two_year_income;
                 MetricsReference.other_years_cashflow] <> [])
    by discriminate.
  pose proof (proj1 (H Hne 2022%Z) Hin
                MetricsReference.other_years_cashflow
                (or_intror (or_introl eq_refl))) as Hy.
  cbn in Hy. intuition discriminate.
Defined.

End Alignment.
(** ** data_loader.py: which source label a normalized column takes *)

Section LabelPrecedence.
Import Frame Utils Loader LoaderReference.
#[local] Open Scope string_scope.

Lemma map_labels_fold_get (label_map : list (string * string))
  (df acc : DataFrame) (c : string) :
  get c (fold_left (fun normalized (rn : string * string) =>
                      match get (fst rn) df with
                      | Some s => set_column (snd rn) s normalized
                      | None => normalized
                      end) label_map acc) =
  match last_source label_map c df with
  | Some s => Some s
  | None => get c acc
  end.
Proof.
  revert acc. induction label_map as [|[raw norm] lm IH]; intro acc.
  - reflexivity.
  - cbn [fold_left last_source fst snd]. rewrite IH.
    destruct (last_source lm c df) as [s|]; [reflexivity|].
    destruct (get raw df) as [s0|].
    + rewrite get_set_column. now destruct (String.eqb c norm).
    + now destruct (String.eqb c norm).
Qed.

Lemma map_labels_get (label_map : list (string * string)) (df : DataFrame)
  (c : string) :
  get c (map_labels label_map df) = last_source label_map c df.
Proof.
  unfold map_labels. rewrite map_labels_fold_get.
  now destruct (last_source label_map c df).
Qed.

Lemma map_labels_index (label_map : list (string * string)) (df : DataFrame) :
  index (map_labels label_map df) = index df.
Proof.
  unfold map_labels.
  change (index df) with (index (mkFrame (index df) [])) at 2.
  generalize (mkFrame (index df) []).
  induction label_map as [|[raw norm] lm IH]; intro acc; [reflexivity|].
  cbn [fold_left fst snd]. rewrite IH.
  now destruct (get raw df).
Qed.

Lemma first_present_get (labels : list string) (norm : string)
  (bs acc : DataFrame) (c : string) :
  get c (first_present labels norm bs acc) =
  if String.eqb c norm then
    match first_source labels bs with
    | Some s => Some s
    | None => get c acc
    end
  else get c acc.
Proof.
  induction labels as [|l labels IH]; cbn [first_present first_source].
  - now destruct (String.eqb c norm).
  - destruct (get l bs) as [s|]; [apply get_set_column | exact IH].
Qed.

Lemma first_present_index (labels : list string) (norm : string)
  (bs acc : DataFrame) :
  index (first_present labels norm bs acc) = index acc.
Proof.
  induction labels as [|l labels IH]; cbn [first_present]; [reflexivity|].
  now destruct (get l bs).
Qed.

Lemma cell_eq_refl (a : cell) : cell_eq a a.
Proof. destruct a; cbn; [reflexivity | exact I]. Qed.

Lemma series_eq_zero_plus (s : Series) :
  series_eq (map (option_map (Qplus 0)) s) s.
Proof.
  induction s as [|[x|] s IH]; constructor; try exact IH; cbn;
    [apply Qplus_0_l | exact I].
Qed.

Lemma series_eq_sum_of_two (s t : Series) :
  series_eq (series_add (map (option_map (Qplus 0)) s) t) (series_add s t).
Proof.
  unfold series_add. revert t.
  induction s as [|a s IH]; intros [|b t]; cbn; try constructor.
  - destruct a as [x|], b as [y|]; cbn; try exact I.
    now rewrite Qplus_0_l.
  - apply IH.
Qed.

(** In the income statement a later entry of the label map overrides
    an earlier one: every normalized column is the raw column of the last
    label of the map that names it and is present, so revenue is taken from
    "Revenue" before "Total Revenue", operating income from "Ebit" before
    "EBIT" before "Operating Income"; the year index is the raw one. *)
Theorem normalize_income_precedence (inc : DataFrame) :
  let n := fst (normalize_income inc) in
  index n = index inc /\
  (forall c, get c n = last_source income_label_map c inc) /\
  get "revenue" n =
    match get "Revenue" inc with
    | Some s => Some s
    | None => get "Total Revenue" inc
    end /\
  get "operating_income" n =
    match get "Ebit" inc, get "EBIT" inc with
    | Some s, _ => Some s
    | None, Some s => Some s
    | None, None => get "Operating Income" inc
    end /\
  get "pretax_income" n = get "Income Before Tax" inc /\
  get "tax_expense" n =
    match get "Provision for income taxes" inc with
    | Some s => Some s
    | None => get "Income Tax Expense" inc
    end /\
  get "net_income" n =
    match get "Net Income Common Stockholders" inc with
    | Some s => Some s
    | None => get "Net Income" inc
    end.
Proof.
  cbv zeta. unfold normalize_income. cbn [fst].
  split; [apply map_labels_index|].
  split; [intro c; apply map_labels_get|].
  rewrite !map_labels_get. unfold income_label_map.
  cbn [last_source String.eqb Ascii.eqb Bool.eqb].
  repeat split;
    repeat match goal with
           | |- context [get ?l inc] => destruct (get l inc)
           end; reflexivity.
Qed.

(** The cash-flow statement follows the same rule, and the CapEx
    column holds the absolute values of the label that won. *)
Theorem normalize_cashflow_precedence (cf : DataFrame) :
  empty cf = false ->
  let n := fst (normalize_cashflow (Some cf)) in
  index n = index cf /\
  (forall c, get c n =
             option_map (fun s => if String.eqb c "capex" then series_abs s
                                  else s)
                        (last_source cashflow_label_map c cf)) /\
  get "capex" n =
    option_map series_abs
      match get "CapitalExpenditure" cf, get "Capital Expenditures" cf with
      | Some s, _ => Some s
      | None, Some s => Some s
      | None, None => get "Capital Expenditure" cf
      end.
Proof.
  intro He. cbv zeta. unfold normalize_cashflow. rewrite He. cbn [fst].
  assert (Hget : forall c,
    get c match get "capex" (map_labels cashflow_label_map cf) with
          | Some capex =>
              set_column "capex" (series_abs capex)
                (map_labels cashflow_label_map cf)
          | None => map_labels cashflow_label_map cf
          end =
    option_map (fun s => if String.eqb c "capex" then series_abs s else s)
               (last_source cashflow_label_map c cf)).
  { intro c.
    destruct (get "capex" (map_labels cashflow_label_map cf)) as [capex|]
      eqn:Ec.
    - rewrite get_set_column.
      destruct (String.eqb_spec c "capex") as [->|Hc].
      + rewrite map_labels_get in Ec. now rewrite Ec.
      + rewrite map_labels_get.
        now destruct (last_source cashflow_label_map c cf).
    - destruct (String.eqb_spec c "capex") as [->|Hc].
      + rewrite Ec. rewrite map_labels_get in Ec. now rewrite Ec.
      + rewrite map_labels_get.
        now destruct (last_source cashflow_label_map c cf). }
  split.
  { destruct (get "capex" (map_labels cashflow_label_map cf));
      cbn [set_column index]; apply map_labels_index. }
  split; [exact Hget|].
  rewrite Hget. unfold cashflow_label_map.
  cbn [last_source String.eqb Ascii.eqb Bool.eqb].
  repeat match goal with
         | |- context [get ?l cf] => destruct (get l cf)
         end; reflexivity.
Qed.

Lemma normalize_cashflow_precedence_witness :
  get "capex" (fst (normalize_cashflow (Some two_capex_labels))) =
  Some [Some (Qabs (-7)); None].
Proof.
  destruct (normalize_cashflow_precedence two_capex_labels eq_refl)
    as (_ & _ & H).
  exact H.
Defined.

(** In the balance sheet the first label of each list that is present
    wins; total debt is the "Total Debt" line when there is one, else the
    sum of the debt lines present (short-term plus long-term, row by row,
    missing where a part is missing), and is left out when there is
    none. *)
Theorem normalize_balance_precedence (bs : DataFrame) :
  empty bs = false ->
  let n := fst (normalize_balance (Some bs)) in
  index n = index bs /\
  get "current_assets" n =
    first_source ["Total Current Assets"; "Current Assets"; "CurrentAssets"]
      bs /\
  get "current_liabilities" n =
    first_source ["Total Current Liabilities"; "Current Liabilities";
                  "CurrentLiabilities";
                  "Current Liabilities Net Minority Interest"] bs /\
  get "cash" n = first_source ["Cash And Cash Equivalents"; "Cash"] bs /\
  match get "Total Debt" bs,
        get "Short Long Term Debt" bs, get "Long Term Debt" bs with
  | Some total, _, _ => get "total_debt" n = Some total
  | None, Some short, Some long =>
      exists s, get "total_debt" n = Some s /\
                series_eq s (series_add short long)
  | None, Some part, None | None, None, Some part =>
      exists s, get "total_debt" n = Some s /\ series_eq s part
  | None, None, None => get "total_debt" n = None
  end.
Proof.
  intro He. cbv zeta. unfold normalize_balance. rewrite He. cbn [fst].
  set (n3 := first_present ["Cash And Cash Equivalents"; "Cash"] "cash" bs _).
  assert (Hidx : index n3 = index bs)
    by (unfold n3; now rewrite !first_present_index).
  assert (Hca : get "current_assets" n3 =
                first_source ["Total Current Assets"; "Current Assets";
                              "CurrentAssets"] bs).
  { unfold n3. rewrite !first_present_get. cbn [String.eqb Ascii.eqb Bool.eqb].
    match goal with
    | |- context [first_source ?l bs] => destruct (first_source l bs)
    end; reflexivity. }
  assert (Hcl : get "current_liabilities" n3 =
                first_source ["Total Current Liabilities";
                              "Current Liabilities"; "CurrentLiabilities";
                              "Current Liabilities Net Minority Interest"] bs).
  { unfold n3. rewrite !first_present_get. cbn [String.eqb Ascii.eqb Bool.eqb].
    match goal with
    | |- context [first_source ?l bs] => destruct (first_source l bs)
    end; reflexivity. }
  assert (Hcash : get "cash" n3 =
                  first_source ["Cash And Cash Equivalents"; "Cash"] bs).
  { unfold n3. rewrite !first_present_get. cbn [String.eqb Ascii.eqb Bool.eqb].
    match goal with
    | |- context [first_source ?l bs] => destruct (first_source l bs)
    end; reflexivity. }
  assert (Hdebt : get "total_debt" n3 = None).
  { unfold n3. rewrite !first_present_get. reflexivity. }
  clearbody n3.
  destruct (get "Total Debt" bs) as [total|].
  { rewrite !get_set_column. cbn [String.eqb Ascii.eqb Bool.eqb].
    cbn [set_column index]. repeat split; assumption. }
  destruct (get "Short Long Term Debt" bs) as [short|],
           (get "Long Term Debt" bs) as [long|];
    cbn [option_list app sum_series fold_left];
    rewrite ?get_set_column; cbn [String.eqb Ascii.eqb Bool.eqb];
    cbn [set_column index]; repeat split; try assumption.
  - eexists. split; [reflexivity | apply series_eq_sum_of_two].
  - eexists. split; [reflexivity | apply series_eq_zero_plus].
  - eexists. split; [reflexivity | apply series_eq_zero_plus].
Qed.

Lemma normalize_balance_precedence_witness :
  get "current_assets" (fst (normalize_balance (Some debt_in_parts))) =
    Some [Some 55; Some 66] /\
  exists s,
    get "total_debt" (fst (normalize_balance (Some debt_in_parts))) = Some s /\
    series_eq s [Some (3 + 20); None].
Proof.
  destruct (normalize_balance_precedence debt_in_parts eq_refl)
    as (_ & Hca & _ & _ & Hd).
  split; [exact Hca | exact Hd].
Defined.

End LabelPrecedence.
(** ** utils.py and data_loader.py: the fields reported missing *)

Section MissingFieldsReport.
Import Frame Utils Loader LoaderReference.
#[local] Open Scope string_scope.

Lemma validate_fields_silent (df : DataFrame) (required : list string)
  (statement_name : string) :
  validate_fields df required statement_name = [] <->
  forall c, In c required -> has_column c df = true.
Proof.
  unfold validate_fields.
  destruct (filter (fun c => negb (has_column c df)) required)
    as [|m ms] eqn:E.
  - split; [|reflexivity]. intros _ c Hc.
    destruct (has_column c df) eqn:Hh; [reflexivity|].
    assert (Hin : In c (filter (fun c => negb (has_column c df)) required))
      by (apply filter_In; split; [exact Hc | now rewrite Hh]).
    rewrite E in Hin. destruct Hin.
  - split; [discriminate|]. intro H. exfalso.
    assert (Hin : In m (filter (fun c => negb (has_column c df)) required))
      by (rewrite E; now left).
    apply filter_In in Hin. destruct Hin as [Hreq Hneg].
    rewrite (H m Hreq) in Hneg. discriminate.
Qed.

Lemma last_source_present (label_map : list (string * string)) (c : string)
  (df : DataFrame) :
  (exists s, last_source label_map c df = Some s) <->
  exists raw, In (raw, c) label_map /\ has_column raw df = true.
Proof.
  induction label_map as [|[raw norm] lm IH]; cbn [last_source In].
  - split; [intros [s Hs]; discriminate | intros (raw & [] & _)].
  - destruct (last_source lm c df) as [s|] eqn:El.
    + split; [|intros _; now exists s]. intros _.
      destruct (proj1 IH (ex_intro _ s eq_refl)) as (raw' & Hin & Hh).
      exists raw'. split; [now right | exact Hh].
    + destruct (String.eqb_spec c norm) as [->|Hc].
      * rewrite <- has_column_get. split.
        -- intro Hh. exists raw. split; [now left | exact Hh].
        -- intros (raw' & [[= <-]|Hin] & Hh); [exact Hh|].
           destruct (proj2 IH (ex_intro _ raw' (conj Hin Hh))) as [s Hs].
           discriminate.
      * split; [intros [s Hs]; discriminate|].
        intros (raw' & [[= _ <-]|Hin] & Hh); [congruence|].
        destruct (proj2 IH (ex_intro _ raw' (conj Hin Hh))) as [s Hs].
        discriminate.
Qed.

(** [validate_fields] warns at most once per statement: not at all when
    every required field is a column of the frame, and otherwise once,
    naming exactly the required fields that are not. *)
Theorem validate_fields_reports_missing (df : DataFrame)
  (required : list string) (statement_name : string) :
  (validate_fields df required statement_name = [] /\
   forall c, In c required -> has_column c df = true) \/
  (exists missing,
     validate_fields df required statement_name =
       [MissingFields statement_name missing] /\
     missing <> [] /\
     forall c, In c missing <-> In c required /\ has_column c df = false).
Proof.
  destruct (validate_fields df required statement_name) as [|r rs] eqn:E.
  - left. split; [reflexivity|].
    exact (proj1 (validate_fields_silent df required statement_name) E).
  - right. unfold validate_fields in E.
    destruct (filter (fun c => negb (has_column c df)) required)
      as [|m ms] eqn:Ef; [discriminate|].
    injection E as <- <-. exists (m :: ms).
    split; [reflexivity|]. split; [discriminate|].
    intro c. rewrite <- Ef, filter_In.
    destruct (has_column c df); cbn; intuition congruence.
Qed.

Lemma validate_fields_reports_missing_witness :
  validate_fields complete_income ["Revenue"; "EBIT"] "Income Statement" = [].
Proof.
  destruct (validate_fields_reports_missing complete_income
              ["Revenue"; "EBIT"] "Income Statement")
    as [[E _]|(missing & _ & Hne & Hin)]; [exact E|].
  exfalso. destruct missing as [|m ms]; [congruence|].
  destruct (proj1 (Hin m) (or_introl eq_refl)) as [Hreq Hcol].
  cbn in Hreq. destruct Hreq as [<-|[<-|[]]]; discriminate.
Defined.

(** The income statement is normalized without a warning exactly when
    each of its five mandatory fields has one of its source labels among
    the raw columns. *)
Theorem normalize_income_silent (inc : DataFrame) :
  snd (normalize_income inc) = [] <->
  forall c, In c MANDATORY_INCOME ->
            exists raw, In (raw, c) income_label_map /\
                        has_column raw inc = true.
Proof.
  unfold normalize_income. cbn [snd]. rewrite validate_fields_silent.
  split; intros H c Hc.
  - apply last_source_present. rewrite <- map_labels_get.
    apply has_column_get. now apply H.
  - apply has_column_get. rewrite map_labels_get.
    apply last_source_present. now apply H.
Qed.

Lemma normalize_income_silent_witness :
  snd (normalize_income complete_income) = [].
Proof.
  apply (proj2 (normalize_income_silent complete_income)).
  intros c Hc. cbn in Hc.
  destruct Hc as [<-|[<-|[<-|[<-|[<-|[]]]]]].
  - exists "Revenue". split; [cbn; auto 20 | reflexivity].
  - exists "EBIT". split; [cbn; auto 20 | reflexivity].
  - exists "Income Before Tax". split; [cbn; auto 20 | reflexivity].
  - exists "Income Tax Expense". split; [cbn; auto 20 | reflexivity].
  - exists "Net Income". split; [cbn; auto 20 | reflexivity].
Defined.

End MissingFieldsReport.
(** ** data_loader.py: the loaded statements *)

Section LoadedStatements.
Import Frame Metrics MetricsReference Utils UtilsReference.
Import Loader LoaderReference.
#[local] Open Scope string_scope.

Lemma normalize_cashflow_index (cf : DataFrame) :
  index (fst (normalize_cashflow (Some cf))) =
  if empty cf then [] else index cf.
Proof.
  unfold normalize_cashflow. destruct (empty cf); [reflexivity|].
  cbn [fst].
  destruct (get "capex" (map_labels cashflow_label_map cf));
    cbn [set_column index]; apply map_labels_index.
Qed.

Lemma normalize_balance_index (bs : DataFrame) :
  index (fst (normalize_balance (Some bs))) =
  if empty bs then [] else index bs.
Proof.
  unfold normalize_balance. destruct (empty bs); [reflexivity|].
  cbn [fst].
  assert (H : forall n : DataFrame,
    index match get "Total Debt" bs with
          | Some s => set_column "total_debt" s n
          | None =>
              match sum_series (option_list (get "Short Long Term Debt" bs) ++
                                option_list (get "Long Term Debt" bs)) with
              | Some s => set_column "total_debt" s n
              | None => n
              end
          end = index n).
  { intro n. destruct (get "Total Debt" bs); [reflexivity|].
    now destruct (sum_series _). }
  rewrite H, !first_present_index. reflexivity.
Qed.

Lemma load_ok (raw : RawStatements) :
  exists inc_a cf_a bs_a,
    load raw =
      Ok (mkNormalized inc_a cf_a bs_a,
          (snd (normalize_income (raw_income raw)) ++
           snd (normalize_cashflow (Some (raw_cashflow raw))) ++
           snd (normalize_balance (Some (raw_balance raw))))%list) /\
    restricted_to
      (common_years
         [fst (normalize_income (raw_income raw));
          fst (normalize_cashflow (Some (raw_cashflow raw)));
          fst (normalize_balance (Some (raw_balance raw)))])
      (fst (normalize_income (raw_income raw))) inc_a /\
    restricted_to
      (common_years
         [fst (normalize_income (raw_income raw));
          fst (normalize_cashflow (Some (raw_cashflow raw)));
          fst (normalize_balance (Some (raw_balance raw)))])
      (fst (normalize_cashflow (Some (raw_cashflow raw)))) cf_a /\
    restricted_to
      (common_years
         [fst (normalize_income (raw_income raw));
          fst (normalize_cashflow (Some (raw_cashflow raw)));
          fst (normalize_balance (Some (raw_balance raw)))])
      (fst (normalize_balance (Some (raw_balance raw)))) bs_a.
Proof.
  unfold load.
  destruct (normalize_income (raw_income raw)) as [inc_n log1].
  destruct (normalize_cashflow (Some (raw_cashflow raw))) as [cf_n log2].
  destruct (normalize_balance (Some (raw_balance raw))) as [bs_n log3].
  cbn [fst snd].
  destruct (align_fiscal_years_ok [inc_n; cf_n; bs_n]) as (aligned & -> & H).
  cbn [bind].
  inversion H as [|? inc_a ? l1 H1 H']; subst.
  inversion H' as [|? cf_a ? l2 H2 H'']; subst.
  inversion H'' as [|? bs_a ? l3 H3 Hnil]; subst.
  inversion Hnil; subst.
  exists inc_a, cf_a, bs_a.
  split; [reflexivity|]. split; [exact H1|]. split; [exact H2 | exact H3].
Qed.

Lemma normalize_income_index (inc : DataFrame) :
  index (fst (normalize_income inc)) = index inc.
Proof. unfold normalize_income. cbn [fst]. apply map_labels_index. Qed.

Lemma restricted_has_column (ys : list Z) (df df' : DataFrame) (c : string) :
  restricted_to ys df df' -> has_column c df' = has_column c df.
Proof.
  intros (_ & Hc & _). unfold has_column. now rewrite Hc.
Qed.

Lemma normalize_income_revenue (inc : DataFrame) :
  has_column "revenue" (fst (normalize_income inc)) =
  has_column "Revenue" inc || has_column "Total Revenue" inc.
Proof.
  assert (G : get "revenue" (fst (normalize_income inc)) =
              match get "Revenue" inc with
              | Some s => Some s
              | None => get "Total Revenue" inc
              end).
  { unfold normalize_income. cbn [fst]. rewrite map_labels_get.
    unfold income_label_map.
    cbn [last_source String.eqb Ascii.eqb Bool.eqb].
    repeat match goal with
           | |- context [get ?l inc] => destruct (get l inc)
           end; reflexivity. }
  destruct (get "Revenue" inc) as [s|] eqn:E1.
  - rewrite (get_has_column _ _ _ E1), (get_has_column _ _ _ G). reflexivity.
  - apply has_column_false in E1. rewrite E1. cbn [orb].
    destruct (get "Total Revenue" inc) as [s|] eqn:E2.
    + now rewrite (get_has_column _ _ _ E2), (get_has_column _ _ _ G).
    + apply has_column_false in E2, G. now rewrite E2, G.
Qed.

(** [load] does not raise after the fetch.  Each returned statement
    is its normalized statement restricted to the years common to the
    three, which are the years the raw income statement shares with a
    non-empty raw cash-flow statement and a non-empty raw balance sheet; so
    when the cash-flow statement or the balance sheet is empty, no
    statement keeps a year, the income statement included. *)
Theorem load_aligned (raw : RawStatements) :
  let inc_n := fst (normalize_income (raw_income raw)) in
  let cf_n := fst (normalize_cashflow (Some (raw_cashflow raw))) in
  let bs_n := fst (normalize_balance (Some (raw_balance raw))) in
  let common := common_years [inc_n; cf_n; bs_n] in
  exists st log,
    load raw = Ok (st, log) /\
    restricted_to common inc_n (income st) /\
    restricted_to common cf_n (cashflow st) /\
    restricted_to common bs_n (balance st) /\
    (forall y, In y common <->
       In y (index (raw_income raw)) /\
       (empty (raw_cashflow raw) = false /\
        In y (index (raw_cashflow raw))) /\
       (empty (raw_balance raw) = false /\
        In y (index (raw_balance raw)))) /\
    (empty (raw_cashflow raw) = true \/ empty (raw_balance raw) = true ->
     index (income st) = [] /\ index (cashflow st) = [] /\
     index (balance st) = []).
Proof.
  cbv zeta.
  pose proof (normalize_income_index (raw_income raw)) as Hi.
  pose proof (normalize_cashflow_index (raw_cashflow raw)) as Hc.
  pose proof (normalize_balance_index (raw_balance raw)) as Hb.
  destruct (load_ok raw) as (inc_a & cf_a & bs_a & E & H1 & H2 & H3).
  set (inc_n := fst (normalize_income (raw_income raw))) in *.
  set (cf_n := fst (normalize_cashflow (Some (raw_cashflow raw)))) in *.
  set (bs_n := fst (normalize_balance (Some (raw_balance raw)))) in *.
  clearbody inc_n cf_n bs_n.
  eexists _, _. split; [exact E|]. cbn [income cashflow balance].
  split; [exact H1|]. split; [exact H2|]. split; [exact H3|].
  assert (Hin : forall y,
    In y (common_years [inc_n; cf_n; bs_n]) <->
    In y (index (raw_income raw)) /\
    (empty (raw_cashflow raw) = false /\ In y (index (raw_cashflow raw))) /\
    (empty (raw_balance raw) = false /\ In y (index (raw_balance raw)))).
  { intro y. rewrite common_years_In. split.
    - intro Hall.
      pose proof (Hall _ (or_introl eq_refl)) as Hyi.
      pose proof (Hall _ (or_intror (or_introl eq_refl))) as Hyc.
      pose proof (Hall _ (or_intror (or_intror (or_introl eq_refl)))) as Hyb.
      rewrite Hi in Hyi. rewrite Hc in Hyc. rewrite Hb in Hyb.
      destruct (empty (raw_cashflow raw)); [destruct Hyc|].
      destruct (empty (raw_balance raw)); [destruct Hyb|].
      tauto.
    - intros (Hyi & [Hec Hyc] & [Heb Hyb]) d [<-|[<-|[<-|[]]]].
      + now rewrite Hi.
      + now rewrite Hc, Hec.
      + now rewrite Hb, Heb. }
  split; [exact Hin|].
  intro Hempty.
  destruct H1 as [E1 _], H2 as [E2 _], H3 as [E3 _].
  rewrite E1, E2, E3.
  destruct (common_years [inc_n; cf_n; bs_n]) as [|y l]; [auto|].
  exfalso.
  destruct (proj1 (Hin y) (or_introl eq_refl)) as (_ & [Hec _] & [Heb _]).
  destruct Hempty; congruence.
Qed.

Lemma load_aligned_witness :
  exists st log,
    load missing_cashflow_raw = Ok (st, log) /\ index (income st) = [].
Proof.
  destruct (load_aligned missing_cashflow_raw)
    as (st & log & E & _ & _ & _ & _ & H).
  exists st, log. split; [exact E|].
  exact (proj1 (H (or_introl eq_refl))).
Defined.

(** The statements [load] returns are aligned as
    [compute_historical_metrics] needs them: the metrics of loaded
    statements are computed without a KeyError for every look-back, and the
    call fails only when the raw income statement has neither a "Revenue"
    nor a "Total Revenue" line. *)
Theorem load_then_metrics (raw : RawStatements) (st : NormalizedStatements)
  (log : list log_record) (lookback min_years : nat) :
  load raw = Ok (st, log) ->
  let call := compute_historical_metrics (income st) (cashflow st)
                (balance st) lookback min_years in
  (has_column "Revenue" (raw_income raw) = true \/
   has_column "Total Revenue" (raw_income raw) = true ->
   exists h log', call = Ok (h, log')) /\
  (has_column "Revenue" (raw_income raw) = false ->
   has_column "Total Revenue" (raw_income raw) = false ->
   call = Raise (ValueError revenue_missing)).
Proof.
  intros Hl call. unfold call.
  pose proof (normalize_income_revenue (raw_income raw)) as Hsrc.
  destruct (load_ok raw) as (inc_a & cf_a & bs_a & E & H1 & H2 & H3).
  rewrite Hl in E. apply Ok_inj in E. injection E as -> _.
  cbn [income cashflow balance].
  rewrite <- (restricted_has_column _ _ _ "revenue" H1) in Hsrc.
  destruct H1 as (Hi & _), H2 as (Hc & _), H3 as (Hb & _).
  rewrite <- Hi in Hc, Hb. clear Hi.
  split.
  - intro Hlab.
    assert (Hr : has_column "revenue" inc_a = true).
    { rewrite Hsrc. apply orb_true_iff. exact Hlab. }
    apply compute_historical_metrics_returns; [exact Hr | |].
    + right. intros y Hy. apply lookback_window_In in Hy. congruence.
    + right. intros y Hy. apply lookback_window_In in Hy. congruence.
  - intros Hn1 Hn2. unfold compute_historical_metrics.
    rewrite Hsrc, Hn1, Hn2. reflexivity.
Qed.

Lemma load_then_metrics_witness :
  exists st log h log',
    load misaligned_raw = Ok (st, log) /\
    compute_historical_metrics (income st) (cashflow st) (balance st) 5 3 =
      Ok (h, log').
Proof.
  assert (E : exists st log, load misaligned_raw = Ok (st, log))
    by (vm_compute; eauto).
  destruct E as (st & log & E).
  destruct (proj1 (load_then_metrics misaligned_raw st log 5 3 E)
              (or_intror eq_refl)) as (h & log' & Hm).
  now exists st, log, h, log'.
Defined.

End LoadedStatements.
